(** * The waiting-list queue of the gym backend

    A shallow embedding of [backend/app/repositories/waiting_list.py]
    (class [db_waiting_list]), of the service method that sits on top of
    its expiry sweep, and of the tables these read and write; and of the
    two methods of [backend/app/repositories/class_session.py] that call
    it, [enroll_member] and [cancel_enrollment].

    Conventions of the embedding.
    - A table is the list of its rows, in the order the database returns
      them for an unordered query; a column holds the value assigned to
      it. A [DATETIME] column that keeps whole seconds would hold the
      rounded value instead: where a call compares the clock with a
      timestamp that an earlier call has stored, the statements are
      about the value the row holds.
    - A [DateTime] is an integer number of microseconds (the resolution of
      Python's [datetime]); [timedelta(hours=h)] is [h * 3_600_000_000].
    - Every function that calls [datetime.now()] takes [clk : nat -> Z],
      the readings of the clock at the places where it may call
      [datetime.now()], in program order; a call it makes to another
      method receives the readings that follow.
    - [_id15()] draws a random identifier; the function that calls it
      takes the drawn identifier as an argument.
    - An ORM session is a unit of work ([autoflush=False]): objects loaded
      by a query are changed in memory, and [commit] writes the assigned
      columns back to the row with the object's primary key; [rollback]
      drops the changes. *)

From Stdlib Require Import ZArith QArith.QArith_base Lia.
From stdpp Require Import base decidable option list list_numbers strings sorting.
From stdpp Require Import pretty.

Local Open Scope Z_scope.

(** ** Enumerations ([models/enums.py]) *)

Module SubscriptionStatus.
Inductive t := ACTIVE | FROZEN | EXPIRED | BLOCKED.
#[global] Instance eq_dec : EqDecision t.
  Proof. solve_decision. Defined.
End SubscriptionStatus.

Module SessionStatus.
Inductive t := OPEN | FULL | CANCELLED | COMPLETED | CLOSED.
#[global] Instance eq_dec : EqDecision t.
  Proof. solve_decision. Defined.
End SessionStatus.

Module EnrollmentStatus.
Inductive t := REGISTERED | CANCELED | ATTENDED | NO_SHOW.
#[global] Instance eq_dec : EqDecision t.
  Proof. solve_decision. Defined.
End EnrollmentStatus.

Module PlanType.
Inductive t := MONTHLY | YEARLY | WEEKLY | DAILY | VIP.
#[global] Instance eq_dec : EqDecision t.
  Proof. solve_decision. Defined.
End PlanType.

Module WaitingListStatus.
Inductive t := WAITING | ASSIGNED | CONFIRMED | EXPIRED | CANCELLED.
#[global] Instance eq_dec : EqDecision t.
  Proof. solve_decision. Defined.
End WaitingListStatus.

(** ** Tables ([models/*.py]); only the columns the queue reads *)

Module ClassSession.
Record t := mk {
    id : string;
    title : string;
    capacity : Z;
    status : SessionStatus.t
  }.
End ClassSession.

Module Member.
Record t := mk {
    id : string;
    fullname : string
  }.
End Member.

Module Plan.
Record t := mk {
    id : string;
    plan_type : PlanType.t
  }.
End Plan.

Module Subscription.
Record t := mk {
    id : string;
    member_id : string;
    plan_id : string;
    status : SubscriptionStatus.t
  }.
End Subscription.

Module Enrollment.
Record t := mk {
    id : string;
    class_session_id : string;
    member_id : string;
    status : EnrollmentStatus.t;
    created_at : Z;
    canceled_at : option Z;
    cancel_reason : option string
  }.
End Enrollment.

Module WaitingList.
Record t := mk {
    id : string;
    class_session_id : string;
    member_id : string;
    status : WaitingListStatus.t;
    position : Z;
    priority_score : Z;
    approval_deadline : option Z;
    created_at : Z;
    assigned_at : option Z;
    confirmed_at : option Z;
    cancelled_at : option Z
  }.

#[global] Instance eq_dec : EqDecision t.
  Proof. solve_decision. Defined.

  (** Attribute assignments on a loaded object. *)
Definition set_status (v : WaitingListStatus.t) (e : t) : t :=
    mk (id e) (class_session_id e) (member_id e) v (position e)
       (priority_score e) (approval_deadline e) (created_at e)
       (assigned_at e) (confirmed_at e) (cancelled_at e).
Definition set_position (v : Z) (e : t) : t :=
    mk (id e) (class_session_id e) (member_id e) (status e) v
       (priority_score e) (approval_deadline e) (created_at e)
       (assigned_at e) (confirmed_at e) (cancelled_at e).
Definition set_approval_deadline (v : option Z) (e : t) : t :=
    mk (id e) (class_session_id e) (member_id e) (status e) (position e)
       (priority_score e) v (created_at e)
       (assigned_at e) (confirmed_at e) (cancelled_at e).
Definition set_assigned_at (v : option Z) (e : t) : t :=
    mk (id e) (class_session_id e) (member_id e) (status e) (position e)
       (priority_score e) (approval_deadline e) (created_at e)
       v (confirmed_at e) (cancelled_at e).
Definition set_confirmed_at (v : option Z) (e : t) : t :=
    mk (id e) (class_session_id e) (member_id e) (status e) (position e)
       (priority_score e) (approval_deadline e) (created_at e)
       (assigned_at e) v (cancelled_at e).
End WaitingList.

(** The database: one list of rows per table. *)
Record DB := mkDB {
  class_session : list ClassSession.t;
  members : list Member.t;
  subscriptions : list Subscription.t;
  plans : list Plan.t;
  enrollment : list Enrollment.t;
  waiting_list : list WaitingList.t
}.

Definition with_waiting_list (wl : list WaitingList.t) (db : DB) : DB :=
  mkDB (class_session db) (members db) (subscriptions db) (plans db)
       (enrollment db) wl.

Definition with_enrollment (en : list Enrollment.t) (db : DB) : DB :=
  mkDB (class_session db) (members db) (subscriptions db) (plans db)
       en (waiting_list db).

(** ** Exceptions ([exceptions/exceptions.py], and those the runtime
    raises: a missing attribute, a call of the wrong type and a
    primary-key collision) *)

Inductive exn :=
| NotFoundError (message : string)
| DuplicateError (message : string)
| AppError (message : string)
| AttributeError (message : string)
| TypeError (message : string)
| IntegrityError (message : string).

(** [str(e)] *)
Definition str (e : exn) : string :=
  match e with
  | NotFoundError m | DuplicateError m | AppError m
  | AttributeError m | TypeError m | IntegrityError m => m
  end.

#[global] Instance exn_eq_dec : EqDecision exn.
Proof. solve_decision. Defined.

Definition result (A : Type) : Type := exn + A.

Definition raise {A} (e : exn) : result A := inl e.
Definition ret {A} (a : A) : result A := inr a.
Definition bind {A B} (m : result A) (k : A -> result B) : result B :=
  match m with
  | inl e => inl e
  | inr a => k a
  end.

Declare Scope result_scope.
Delimit Scope result_scope with result.
Notation "x <-- m ;; k" := (bind m (fun x => k))
  (at level 20, m at level 99, k at level 200, only parsing) : result_scope.
Notation "'check' c 'else_raise' e ;; k" :=
  (if decide c then k else raise e)
  (at level 20, c at level 9, e at level 9, k at level 200, only parsing)
  : result_scope.

(** [query.first()]: the first row of the result, or [None]; the caller
    raises when it needs the row. *)
Definition first_or_raise {A} (rows : list A) (e : exn) : result A :=
  match head rows with
  | Some r => ret r
  | None => raise e
  end.

(** [try: ...; session.commit(); return v  except: session.rollback(); raise]:
    the body yields the database to commit together with the value, or an
    exception, in which case nothing of its pending work is kept. *)
Definition transaction {A} (db : DB) (body : result (DB * A)) : DB * result A :=
  match body with
  | inl e => (db, inl e)
  | inr (db', v) => (db', inr v)
  end.

(** ** Time *)

Definition microseconds_per_hour : Z := 3600000000.

(** [timedelta(hours=h)] *)
Definition timedelta_hours (h : Z) : Z := h * microseconds_per_hour.

(** [int((b - a).total_seconds() / 3600)]: Python's [int] truncates toward
    zero, hence [Z.quot]. *)
Definition whole_hours (a b : Z) : Z := Z.quot (b - a) microseconds_per_hour.

(** ** Queries *)

(** [query(A, B).join(B, on)]: the pairs of rows that satisfy [on]. *)
Definition join {A B} (on : A -> B -> Prop) `{forall a b, Decision (on a b)}
    (la : list A) (lb : list B) : list (A * B) :=
  a ← la; (fun b => (a, b)) <$> filter (on a) lb.

(** The [WAITING] rows of one session: the filter of the three queue
    queries. *)
Definition is_waiting (class_session_id : string) (e : WaitingList.t) : Prop :=
  WaitingList.class_session_id e = class_session_id
  ∧ WaitingList.status e = WaitingListStatus.WAITING.

#[global] Instance is_waiting_dec s e : Decision (is_waiting s e).
Proof. unfold is_waiting. apply _. Defined.

Definition waiting_entries (class_session_id : string) (db : DB)
  : list WaitingList.t :=
  filter (is_waiting class_session_id) (waiting_list db).

(** [.order_by(column.asc())]: the rows by ascending [key]; rows with the
    same key stay in some order the database chooses, here the one of the
    merge sort. *)
Definition key_le {A} (key : A -> Z) (a b : A) : Prop := key a <= key b.

#[global] Instance key_le_dec {A} (key : A -> Z) a b : Decision (key_le key a b).
Proof. unfold key_le. apply _. Defined.

Definition order_by {A} (key : A -> Z) (rows : list A) : list A :=
  merge_sort (key_le key) rows.

Definition order_by_position (rows : list WaitingList.t) : list WaitingList.t :=
  order_by WaitingList.position rows.

(** ** The unit of work *)

(** A pending change of a loaded object: its primary key and the columns
    assigned on it. *)
Definition change : Type := string * (WaitingList.t -> WaitingList.t).

(** The pending change of the object with primary key [i], if any. *)
Definition pending (i : string) (dirty : list change)
  : option (WaitingList.t -> WaitingList.t) :=
  snd <$> head (filter (fun c : change => c.1 = i) dirty).

(** [commit] flushes the session: one
    [UPDATE waiting_list SET ... WHERE id = ?] per changed object. *)
Definition flush (dirty : list change) (table : list WaitingList.t)
  : list WaitingList.t :=
  (fun row => match pending (WaitingList.id row) dirty with
              | Some assign_columns => assign_columns row
              | None => row
              end) <$> table.

(** [session.add(row)] followed by [commit]: an [INSERT], refused when the
    primary key is taken. *)
Definition insert_waiting_list (row : WaitingList.t)
    (table : list WaitingList.t) : result (list WaitingList.t) :=
  if decide (WaitingList.id row ∈ WaitingList.id <$> table)
  then raise (IntegrityError "Duplicate entry for key 'PRIMARY'")
  else ret (table ++ [row]).

Definition insert_enrollment (row : Enrollment.t)
    (table : list Enrollment.t) : result (list Enrollment.t) :=
  if decide (Enrollment.id row ∈ Enrollment.id <$> table)
  then raise (IntegrityError "Duplicate entry for key 'PRIMARY'")
  else ret (table ++ [row]).

(** ** [calculate_priority_score] *)

Definition subscription_plan_on (s : Subscription.t) (p : Plan.t) : Prop :=
  Plan.id p = Subscription.plan_id s.

#[global] Instance subscription_plan_on_dec s p :
  Decision (subscription_plan_on s p).
Proof. unfold subscription_plan_on. apply _. Defined.

(** The [(Subscription, Plan)] row the method reads with [.first()]. *)
Definition active_subscription (member_id : string) (db : DB)
  : option (Subscription.t * Plan.t) :=
  head (filter
          (fun sp => Subscription.member_id sp.1 = member_id
                     ∧ Subscription.status sp.1 = SubscriptionStatus.ACTIVE)
          (join subscription_plan_on (subscriptions db) (plans db))).

Definition base_score (sub : option (Subscription.t * Plan.t)) : Z :=
  match sub with
  | Some (_, plan) =>
      if decide (Plan.plan_type plan = PlanType.VIP) then 1000 else 100
  | None => 0
  end.

Definition calculate_priority_score (clk : nat -> Z) (member_id : string)
    (created_at : Z) (db : DB) : Z :=
  let base_score := base_score (active_subscription member_id db) in
  let waiting_time_bonus := whole_hours created_at (clk 0%nat) in
  base_score + waiting_time_bonus.

(** ** [add_to_waiting_list] *)

Definition already_enrolled (class_session_id member_id : string)
    (en : Enrollment.t) : Prop :=
  Enrollment.class_session_id en = class_session_id
  ∧ Enrollment.member_id en = member_id
  ∧ Enrollment.status en = EnrollmentStatus.REGISTERED.

#[global] Instance already_enrolled_dec s m en :
  Decision (already_enrolled s m en).
Proof. unfold already_enrolled. apply _. Defined.

Definition already_waiting (class_session_id member_id : string)
    (e : WaitingList.t) : Prop :=
  WaitingList.class_session_id e = class_session_id
  ∧ WaitingList.member_id e = member_id
  ∧ (WaitingList.status e = WaitingListStatus.WAITING
     ∨ WaitingList.status e = WaitingListStatus.ASSIGNED).

#[global] Instance already_waiting_dec s m e :
  Decision (already_waiting s m e).
Proof. unfold already_waiting. apply _. Defined.

(** One round of the loop that looks for the insertion rank. *)
Definition insertion_step (priority_score now : Z) (final_position : Z)
    (entry : WaitingList.t) : Z :=
  if decide (priority_score > WaitingList.priority_score entry) then
    Z.min final_position (WaitingList.position entry)
  else if decide (priority_score = WaitingList.priority_score entry) then
    if decide (now < WaitingList.created_at entry) then
      Z.min final_position (WaitingList.position entry)
    else final_position
  else final_position.

Definition insertion_rank (priority_score now : Z)
    (waiting : list WaitingList.t) (position : Z) : Z :=
  foldl (insertion_step priority_score now) position waiting.

(** The second loop: [entry.position += 1] on the entries at or after the
    rank. *)
Definition shifted_down (final_position : Z) (waiting : list WaitingList.t)
  : list change :=
  (fun entry => (WaitingList.id entry,
                 WaitingList.set_position (WaitingList.position entry + 1)))
    <$> filter (fun entry => WaitingList.position entry >= final_position)
               waiting.

Definition add_to_waiting_list (clk : nat -> Z) (new_id : string)
    (class_session_id member_id : string) (db : DB)
  : DB * result WaitingList.t :=
  transaction db (
    cs <-- first_or_raise
             (filter (fun c => ClassSession.id c = class_session_id)
                     (class_session db))
             (NotFoundError "Class session not found") ;;
    check (ClassSession.status cs ≠ SessionStatus.CLOSED)
      else_raise (AppError "Session registration is closed") ;;
    member <-- first_or_raise
                 (filter (fun m => Member.id m = member_id) (members db))
                 (NotFoundError "Member not found") ;;
    check (head (filter (already_enrolled class_session_id member_id)
                        (enrollment db)) = None)
      else_raise (DuplicateError "Member is already enrolled in this session") ;;
    check (head (filter (already_waiting class_session_id member_id)
                        (waiting_list db)) = None)
      else_raise (DuplicateError "Member is already on the waiting list") ;;
    let position :=
      Z.of_nat (length (waiting_entries class_session_id db)) + 1 in
    let now := clk 0%nat in
    let priority_score :=
      calculate_priority_score (fun k => clk (S k)) member_id now db in
    let waiting := waiting_entries class_session_id db in
    let final_position := insertion_rank priority_score now waiting position in
    let dirty := shifted_down final_position waiting in
    let wl_entry :=
      WaitingList.mk new_id class_session_id member_id
        WaitingListStatus.WAITING final_position priority_score
        None now None None None in
    table <-- insert_waiting_list wl_entry (flush dirty (waiting_list db)) ;;
    ret (with_waiting_list table db, wl_entry))%result.

(** ** [promote_from_queue] *)

Definition assigned (now deadline : Z) (e : WaitingList.t) : WaitingList.t :=
  WaitingList.set_approval_deadline (Some deadline)
    (WaitingList.set_assigned_at (Some now)
       (WaitingList.set_status WaitingListStatus.ASSIGNED e)).

(** The loop over [remaining]: [entry.position = max(1, entry.position - 1)]. *)
Definition moved_up (remaining : list WaitingList.t) : list change :=
  (fun entry => (WaitingList.id entry,
                 WaitingList.set_position
                   (Z.max 1 (WaitingList.position entry - 1))))
    <$> remaining.

Definition promote_from_queue (clk : nat -> Z) (class_session_id : string)
    (approval_deadline_hours : Z) (db : DB) : DB * option WaitingList.t :=
  match head (order_by_position (waiting_entries class_session_id db)) with
  | None => (db, None)
  | Some first_entry =>
      let now := clk 0%nat in
      let deadline := now + timedelta_hours approval_deadline_hours in
      let remaining :=
        filter (fun e => is_waiting class_session_id e
                         ∧ WaitingList.id e ≠ WaitingList.id first_entry)
               (waiting_list db) in
      let dirty :=
        (WaitingList.id first_entry, assigned now deadline)
          :: moved_up remaining in
      (with_waiting_list (flush dirty (waiting_list db)) db,
       Some (assigned now deadline first_entry))
  end.

(** The default of [approval_deadline_hours]. *)
Definition default_approval_deadline_hours : Z := 24.

(** ** [confirm_assignment] *)

Definition expired_message : string :=
  "Approval deadline has passed. Spot has been given to next in queue.".

(** The part after the deadline check: the enrollment is created and the
    entry confirmed in one transaction. *)
Definition confirm_in_time (clk : nat -> Z) (new_id : string)
    (wl_entry : WaitingList.t) (db : DB) : DB * result Enrollment.t :=
  transaction db (
    let enrollment_row :=
      Enrollment.mk new_id (WaitingList.class_session_id wl_entry)
        (WaitingList.member_id wl_entry) EnrollmentStatus.REGISTERED
        (clk 0%nat) None None in
    enrollments <-- insert_enrollment enrollment_row (enrollment db) ;;
    let dirty :=
      [(WaitingList.id wl_entry,
        fun row => WaitingList.set_confirmed_at (Some (clk 1%nat))
                     (WaitingList.set_status WaitingListStatus.CONFIRMED row))] in
    ret (with_waiting_list (flush dirty (waiting_list db))
           (with_enrollment enrollments db),
         enrollment_row))%result.

Definition confirm_assignment (clk : nat -> Z) (new_id : string)
    (waiting_list_id : string) (db : DB) : DB * result Enrollment.t :=
  match head (filter (fun e => WaitingList.id e = waiting_list_id)
                     (waiting_list db)) with
  | None => (db, raise (NotFoundError "Waiting list entry not found"))
  | Some wl_entry =>
      if decide (WaitingList.status wl_entry ≠ WaitingListStatus.ASSIGNED)
      then (db, raise (AppError "Waiting list entry is not in ASSIGNED status"))
      else
        match WaitingList.approval_deadline wl_entry with
        | Some deadline =>
            if decide (clk 0%nat > deadline) then
              (* expire this entry, commit, promote the next, then raise *)
              let committed :=
                with_waiting_list
                  (flush [(WaitingList.id wl_entry,
                           WaitingList.set_status WaitingListStatus.EXPIRED)]
                         (waiting_list db)) db in
              let promoted :=
                promote_from_queue (fun k => clk (S k))
                  (WaitingList.class_session_id wl_entry)
                  default_approval_deadline_hours committed in
              (promoted.1, raise (AppError expired_message))
            else confirm_in_time (fun k => clk (S k)) new_id wl_entry db
        | None => confirm_in_time (fun k => clk (S k)) new_id wl_entry db
        end
  end.

(** ** [check_expired_assignments] *)

Definition deadline_before (now : Z) (e : WaitingList.t) : Prop :=
  match WaitingList.approval_deadline e with
  | Some deadline => deadline < now
  | None => False
  end.

#[global] Instance deadline_before_dec now e : Decision (deadline_before now e).
Proof. unfold deadline_before. destruct (WaitingList.approval_deadline e); apply _. Defined.

(** [if class_session_id: query = query.filter(...)]: [None] and the empty
    string leave the query unscoped. *)
Definition in_scope (class_session_id : option string) (e : WaitingList.t)
  : Prop :=
  match class_session_id with
  | Some s => if decide (s = "") then True
              else WaitingList.class_session_id e = s
  | None => True
  end.

#[global] Instance in_scope_dec s e : Decision (in_scope s e).
Proof. unfold in_scope. destruct s as [s|]; [destruct (decide (s = ""))|]; apply _. Defined.

Definition overdue (now : Z) (class_session_id : option string)
    (e : WaitingList.t) : Prop :=
  WaitingList.status e = WaitingListStatus.ASSIGNED
  ∧ deadline_before now e
  ∧ in_scope class_session_id e.

#[global] Instance overdue_dec now s e : Decision (overdue now s e).
Proof. unfold overdue. apply _. Defined.

(** The promotions of the loop, one per expired entry, each in a session
    of its own that commits at once. *)
Fixpoint promote_each (clk : nat -> Z) (expired : list WaitingList.t)
    (db : DB) : DB :=
  match expired with
  | [] => db
  | entry :: rest =>
      promote_each (fun k => clk (S k)) rest
        (promote_from_queue clk (WaitingList.class_session_id entry)
           default_approval_deadline_hours db).1
  end.

Definition check_expired_assignments (clk : nat -> Z)
    (class_session_id : option string) (db : DB) : DB * nat :=
  let expired := filter (overdue (clk 0%nat) class_session_id) (waiting_list db) in
  let promoted := promote_each (fun k => clk (S k)) expired db in
  let dirty :=
    (fun entry => (WaitingList.id entry,
                   WaitingList.set_status WaitingListStatus.EXPIRED))
      <$> expired in
  (with_waiting_list (flush dirty (waiting_list promoted)) promoted,
   length expired).

(** ** [get_waiting_list] *)

Module QueueRow.
  (** One dictionary of the returned list; the timestamps are kept as
      timestamps rather than as their ISO-8601 text. *)
Record t := mk {
    id : string;
    member_id : string;
    member_name : string;
    position : Z;
    status : WaitingListStatus.t;
    priority_score : Z;
    created_at : Z;
    assigned_at : option Z;
    approval_deadline : option Z;
    waiting_hours : Q
  }.
End QueueRow.

Definition member_on (wl : WaitingList.t) (m : Member.t) : Prop :=
  Member.id m = WaitingList.member_id wl.

#[global] Instance member_on_dec wl m : Decision (member_on wl m).
Proof. unfold member_on. apply _. Defined.

(** [(now - created_at).total_seconds() / 3600]: a fraction of hours. *)
Definition hours_between (created_at now : Z) : Q :=
  Qmake (now - created_at) 3600000000.

Definition queue_row (now : Z) (r : WaitingList.t * Member.t) : QueueRow.t :=
  let (wl, m) := r in
  QueueRow.mk (WaitingList.id wl) (WaitingList.member_id wl)
    (Member.fullname m) (WaitingList.position wl) (WaitingList.status wl)
    (WaitingList.priority_score wl) (WaitingList.created_at wl)
    (WaitingList.assigned_at wl) (WaitingList.approval_deadline wl)
    (hours_between (WaitingList.created_at wl) now).

(** The query of [get_waiting_list]: every entry of the session, of any
    status, with its member, by ascending position. *)
Definition session_entries (class_session_id : string) (db : DB)
  : list (WaitingList.t * Member.t) :=
  order_by (fun r => WaitingList.position r.1)
    (filter (fun r => WaitingList.class_session_id r.1 = class_session_id)
            (join member_on (waiting_list db) (members db))).

(** The list comprehension reads the clock once per row: [clk i] is the
    reading for the [i]-th row. *)
Definition get_waiting_list (clk : nat -> Z) (class_session_id : string)
    (db : DB) : list QueueRow.t :=
  imap (fun i r => queue_row (clk i) r) (session_entries class_session_id db).

(** ** [WaitingListService.check_expired_assignments] and its endpoint *)

(** What attribute access on a [db_waiting_list] object finds: the sweep,
    which has the type of the call the service makes, or one of the other
    methods and fields, which have other types. *)
Inductive attribute :=
| sweep_method (f : (nat -> Z) -> option string -> DB -> DB * nat)
| other_attribute.

Definition db_waiting_list_attributes : list (string * attribute) :=
  [ ("SessionLocal", other_attribute);
    ("calculate_priority_score", other_attribute);
    ("add_to_waiting_list", other_attribute);
    ("promote_from_queue", other_attribute);
    ("confirm_assignment", other_attribute);
    ("check_expired_assignments", sweep_method check_expired_assignments);
    ("get_waiting_list", other_attribute);
    ("detect_high_demand", other_attribute) ].

(** [getattr(self.waiting_list_repo, name)] *)
Definition getattr (name : string) : result attribute :=
  match head (filter (fun a : string * attribute => a.1 = name)
                     db_waiting_list_attributes) with
  | Some a => ret a.2
  | None =>
      raise (AttributeError
               ("'db_waiting_list' object has no attribute '" +:+ name +:+ "'"))
  end.

(** The service method: [return self.waiting_list_repo.expire_assignments(session_id)]. *)
Definition service_check_expired_assignments (clk : nat -> Z)
    (session_id : option string) (db : DB) : DB * result nat :=
  match getattr "expire_assignments" with
  | inr (sweep_method f) => let r := f clk session_id db in (r.1, ret r.2)
  | inr other_attribute => (db, raise (TypeError "expire_assignments"))
  | inl e => (db, raise e)
  end.

(** The handler of [POST /waiting-list/check-expired]: the count on
    success, and any exception turned into an [AppError]. *)
Definition api_check_expired_assignments (clk : nat -> Z)
    (session_id : option string) (db : DB) : DB * result nat :=
  match service_check_expired_assignments clk session_id db with
  | (db', inr count) => (db', ret count)
  | (db', inl e) =>
      (db', raise (AppError ("Failed to check expired assignments: " +:+ str e)))
  end.

(** ** Histories of the queue *)

(** The mutating operations, with what the environment supplies to each:
    the readings of the clock and the identifier drawn. *)
Inductive op :=
| Add (clk : nat -> Z) (new_id class_session_id member_id : string)
| Promote (clk : nat -> Z) (class_session_id : string)
          (approval_deadline_hours : Z)
| Confirm (clk : nat -> Z) (new_id waiting_list_id : string)
| Sweep (clk : nat -> Z) (class_session_id : option string).

Definition step (db : DB) (o : op) : DB :=
  match o with
  | Add clk new_id s m => (add_to_waiting_list clk new_id s m db).1
  | Promote clk s h => (promote_from_queue clk s h db).1
  | Confirm clk new_id w => (confirm_assignment clk new_id w db).1
  | Sweep clk s => (check_expired_assignments clk s db).1
  end.

Definition run (ops : list op) (db : DB) : DB := foldl step db ops.

(** ** Invariants of the table *)

(** The primary key. *)
Definition ids (db : DB) : list string := WaitingList.id <$> waiting_list db.

Definition unique_ids (db : DB) : Prop := NoDup (ids db).

(** The positions of the [WAITING] entries of a session. *)
Definition positions (class_session_id : string) (db : DB) : list Z :=
  WaitingList.position <$> waiting_entries class_session_id db.

(** The dense-position invariant: the positions are [1..N], each once,
    [N] the number of [WAITING] entries. *)
Definition dense (class_session_id : string) (db : DB) : Prop :=
  positions class_session_id db
  ≡ₚ seqZ 1 (Z.of_nat (length (waiting_entries class_session_id db))).

(** An entry with this score and enqueue time goes before [entry]: the
    test of the insertion loop. *)
Definition outranks (priority_score created_at : Z) (entry : WaitingList.t)
  : Prop :=
  priority_score > WaitingList.priority_score entry
  ∨ (priority_score = WaitingList.priority_score entry
     ∧ created_at < WaitingList.created_at entry).

#[global] Instance outranks_dec p c e : Decision (outranks p c e).
Proof. unfold outranks. apply _. Defined.

(** The queue of a session is ordered: an entry that outranks another has
    the lower position (higher score first, then earlier enqueue). *)
Definition ordered (class_session_id : string) (db : DB) : Prop :=
  forall a b,
    a ∈ waiting_entries class_session_id db ->
    b ∈ waiting_entries class_session_id db ->
    outranks (WaitingList.priority_score a) (WaitingList.created_at a) b ->
    WaitingList.position a < WaitingList.position b.

(** The row the queries by primary key find. *)
Definition entry_of (waiting_list_id : string) (db : DB)
  : option WaitingList.t :=
  head (filter (fun e => WaitingList.id e = waiting_list_id) (waiting_list db)).

Definition status_of (waiting_list_id : string) (db : DB)
  : option WaitingListStatus.t :=
  WaitingList.status <$> entry_of waiting_list_id db.

(** The [ASSIGNED] entries of a session. *)
Definition is_assigned (class_session_id : string) (e : WaitingList.t) : Prop :=
  WaitingList.class_session_id e = class_session_id
  ∧ WaitingList.status e = WaitingListStatus.ASSIGNED.

#[global] Instance is_assigned_dec s e : Decision (is_assigned s e).
Proof. unfold is_assigned. apply _. Defined.

Definition assigned_entries (class_session_id : string) (db : DB)
  : list WaitingList.t :=
  filter (is_assigned class_session_id) (waiting_list db).

(** The entries that are [ASSIGNED] in [db'] and were not in [db]. *)
Definition newly_assigned (db db' : DB) : list WaitingList.t :=
  filter (fun e => WaitingList.status e = WaitingListStatus.ASSIGNED
                   ∧ status_of (WaitingList.id e) db
                     ≠ Some WaitingListStatus.ASSIGNED)
         (waiting_list db').

(** What the two loops of [add_to_waiting_list] do to a row of the table. *)
Definition shift_row (class_session_id : string) (final_position : Z)
    (row : WaitingList.t) : WaitingList.t :=
  if decide (WaitingList.position row >= final_position
             ∧ is_waiting class_session_id row)
  then WaitingList.set_position (WaitingList.position row + 1) row
  else row.

(** What [promote_from_queue] does to a row of the table, [first_entry]
    being the entry it promotes. *)
Definition promote_row (class_session_id : string) (first_entry : WaitingList.t)
    (now deadline : Z) (row : WaitingList.t) : WaitingList.t :=
  if decide (WaitingList.id row = WaitingList.id first_entry)
  then assigned now deadline row
  else if decide (is_waiting class_session_id row)
  then WaitingList.set_position (Z.max 1 (WaitingList.position row - 1)) row
  else row.

(** The columns no operation assigns. *)
Definition identity (e : WaitingList.t) : string * string * string * Z * Z :=
  (WaitingList.id e, WaitingList.class_session_id e, WaitingList.member_id e,
   WaitingList.priority_score e, WaitingList.created_at e).

(** The state invariant: the primary key and, for every session, the
    dense positions. *)
Definition well_formed (db : DB) : Prop :=
  unique_ids db ∧ forall s, dense s db.

#[global] Instance unique_ids_dec db : Decision (unique_ids db).
Proof. unfold unique_ids. apply _. Defined.

#[global] Instance dense_dec s db : Decision (dense s db).
Proof. unfold dense. apply _. Defined.

(** ** A gym to run the operations on *)

Module Example.
  (** One open session, four members: Ann and Dee on a monthly plan, Bob
      on a VIP plan, Cy without subscription. *)
Definition gym : DB :=
    mkDB [ClassSession.mk "S" "Yoga" 1 SessionStatus.OPEN]
         [Member.mk "M1" "Ann"; Member.mk "M2" "Bob"; Member.mk "M3" "Cy";
          Member.mk "M4" "Dee"]
         [Subscription.mk "s1" "M1" "p1" SubscriptionStatus.ACTIVE;
          Subscription.mk "s2" "M2" "p2" SubscriptionStatus.ACTIVE;
          Subscription.mk "s4" "M4" "p1" SubscriptionStatus.ACTIVE]
         [Plan.mk "p1" PlanType.MONTHLY; Plan.mk "p2" PlanType.VIP]
         [] [].

  (** A clock that advances by one microsecond per reading, from [t0]. *)
Definition clock (t0 : Z) (k : nat) : Z := t0 + Z.of_nat k.

Definition waiting (id member : string) (position score created_at : Z)
    : WaitingList.t :=
    WaitingList.mk id "S" member WaitingListStatus.WAITING position score
      None created_at None None None.

  (** Ann, then Bob, have joined the queue: Bob, VIP, is first. *)
Definition queue : DB :=
    with_waiting_list [waiting "w1" "M1" 2 100 1000;
                       waiting "w2" "M2" 1 1000 2000] gym.

  (** Bob has been promoted at time 3000 and holds the place for 24 hours. *)
Definition held : DB :=
    with_waiting_list
      [waiting "w1" "M1" 1 100 1000;
       WaitingList.mk "w2" "S" "M2" WaitingListStatus.ASSIGNED 1 1000
         (Some 86400003000) 2000 (Some 3000) None None] gym.


(** The same queue after the registration of the session was closed. *)
Definition closed : DB :=
  mkDB [ClassSession.mk "S" "Yoga" 1 SessionStatus.CLOSED]
       (members queue) (subscriptions queue) (plans queue)
       (enrollment queue) (waiting_list queue).
End Example.

(** Every queue is in order. *)
Definition in_order (db : DB) : Prop := forall s, ordered s db.

(** The member has an [ACTIVE] subscription to [plan]. *)
Definition subscribed (member_id : string) (db : DB) (plan : Plan.t) : Prop :=
  exists sub,
    sub ∈ subscriptions db ∧ plan ∈ plans db
    ∧ Plan.id plan = Subscription.plan_id sub
    ∧ Subscription.member_id sub = member_id
    ∧ Subscription.status sub = SubscriptionStatus.ACTIVE.

(** The two clock readings of an [add_to_waiting_list] call, the one it
    stores as [created_at] and the one the priority calculator takes right
    after, are less than an hour apart. *)
Definition prompt (o : op) : Prop :=
  match o with
  | Add clk _ _ _ => Z.abs (clk 1%nat - clk 0%nat) < microseconds_per_hour
  | _ => True
  end.

(** The three tier bases. *)
Definition tier_base (score : Z) : Prop :=
  score = 1000 ∨ score = 100 ∨ score = 0.

(** ** Open entries *)

(** An entry that is still open: [WAITING] or [ASSIGNED], the two statuses
    the duplicate check of [add_to_waiting_list] looks for. *)
Definition is_open (e : WaitingList.t) : Prop :=
  WaitingList.status e = WaitingListStatus.WAITING
  ∨ WaitingList.status e = WaitingListStatus.ASSIGNED.

#[global] Instance is_open_dec e : Decision (is_open e).
Proof. unfold is_open. apply _. Defined.

(** The session and the member of an entry. *)
Definition pair_of (e : WaitingList.t) : string * string :=
  (WaitingList.class_session_id e, WaitingList.member_id e).

(** The (session, member) pairs of the open entries, one per entry. *)
Definition open_pairs (db : DB) : list (string * string) :=
  pair_of <$> filter is_open (waiting_list db).

(** No member has two open entries for one session. *)
Definition one_entry_per_member (db : DB) : Prop := NoDup (open_pairs db).

(** ** [db_sessions.enroll_member] and [db_sessions.cancel_enrollment]
    ([repositories/class_session.py]) *)

(** The [REGISTERED] enrollments of a session: the rows the capacity
    check counts. *)
Definition is_registered (class_session_id : string) (en : Enrollment.t)
  : Prop :=
  Enrollment.class_session_id en = class_session_id
  ∧ Enrollment.status en = EnrollmentStatus.REGISTERED.

#[global] Instance is_registered_dec s en : Decision (is_registered s en).
Proof. unfold is_registered. apply _. Defined.

Definition registered (class_session_id : string) (db : DB)
  : list Enrollment.t :=
  filter (is_registered class_session_id) (enrollment db).

(** The [except] clauses of [enroll_member]: [NotFoundError],
    [DuplicateError] and [AppError] pass; any other exception becomes an
    [AppError] that quotes it. *)
Definition except_enroll_member {A} (r : result A) : result A :=
  match r with
  | inl (NotFoundError m) => inl (NotFoundError m)
  | inl (DuplicateError m) => inl (DuplicateError m)
  | inl (AppError m) => inl (AppError m)
  | inl e => inl (AppError ("Failed to enroll member: " +:+ str e))
  | inr a => inr a
  end.

(** [enroll_member] returns an object that holds the identifier of the
    enrollment; the identifier stands for it here. The waiting-list
    repository runs in a session of its own, so what it has committed
    stays when [enroll_member] raises. The entry it returns comes from a
    session that is closed by then: what reading [wl_entry.position]
    gives is left to [read_position], the position or the text of the
    exception the ORM raises, which is none of the three above. *)
Definition enroll_member (clk : nat -> Z) (new_id : string)
    (read_position : WaitingList.t -> string + Z)
    (class_session_id member_id : string) (db : DB) : DB * result string :=
  match head (filter (fun c => ClassSession.id c = class_session_id)
                     (class_session db)) with
  | None => (db, raise (NotFoundError "Class session not found"))
  | Some cs =>
      match head (filter (fun m => Member.id m = member_id) (members db)) with
      | None => (db, raise (NotFoundError "Member not found"))
      | Some member =>
          match head (filter (already_enrolled class_session_id member_id)
                             (enrollment db)) with
          | Some existing =>
              (db, raise (DuplicateError
                            "Member is already enrolled in this session"))
          | None =>
              let current_count :=
                Z.of_nat (length (registered class_session_id db)) in
              if decide (current_count >= ClassSession.capacity cs) then
                (* the session is full: the waiting list, then an error *)
                let added :=
                  add_to_waiting_list clk new_id class_session_id member_id db in
                (added.1,
                 match added.2 with
                 | inl e => except_enroll_member (raise e)
                 | inr wl_entry =>
                     match read_position wl_entry with
                     | inr position =>
                         raise (AppError
                                  ("Session is full. You have been added to the waiting list at position "
                                   +:+ pretty position +:+ "."))
                     | inl message =>
                         raise (AppError
                                  ("Failed to enroll member: " +:+ message))
                     end
                 end)
              else
                let enrol :=
                  Enrollment.mk new_id class_session_id member_id
                    EnrollmentStatus.REGISTERED (clk 0%nat) None None in
                match insert_enrollment enrol (enrollment db) with
                | inl e => (db, except_enroll_member (raise e))
                | inr table =>
                    (with_enrollment table db,
                     if decide (Enrollment.status enrol
                                ≠ EnrollmentStatus.REGISTERED)
                     then raise (AppError "Failed to create enrollment")
                     else ret (Enrollment.id enrol))
                end
          end
      end
  end.

#[global] Instance enrollment_eq_dec : EqDecision Enrollment.t.
Proof. solve_decision. Defined.

(** The three assignments of [cancel_enrollment]. *)
Definition canceled (now : Z) (cancel_reason : option string)
    (en : Enrollment.t) : Enrollment.t :=
  Enrollment.mk (Enrollment.id en) (Enrollment.class_session_id en)
    (Enrollment.member_id en) EnrollmentStatus.CANCELED
    (Enrollment.created_at en) (Some now) cancel_reason.

(** [commit] with one changed enrollment:
    [UPDATE enrollment SET ... WHERE id = ?]. *)
Definition update_enrollment (i : string)
    (assign_columns : Enrollment.t -> Enrollment.t)
    (table : list Enrollment.t) : list Enrollment.t :=
  (fun row => if decide (Enrollment.id row = i) then assign_columns row
              else row) <$> table.

(** The cancellation is committed first; the promotion that follows runs
    in a session of the waiting-list repository, with the default hold,
    and a failure of it would be logged and dropped. *)
Definition cancel_enrollment (clk : nat -> Z)
    (class_session_id member_id : string) (cancel_reason : option string)
    (db : DB) : DB * result bool :=
  match head (filter (already_enrolled class_session_id member_id)
                     (enrollment db)) with
  | None => (db, raise (NotFoundError "Enrollment not found or already canceled"))
  | Some enrol =>
      let now := clk 0%nat in
      let committed :=
        with_enrollment
          (update_enrollment (Enrollment.id enrol) (canceled now cancel_reason)
             (enrollment db)) db in
      if decide (Enrollment.status (canceled now cancel_reason enrol)
                 ≠ EnrollmentStatus.CANCELED)
      then (committed, raise (AppError "Failed to update enrollment status"))
      else
        let promoted :=
          promote_from_queue (fun k => clk (S k)) class_session_id
            default_approval_deadline_hours committed in
        (promoted.1, ret true)
  end.

(** ** [detect_high_demand] *)

Module SessionStats.
(** A value of the dictionary [session_stats]. *)
Record t := mk {
    session : ClassSession.t;
    waiting_count : Z;
    max_waiting_hours : Q
  }.
End SessionStats.

Module HighDemand.
(** One dictionary of the returned list. *)
Record t := mk {
    session_id : string;
    session_title : string;
    waiting_count : Z;
    max_waiting_hours : Q;
    current_capacity : Z;
    recommendations : list string
  }.
End HighDemand.

Definition waiting_on (cs : ClassSession.t) (wl : WaitingList.t) : Prop :=
  WaitingList.class_session_id wl = ClassSession.id cs.

#[global] Instance waiting_on_dec cs wl : Decision (waiting_on cs wl).
Proof. unfold waiting_on. apply _. Defined.

(** The query: the sessions joined with their [WAITING] entries. *)
Definition sessions_with_waiting (db : DB)
  : list (ClassSession.t * WaitingList.t) :=
  filter (fun r => WaitingList.status r.2 = WaitingListStatus.WAITING)
         (join waiting_on (class_session db) (waiting_list db)).

#[global] Instance Qle_decision (a b : Q) : Decision (a <= b)%Q.
Proof. unfold Qle. apply _. Defined.

(** Python's [max(a, b)]: [b] when it is greater, else [a]. *)
Definition py_max (a b : Q) : Q := if Qlt_le_dec a b then b else a.

(** [session_stats[k]], when [k] is a key of the dictionary. *)
Definition stats_of (k : string) (stats : list (string * SessionStats.t))
  : option SessionStats.t :=
  snd <$> head (filter (fun kv : string * SessionStats.t => kv.1 = k) stats).

(** What one round of the grouping loop does to the value under its key. *)
Definition counted (hours : Q) (st : SessionStats.t) : SessionStats.t :=
  SessionStats.mk (SessionStats.session st)
    (SessionStats.waiting_count st + 1)
    (py_max (SessionStats.max_waiting_hours st) hours).

(** One round of the grouping loop, the clock reading of the round being
    [now]. The dictionary keeps its keys in the order they came in. *)
Definition record_entry (stats : list (string * SessionStats.t))
    (row : Z * (ClassSession.t * WaitingList.t))
  : list (string * SessionStats.t) :=
  let '(now, (cs, wl)) := row in
  let stats :=
    if decide (ClassSession.id cs ∈ stats.*1) then stats
    else stats ++ [(ClassSession.id cs, SessionStats.mk cs 0 0)] in
  let waiting_hours := hours_between (WaitingList.created_at wl) now in
  (fun kv : string * SessionStats.t =>
     if decide (kv.1 = ClassSession.id cs)
     then (kv.1, counted waiting_hours kv.2) else kv) <$> stats.

(** The grouping loop: the clock is read once per row, [clk i] for the
    [i]-th row. *)
Definition session_stats (clk : nat -> Z)
    (rows : list (ClassSession.t * WaitingList.t))
  : list (string * SessionStats.t) :=
  foldl record_entry [] (imap (fun i r => (clk i, r)) rows).

Definition is_high_demand (min_waiting min_waiting_hours : Z)
    (kv : string * SessionStats.t) : Prop :=
  SessionStats.waiting_count kv.2 >= min_waiting
  ∨ (inject_Z min_waiting_hours <= SessionStats.max_waiting_hours kv.2)%Q.

#[global] Instance is_high_demand_dec a b kv : Decision (is_high_demand a b kv).
Proof. unfold is_high_demand. apply _. Defined.

Definition high_demand_row (kv : string * SessionStats.t) : HighDemand.t :=
  HighDemand.mk kv.1 (ClassSession.title (SessionStats.session kv.2))
    (SessionStats.waiting_count kv.2) (SessionStats.max_waiting_hours kv.2)
    (ClassSession.capacity (SessionStats.session kv.2))
    ["Consider opening an additional session";
     "Consider increasing capacity if possible"].

Definition detect_high_demand (clk : nat -> Z)
    (min_waiting min_waiting_hours : Z) (db : DB) : list HighDemand.t :=
  high_demand_row
    <$> filter (is_high_demand min_waiting min_waiting_hours)
               (session_stats clk (sessions_with_waiting db)).

(** The defaults of [min_waiting] and [min_waiting_hours]. *)
Definition default_min_waiting : Z := 5.
Definition default_min_waiting_hours : Z := 24.

(** ** The deadline a row holds *)

(** The [approval_deadline] of the row with this primary key, as
    [confirm_assignment] reads it back. *)
Definition deadline_of (waiting_list_id : string) (db : DB) : option Z :=
  entry_of waiting_list_id db ≫= WaitingList.approval_deadline.

(** ** A clock that jumps *)

(** A clock whose first reading is [t0] and whose later readings are
    [t0 + jump]: [datetime.now()] is the local wall clock, which a change
    to daylight saving time or an adjustment moves by an hour at once. *)
Definition jumping_clock (t0 jump : Z) (k : nat) : Z :=
  match k with
  | O => t0
  | S _ => t0 + jump
  end.

(** ** A second gym, with room for two *)

Module Studio.
(** Two sessions of capacity 2; Ann and Bob are enrolled in the first,
    Cy and Dee wait for it, Cy since time 1000 and Dee since 2000. *)
Definition db : DB :=
  mkDB [ClassSession.mk "S" "Yoga" 2 SessionStatus.OPEN;
        ClassSession.mk "T" "Spin" 2 SessionStatus.CLOSED]
       [Member.mk "M1" "Ann"; Member.mk "M2" "Bob"; Member.mk "M3" "Cy";
        Member.mk "M4" "Dee"]
       [] []
       [Enrollment.mk "e1" "S" "M1" EnrollmentStatus.REGISTERED 100 None None;
        Enrollment.mk "e2" "S" "M2" EnrollmentStatus.REGISTERED 200 None None]
       [WaitingList.mk "w3" "S" "M3" WaitingListStatus.WAITING 1 0 None 1000
          None None None;
        WaitingList.mk "w4" "S" "M4" WaitingListStatus.WAITING 2 0 None 2000
          None None None].
End Studio.

(** * Properties *)

(** ** Lists *)

Section list_facts.
Context {A B : Type}.
Implicit Types (l : list A) (f : A -> B).

Lemma filter_fmap (P : B -> Prop) (Q : A -> Prop)
      `{!forall y, Decision (P y)} `{!forall x, Decision (Q x)} f l :
    (forall x, x ∈ l -> P (f x) <-> Q x) ->
    filter P (f <$> l) = f <$> filter Q l.
  Proof.
    induction l as [|a l IH]; intros Hiff; [done|].
    assert (P (f a) <-> Q a) as Ha by (apply Hiff; left).
    assert (filter P (f <$> l) = f <$> filter Q l) as IHl
      by (apply IH; intros x Hx; apply Hiff; by right).
    rewrite fmap_cons. destruct (decide (Q a)) as [Hq|Hq].
    - rewrite !filter_cons_True by tauto. by rewrite fmap_cons, IHl.
    - rewrite !filter_cons_False by tauto. done.
  Qed.

Lemma fmap_ext_elem_of (f g : A -> B) l :
    (forall x, x ∈ l -> f x = g x) -> f <$> l = g <$> l.
  Proof.
    intros H. apply Forall_fmap_ext, Forall_forall. exact H.
  Qed.

Lemma NoDup_fmap_elem_inj f l x y :
    NoDup (f <$> l) -> x ∈ l -> y ∈ l -> f x = f y -> x = y.
  Proof.
    induction l as [|a l IH]; intros Hnd Hx Hy Hxy.
    - by apply elem_of_nil in Hx.
    - rewrite fmap_cons in Hnd. apply NoDup_cons in Hnd as [Ha Hnd].
      apply elem_of_cons in Hx as [->|Hx]; apply elem_of_cons in Hy as [->|Hy].
      + done.
      + exfalso. apply Ha. rewrite Hxy. by apply list_elem_of_fmap_2.
      + exfalso. apply Ha. rewrite <- Hxy. by apply list_elem_of_fmap_2.
      + by apply IH.
  Qed.

Lemma filter_all (P : A -> Prop) `{!forall x, Decision (P x)} l :
    (forall x, x ∈ l -> P x) -> filter P l = l.
  Proof.
    induction l as [|a l IH]; intros Hall; [done|].
    rewrite filter_cons_True by (apply Hall; left).
    f_equal. apply IH. intros x Hx. apply Hall. by right.
  Qed.

Lemma filter_none (P : A -> Prop) `{!forall x, Decision (P x)} l :
    (forall x, x ∈ l -> ¬ P x) -> filter P l = [].
  Proof.
    induction l as [|a l IH]; intros Hall; [done|].
    rewrite filter_cons_False by (apply Hall; left).
    apply IH. intros x Hx. apply Hall. by right.
  Qed.

  (** A filter that keeps what a row-wise change leaves alone. *)
Lemma filter_fmap_unchanged (P : A -> Prop) `{!forall x, Decision (P x)}
      (g : A -> A) l :
    (forall x, x ∈ l -> (P (g x) <-> P x) ∧ (P x -> g x = x)) ->
    filter P (g <$> l) = filter P l.
  Proof.
    induction l as [|a l IH]; intros Hall; [done|].
    destruct (Hall a ltac:(left)) as [Hiff Hsame].
    assert (filter P (g <$> l) = filter P l) as IHl
      by (apply IH; intros x Hx; apply Hall; by right).
    rewrite fmap_cons. destruct (decide (P a)) as [Hp|Hp].
    - rewrite !filter_cons_True by tauto. by rewrite Hsame, IHl.
    - rewrite !filter_cons_False by tauto. done.
  Qed.

Lemma NoDup_fmap_filter (P : A -> Prop) `{!forall x, Decision (P x)} f l :
    NoDup (f <$> l) -> NoDup (f <$> filter P l).
  Proof.
    intros Hnd. eapply sublist_NoDup; [exact Hnd|].
    apply fmap_sublist, sublist_filter.
  Qed.
End list_facts.

(** A list of integers is exactly [1..n], [n] its length, when it has no
    duplicate and stays within these bounds. *)
Lemma one_to_n_iff (l : list Z) :
  l ≡ₚ seqZ 1 (Z.of_nat (length l))
  <-> NoDup l ∧ forall p, p ∈ l -> 1 <= p <= Z.of_nat (length l).
Proof.
  split.
  - intros Hp. split.
    + rewrite Hp. apply NoDup_seqZ.
    + intros p Hin. rewrite Hp in Hin. apply elem_of_seqZ in Hin. lia.
  - intros [Hnd Hb]. apply submseteq_length_Permutation.
    + apply NoDup_submseteq; [done|]. intros p Hin.
      apply elem_of_seqZ. specialize (Hb p Hin). lia.
    + rewrite length_seqZ. lia.
Qed.

(** ** The unit of work *)

Section unit_of_work.
Implicit Types (tbl : list WaitingList.t) (dirty : list change).
Implicit Types (g : WaitingList.t -> WaitingList.t -> WaitingList.t).

Lemma pending_cons i (c : change) dirty :
    pending i (c :: dirty)
    = if decide (c.1 = i) then Some c.2 else pending i dirty.
  Proof.
    unfold pending. destruct (decide (c.1 = i)) as [H|H].
    - by rewrite filter_cons_True.
    - by rewrite filter_cons_False.
  Qed.

Lemma pending_absent i g tbl :
    (forall e, e ∈ tbl -> WaitingList.id e ≠ i) ->
    pending i ((fun e => (WaitingList.id e, g e)) <$> tbl) = None.
  Proof.
    induction tbl as [|a tbl IH]; intros Hne; [done|].
    rewrite fmap_cons, pending_cons. simpl.
    rewrite decide_False by (apply Hne; left).
    apply IH. intros e He. apply Hne. by right.
  Qed.

Lemma pending_present g tbl row :
    NoDup (WaitingList.id <$> tbl) -> row ∈ tbl ->
    pending (WaitingList.id row) ((fun e => (WaitingList.id e, g e)) <$> tbl)
    = Some (g row).
  Proof.
    induction tbl as [|a tbl IH]; intros Hnd Hin.
    - by apply elem_of_nil in Hin.
    - rewrite fmap_cons, pending_cons. simpl.
      rewrite fmap_cons in Hnd. apply NoDup_cons in Hnd as [Ha Hnd].
      apply elem_of_cons in Hin as [->|Hin].
      + by rewrite decide_True.
      + rewrite decide_False; [by apply IH|].
        intros Heq. apply Ha. rewrite Heq. by apply list_elem_of_fmap_2.
  Qed.

  (** The changes made on the objects a query selected reach exactly the
      selected rows. *)
Lemma pending_selected (P : WaitingList.t -> Prop)
      `{!forall e, Decision (P e)} g tbl row :
    NoDup (WaitingList.id <$> tbl) -> row ∈ tbl ->
    pending (WaitingList.id row)
      ((fun e => (WaitingList.id e, g e)) <$> filter P tbl)
    = if decide (P row) then Some (g row) else None.
  Proof.
    intros Hnd Hin. destruct (decide (P row)) as [Hp|Hp].
    - apply pending_present.
      + by apply NoDup_fmap_filter.
      + apply list_elem_of_filter. done.
    - apply pending_absent. intros e He Heq.
      apply list_elem_of_filter in He as [HPe He].
      apply Hp. by rewrite <- (NoDup_fmap_elem_inj _ _ _ _ Hnd He Hin Heq).
  Qed.

Lemma flush_selected (P : WaitingList.t -> Prop)
      `{!forall e, Decision (P e)} g tbl :
    NoDup (WaitingList.id <$> tbl) ->
    flush ((fun e => (WaitingList.id e, g e)) <$> filter P tbl) tbl
    = (fun row => if decide (P row) then g row row else row) <$> tbl.
  Proof.
    intros Hnd. unfold flush. apply fmap_ext_elem_of. intros row Hin.
    rewrite (pending_selected P g tbl row Hnd Hin).
    by destruct (decide (P row)).
  Qed.

Lemma flush_nil tbl : flush [] tbl = tbl.
  Proof.
    unfold flush. rewrite <- (list_fmap_id tbl) at 2.
    by apply fmap_ext_elem_of.
  Qed.
End unit_of_work.

Section flush_facts.
Implicit Types (tbl : list WaitingList.t) (dirty : list change).

Lemma pending_elem_of i dirty f :
    pending i dirty = Some f -> (i, f) ∈ dirty.
  Proof.
    induction dirty as [|c dirty IH]; [done|].
    rewrite pending_cons. destruct (decide (c.1 = i)) as [<-|Hne].
    - intros [= <-]. destruct c; left.
    - intros H. right. by apply IH.
  Qed.

  (** Assignments that keep a column keep it in the whole table. *)
Lemma flush_keeps {K} (key : WaitingList.t -> K) dirty tbl :
    (forall i f, (i, f) ∈ dirty -> forall x, key (f x) = key x) ->
    key <$> flush dirty tbl = key <$> tbl.
  Proof.
    intros Hk. unfold flush. rewrite <- list_fmap_compose.
    apply fmap_ext_elem_of. intros row _. simpl.
    destruct (pending (WaitingList.id row) dirty) as [f|] eqn:Hp; [|done].
    apply pending_elem_of in Hp. by eapply Hk.
  Qed.

  (** A flush that only touches rows outside the queue, and leaves them
      outside, does not change the queue of any session. *)
Lemma flush_outside_queue dirty tbl s :
    (forall row f, row ∈ tbl -> pending (WaitingList.id row) dirty = Some f ->
       WaitingList.status row ≠ WaitingListStatus.WAITING
       ∧ WaitingList.status (f row) ≠ WaitingListStatus.WAITING) ->
    filter (is_waiting s) (flush dirty tbl) = filter (is_waiting s) tbl.
  Proof.
    intros H. unfold flush.
    induction tbl as [|a tbl IH]; [done|].
    rewrite fmap_cons.
    assert (filter (is_waiting s)
              ((fun row => match pending (WaitingList.id row) dirty with
                           | Some f => f row | None => row end) <$> tbl)
            = filter (is_waiting s) tbl) as IHl.
    { apply IH. intros row f Hin. apply H. by right. }
    destruct (pending (WaitingList.id a) dirty) as [f|] eqn:Hp.
    - destruct (H a f ltac:(left) Hp) as [H1 H2].
      rewrite !filter_cons_False; [done| |]; unfold is_waiting; tauto.
    - rewrite !filter_cons. by rewrite IHl.
  Qed.
End flush_facts.

(** ** The insertion rank *)

Section insertion_rank_facts.
Variables (p now : Z).
Implicit Types (w : list WaitingList.t) (e : WaitingList.t).

Lemma insertion_step_outranks fp e :
    insertion_step p now fp e
    = if decide (outranks p now e) then Z.min fp (WaitingList.position e)
      else fp.
  Proof.
    unfold insertion_step, outranks.
    repeat case_decide; try reflexivity; exfalso; lia.
  Qed.

Lemma insertion_rank_le_start w pos : insertion_rank p now w pos <= pos.
  Proof.
    unfold insertion_rank. revert pos.
    induction w as [|a w IH]; intros pos; simpl; [lia|].
    etransitivity; [apply IH|].
    rewrite insertion_step_outranks. case_decide; lia.
  Qed.

Lemma insertion_rank_le_outranked w pos e :
    e ∈ w -> outranks p now e ->
    insertion_rank p now w pos <= WaitingList.position e.
  Proof.
    unfold insertion_rank. revert pos.
    induction w as [|a w IH]; intros pos Hin Ho.
    - by apply elem_of_nil in Hin.
    - simpl. apply elem_of_cons in Hin as [->|Hin].
      + etransitivity; [apply insertion_rank_le_start|].
        rewrite insertion_step_outranks, decide_True by done. lia.
      + by apply IH.
  Qed.

Lemma insertion_rank_attained w pos :
    insertion_rank p now w pos = pos
    ∨ exists e, e ∈ w ∧ outranks p now e
                ∧ insertion_rank p now w pos = WaitingList.position e.
  Proof.
    unfold insertion_rank. revert pos.
    induction w as [|a w IH]; intros pos; simpl; [by left|].
    destruct (IH (insertion_step p now pos a)) as [Heq|(e & He & Ho & Heq)].
    - rewrite Heq, insertion_step_outranks.
      destruct (decide (outranks p now a)) as [Ha|Ha]; [|by left].
      destruct (Z.min_spec pos (WaitingList.position a)) as [[_ ->]|[_ ->]].
      + by left.
      + right. exists a. split; [left|done].
    - right. exists e. split; [by right|done].
  Qed.

End insertion_rank_facts.

(** ** What a successful [add_to_waiting_list] has done *)

Lemma shifted_down_flush fp s tbl :
  NoDup (WaitingList.id <$> tbl) ->
  flush (shifted_down fp (filter (is_waiting s) tbl)) tbl
  = shift_row s fp <$> tbl.
Proof.
  intros Hnd. unfold shifted_down. rewrite list_filter_filter.
  rewrite (flush_selected _
             (fun e => WaitingList.set_position (WaitingList.position e + 1)))
    by done.
  done.
Qed.

Lemma add_to_waiting_list_inv clk new_id s m db db' e :
  add_to_waiting_list clk new_id s m db = (db', inr e) ->
  let score := calculate_priority_score (fun k => clk (S k)) m (clk 0%nat) db in
  let fp := insertion_rank score (clk 0%nat) (waiting_entries s db)
              (Z.of_nat (length (waiting_entries s db)) + 1) in
  e = WaitingList.mk new_id s m WaitingListStatus.WAITING fp score
        None (clk 0%nat) None None None
  ∧ (new_id ∉ ids db)
  ∧ db' = with_waiting_list
            (flush (shifted_down fp (waiting_entries s db)) (waiting_list db)
             ++ [e]) db.
Proof.
  unfold add_to_waiting_list, insert_waiting_list, first_or_raise.
  unfold transaction, bind, raise, ret.
  intros H. repeat (case_match; simplify_eq/=; try done).
  split_and!; try done.
  unfold ids. intros Hin.
  match goal with Hn : _ ∉ _ |- _ => apply Hn end.
  rewrite flush_keeps; [done|].
  intros i f Hc x. unfold shifted_down in Hc.
  apply list_elem_of_fmap in Hc as (y & [= -> ->] & _). done.
Qed.

(** ** [order_by] *)

Section order_by_facts.
Context {A : Type} (key : A -> Z).

#[local] Instance key_le_trans : Transitive (key_le key).
  Proof. unfold key_le. intros x y z. lia. Qed.

#[local] Instance key_le_total : Total (key_le key).
  Proof. unfold key_le. intros x y. lia. Qed.

Lemma order_by_Permutation l : order_by key l ≡ₚ l.
  Proof. apply merge_sort_Permutation. Qed.

Lemma order_by_sorted l : StronglySorted (key_le key) (order_by key l).
  Proof. apply StronglySorted_merge_sort; apply _. Qed.

Lemma head_order_by_None l : head (order_by key l) = None <-> l = [].
  Proof.
    rewrite head_None. split.
    - intros H. apply Permutation_nil_r. rewrite <- H.
      symmetry. apply order_by_Permutation.
    - intros ->. done.
  Qed.

  (** The first row by ascending key is a row of least key. *)
Lemma head_order_by_Some l h :
    head (order_by key l) = Some h ->
    h ∈ l ∧ forall x, x ∈ l -> key h <= key x.
  Proof.
    intros Hh. apply head_Some in Hh as [l' Hl'].
    pose proof (order_by_Permutation l) as Hp.
    pose proof (order_by_sorted l) as Hs.
    rewrite Hl' in Hp, Hs. split.
    - rewrite <- Hp. left.
    - intros x Hx. rewrite <- Hp in Hx.
      apply elem_of_cons in Hx as [->|Hx]; [lia|].
      apply StronglySorted_inv in Hs as [_ Hall].
      rewrite Forall_forall in Hall. by apply Hall.
  Qed.
End order_by_facts.

(** ** Lists of positions *)

Section position_lists.
Implicit Types (l : list Z).

  (** Making room at rank [fp] and putting the new entry there keeps the
      positions [1..N]. *)
Lemma one_to_n_insert l fp :
    l ≡ₚ seqZ 1 (Z.of_nat (length l)) ->
    1 <= fp <= Z.of_nat (length l) + 1 ->
    let l' := ((fun p => if decide (p >= fp) then p + 1 else p) <$> l) ++ [fp] in
    l' ≡ₚ seqZ 1 (Z.of_nat (length l')).
  Proof.
    intros Hd Hfp l'. apply one_to_n_iff in Hd as [Hnd Hb].
    apply one_to_n_iff. unfold l'. split.
    - apply NoDup_app. split_and!.
      + apply NoDup_fmap_2_strong; [|done].
        intros x y _ _. repeat case_decide; lia.
      + intros x Hx Hx'. apply list_elem_of_singleton in Hx'.
        apply list_elem_of_fmap in Hx as (y & Hy & _).
        case_decide; lia.
      + apply NoDup_singleton.
    - intros p Hp. rewrite length_app, length_fmap. simpl.
      apply elem_of_app in Hp as [Hp|Hp].
      + apply list_elem_of_fmap in Hp as (y & -> & Hy).
        specialize (Hb y Hy). case_decide; lia.
      + apply list_elem_of_singleton in Hp. lia.
  Qed.

  (** Taking the head out and moving the others up keeps the positions
      [1..N]. *)
Lemma one_to_n_remove l rest :
    l ≡ₚ seqZ 1 (Z.of_nat (length l)) ->
    l ≡ₚ 1 :: rest ->
    let l' := (fun p => Z.max 1 (p - 1)) <$> rest in
    l' ≡ₚ seqZ 1 (Z.of_nat (length l')).
  Proof.
    intros Hd Hp l'. apply one_to_n_iff in Hd as [Hnd Hb].
    assert (length l = S (length rest)) as Hlen by (by rewrite Hp).
    rewrite Hp in Hnd. apply NoDup_cons in Hnd as [H1 Hnd].
    assert (forall p, p ∈ rest -> 2 <= p <= Z.of_nat (length rest) + 1) as Hb'.
    { intros p Hin. assert (p ≠ 1) by (by intros ->).
      assert (p ∈ l) as Hl by (rewrite Hp; by right).
      specialize (Hb p Hl). lia. }
    apply one_to_n_iff. unfold l'. split.
    - apply NoDup_fmap_2_strong; [|done].
      intros x y Hx Hy. pose proof (Hb' x Hx). pose proof (Hb' y Hy). lia.
    - intros p Hin. rewrite length_fmap.
      apply list_elem_of_fmap in Hin as (y & -> & Hy).
      specialize (Hb' y Hy). lia.
  Qed.

  (** In a list that is [1..N], the least element is 1. *)
Lemma one_to_n_least l p :
    l ≡ₚ seqZ 1 (Z.of_nat (length l)) ->
    p ∈ l -> (forall q, q ∈ l -> p <= q) -> p = 1.
  Proof.
    intros Hd Hin Hmin.
    assert (1 ∈ l) as H1.
    { rewrite Hd. apply elem_of_seqZ.
      destruct l; [by apply elem_of_nil in Hin|]. simpl length. lia. }
    apply one_to_n_iff in Hd as [_ Hb].
    specialize (Hb p Hin). specialize (Hmin 1 H1). lia.
  Qed.
End position_lists.

(** ** The dense-position invariant, unfolded *)

Lemma positions_length s db :
  length (positions s db) = length (waiting_entries s db).
Proof. unfold positions. apply length_fmap. Qed.

Lemma dense_alt s db :
  dense s db
  <-> positions s db ≡ₚ seqZ 1 (Z.of_nat (length (positions s db))).
Proof. unfold dense. by rewrite positions_length. Qed.

Lemma dense_iff s db :
  dense s db
  <-> NoDup (positions s db)
      ∧ forall p, p ∈ positions s db ->
                  1 <= p <= Z.of_nat (length (waiting_entries s db)).
Proof. rewrite dense_alt, one_to_n_iff. by rewrite positions_length. Qed.

Lemma dense_position_bounds s db x :
  dense s db -> x ∈ waiting_entries s db ->
  1 <= WaitingList.position x <= Z.of_nat (length (waiting_entries s db)).
Proof.
  intros Hd Hx. apply dense_iff in Hd as [_ Hb]. apply Hb.
  unfold positions. by apply list_elem_of_fmap_2.
Qed.

(** ** [add_to_waiting_list] keeps the invariants *)

Section add_facts.
Variables (clk : nat -> Z) (new_id s m : string) (db db' : DB)
            (e : WaitingList.t).
Hypothesis Hids : unique_ids db.
Hypothesis Hadd : add_to_waiting_list clk new_id s m db = (db', inr e).

Let fp := WaitingList.position e.

Lemma add_entry :
    e = WaitingList.mk new_id s m WaitingListStatus.WAITING fp
          (calculate_priority_score (fun k => clk (S k)) m (clk 0%nat) db)
          None (clk 0%nat) None None None.
  Proof.
    destruct (add_to_waiting_list_inv _ _ _ _ _ _ _ Hadd) as (He & _ & _).
    unfold fp. rewrite He at 1. by rewrite He.
  Qed.

Lemma add_rank :
    fp = insertion_rank (WaitingList.priority_score e) (clk 0%nat)
           (waiting_entries s db)
           (Z.of_nat (length (waiting_entries s db)) + 1).
  Proof.
    destruct (add_to_waiting_list_inv _ _ _ _ _ _ _ Hadd) as (He & _ & _).
    unfold fp. by rewrite He.
  Qed.

Lemma add_id : WaitingList.id e = new_id.
  Proof. by rewrite add_entry. Qed.

Lemma add_fresh : new_id ∉ ids db.
  Proof. by destruct (add_to_waiting_list_inv _ _ _ _ _ _ _ Hadd) as (_ & ? & _). Qed.

Lemma add_table :
    db' = with_waiting_list ((shift_row s fp <$> waiting_list db) ++ [e]) db.
  Proof.
    destruct (add_to_waiting_list_inv _ _ _ _ _ _ _ Hadd) as (He & _ & ->).
    unfold waiting_entries. rewrite shifted_down_flush by exact Hids.
    unfold fp. rewrite He at 2 3. simpl. by rewrite <- He.
  Qed.

Lemma add_waiting_list :
    waiting_list db' = (shift_row s fp <$> waiting_list db) ++ [e].
  Proof. by rewrite add_table. Qed.

Lemma shift_row_identity x : identity (shift_row s fp x) = identity x.
  Proof. unfold shift_row. by case_decide. Qed.

Lemma shift_row_status x :
    WaitingList.status (shift_row s fp x) = WaitingList.status x.
  Proof. unfold shift_row. by case_decide. Qed.

Lemma shift_row_is_waiting s' x :
    is_waiting s' (shift_row s fp x) <-> is_waiting s' x.
  Proof. unfold shift_row. by case_decide. Qed.

Lemma add_unique_ids : unique_ids db'.
  Proof.
    unfold unique_ids, ids. rewrite add_waiting_list, fmap_app.
    rewrite <- list_fmap_compose.
    rewrite (fmap_ext_elem_of (WaitingList.id ∘ shift_row s fp) WaitingList.id).
    2:{ intros x _. simpl. unfold shift_row. by case_decide. }
    apply NoDup_app. split_and!.
    - exact Hids.
    - intros i Hi Hi'. apply list_elem_of_singleton in Hi'. subst i.
      apply add_fresh. rewrite <- add_id. exact Hi.
    - apply NoDup_singleton.
  Qed.

  (** The queue of the session after the insertion: the old entries, those
      at or after the rank one place down, and the new entry. *)
Lemma add_waiting_entries :
    waiting_entries s db'
    = (shift_row s fp <$> waiting_entries s db) ++ [e].
  Proof.
    unfold waiting_entries. rewrite add_waiting_list, filter_app.
    rewrite (filter_fmap (is_waiting s) (is_waiting s))
      by (intros; apply shift_row_is_waiting).
    f_equal. rewrite filter_cons_True; [done|].
    rewrite add_entry. done.
  Qed.

  (** The queue of another session is left as it is. *)
Lemma add_waiting_entries_other s' :
    s' ≠ s -> waiting_entries s' db' = waiting_entries s' db.
  Proof.
    intros Hne. unfold waiting_entries. rewrite add_waiting_list, filter_app.
    rewrite (filter_fmap (is_waiting s') (is_waiting s'))
      by (intros; apply shift_row_is_waiting).
    rewrite filter_cons_False.
    2:{ rewrite add_entry. unfold is_waiting. simpl. intros [? _]. congruence. }
    rewrite filter_nil, app_nil_r.
    rewrite <- (list_fmap_id (filter (is_waiting s') (waiting_list db))) at 2.
    apply fmap_ext_elem_of. intros x Hx.
    apply list_elem_of_filter in Hx as [[Hs _] _].
    unfold shift_row, is_waiting. rewrite decide_False; [done|].
    intros (_ & ? & _). congruence.
  Qed.

Lemma add_positions :
    positions s db'
    = ((fun p => if decide (p >= fp) then p + 1 else p) <$> positions s db)
      ++ [fp].
  Proof.
    unfold positions. rewrite add_waiting_entries, fmap_app.
    rewrite <- !list_fmap_compose. f_equal.
    apply fmap_ext_elem_of. intros x Hx. simpl.
    apply list_elem_of_filter in Hx as [Hw _].
    unfold shift_row. destruct (decide (WaitingList.position x >= fp)).
    - by rewrite decide_True.
    - rewrite decide_False by tauto. done.
  Qed.

Lemma add_rank_bounds :
    dense s db -> 1 <= fp <= Z.of_nat (length (waiting_entries s db)) + 1.
  Proof.
    intros Hd. rewrite add_rank. split.
    - destruct (insertion_rank_attained (WaitingList.priority_score e)
                  (clk 0%nat) (waiting_entries s db)
                  (Z.of_nat (length (waiting_entries s db)) + 1))
        as [->|(x & Hx & _ & ->)]; [lia|].
      by apply (dense_position_bounds s db).
    - apply insertion_rank_le_start.
  Qed.

Lemma add_dense s' : dense s' db -> dense s' db'.
  Proof.
    intros Hd. destruct (decide (s' = s)) as [->|Hne].
    - pose proof (add_rank_bounds Hd) as Hfp.
      rewrite <- positions_length in Hfp.
      apply dense_alt in Hd. apply dense_alt. rewrite add_positions.
      exact (one_to_n_insert _ fp Hd Hfp).
    - unfold dense, positions in *.
      by rewrite add_waiting_entries_other.
  Qed.
End add_facts.

(** ** [promote_from_queue] *)

Lemma Permutation_split_by_id (l : list WaitingList.t) h :
  NoDup (WaitingList.id <$> l) -> h ∈ l ->
  l ≡ₚ h :: filter (fun x => WaitingList.id x ≠ WaitingList.id h) l.
Proof.
  induction l as [|a l IH]; intros Hnd Hin.
  - by apply elem_of_nil in Hin.
  - rewrite fmap_cons in Hnd. apply NoDup_cons in Hnd as [Ha Hnd].
    apply elem_of_cons in Hin as [->|Hin].
    + rewrite filter_cons_False by (intros H; by apply H).
      rewrite filter_all; [done|].
      intros x Hx Heq. apply Ha. rewrite <- Heq.
      by apply list_elem_of_fmap_2.
    + rewrite filter_cons_True.
      * rewrite (IH Hnd Hin) at 1. apply Permutation_swap.
      * intros Heq. apply Ha. rewrite Heq. by apply list_elem_of_fmap_2.
Qed.

Section promote_facts.
Variables (clk : nat -> Z) (s : string) (hours : Z) (db : DB).
Hypothesis Hids : unique_ids db.

Let now := clk 0%nat.
Let deadline := now + timedelta_hours hours.

Lemma promote_empty :
    waiting_entries s db = [] ->
    promote_from_queue clk s hours db = (db, None).
  Proof.
    intros He. unfold promote_from_queue, order_by_position.
    by rewrite (proj2 (head_order_by_None _ _) He).
  Qed.

  (** The entry the query finds first is a [WAITING] entry of the session
      with the lowest position. *)
Lemma first_entry_least h :
    head (order_by_position (waiting_entries s db)) = Some h ->
    h ∈ waiting_list db ∧ is_waiting s h
    ∧ forall x, x ∈ waiting_entries s db ->
                WaitingList.position h <= WaitingList.position x.
  Proof.
    intros Hh. apply head_order_by_Some in Hh as [Hin Hmin].
    apply list_elem_of_filter in Hin as [Hw Hin]. done.
  Qed.

Lemma first_entry_exists :
    waiting_entries s db ≠ [] ->
    exists h, head (order_by_position (waiting_entries s db)) = Some h.
  Proof.
    intros Hne.
    destruct (head (order_by_position (waiting_entries s db))) as [h|] eqn:Hh;
      [by exists h|].
    by apply head_order_by_None in Hh.
  Qed.

Section promoted.
Variable (h : WaitingList.t).
Hypothesis Hhead : head (order_by_position (waiting_entries s db)) = Some h.

Lemma promote_result :
      promote_from_queue clk s hours db
      = (with_waiting_list (promote_row s h now deadline <$> waiting_list db) db,
         Some (assigned now deadline h)).
    Proof.
      unfold promote_from_queue. rewrite Hhead. f_equal. f_equal.
      unfold flush. apply fmap_ext_elem_of. intros row Hrow.
      rewrite pending_cons. simpl. unfold promote_row.
      destruct (decide (WaitingList.id h = WaitingList.id row)) as [Heq|Hne].
      - by rewrite decide_True.
      - rewrite decide_False by done. unfold moved_up.
        rewrite (pending_selected _
                   (fun e => WaitingList.set_position
                               (Z.max 1 (WaitingList.position e - 1))))
          by done.
        destruct (decide (is_waiting s row)) as [Hw|Hw].
        + rewrite decide_True; [done|]. split; [done|]. by intros ?.
        + rewrite decide_False; [done|]. tauto.
    Qed.

Lemma promote_row_identity x :
      identity (promote_row s h now deadline x) = identity x.
    Proof. unfold promote_row. by repeat case_decide. Qed.

Lemma promote_row_id x :
      WaitingList.id (promote_row s h now deadline x) = WaitingList.id x.
    Proof. unfold promote_row. by repeat case_decide. Qed.

    (** Rows outside the queues are left as they are. *)
Lemma promote_row_not_waiting x :
      x ∈ waiting_list db ->
      WaitingList.status x ≠ WaitingListStatus.WAITING ->
      promote_row s h now deadline x = x.
    Proof.
      intros Hx Hst. destruct (first_entry_least h Hhead) as (Hh & [_ Hhw] & _).
      unfold promote_row. rewrite decide_False.
      - rewrite decide_False; [done|]. by intros [_ ?].
      - intros Heq.
        pose proof (NoDup_fmap_elem_inj _ _ _ _ Hids Hx Hh Heq). congruence.
    Qed.

Lemma promote_row_is_waiting x :
      is_waiting s (promote_row s h now deadline x)
      <-> is_waiting s x ∧ WaitingList.id x ≠ WaitingList.id h.
    Proof.
      unfold promote_row, is_waiting.
      destruct (decide (WaitingList.id x = WaitingList.id h)) as [Heq|Hne].
      - simpl. split; [intros [_ ?]; done|tauto].
      - destruct (decide (WaitingList.class_session_id x = s
                          ∧ WaitingList.status x = WaitingListStatus.WAITING));
          simpl; tauto.
    Qed.

Lemma promote_waiting_entries :
      waiting_entries s (promote_from_queue clk s hours db).1
      = promote_row s h now deadline
          <$> filter (fun x => WaitingList.id x ≠ WaitingList.id h)
                     (waiting_entries s db).
    Proof.
      rewrite promote_result. unfold waiting_entries. simpl.
      rewrite list_filter_filter.
      apply filter_fmap. intros x _. rewrite promote_row_is_waiting. tauto.
    Qed.

Lemma promote_waiting_entries_other s' :
      s' ≠ s ->
      waiting_entries s' (promote_from_queue clk s hours db).1
      = waiting_entries s' db.
    Proof.
      intros Hne. rewrite promote_result. unfold waiting_entries. simpl.
      destruct (first_entry_least h Hhead) as (Hh & [Hhs Hhw] & _).
      apply filter_fmap_unchanged. intros x Hx.
      assert (is_waiting s' x -> promote_row s h now deadline x = x) as Hsame.
      { intros [Hs' Hw]. unfold promote_row. rewrite decide_False.
        - rewrite decide_False; [done|]. intros [? _]. congruence.
        - intros Heq.
          pose proof (NoDup_fmap_elem_inj _ _ _ _ Hids Hx Hh Heq). congruence. }
      split; [|done]. split; [|by intros Hw; rewrite Hsame].
      unfold promote_row.
      destruct (decide (WaitingList.id x = WaitingList.id h)) as [Heq|Hneq].
      - unfold is_waiting. simpl. intros [_ ?]. done.
      - case_decide; [|done]. unfold is_waiting. simpl. tauto.
    Qed.

Lemma promote_unique_ids :
      unique_ids (promote_from_queue clk s hours db).1.
    Proof.
      rewrite promote_result. unfold unique_ids, ids. simpl.
      rewrite <- list_fmap_compose.
      rewrite (fmap_ext_elem_of _ WaitingList.id); [exact Hids|].
      intros x _. apply promote_row_id.
    Qed.

Lemma promote_first_position :
      dense s db -> WaitingList.position h = 1.
    Proof.
      intros Hd. destruct (first_entry_least h Hhead) as (Hh & Hw & Hmin).
      apply dense_alt in Hd.
      apply (one_to_n_least (positions s db)); [done| |].
      - unfold positions. apply list_elem_of_fmap_2.
        apply list_elem_of_filter. done.
      - intros q Hq. apply list_elem_of_fmap in Hq as (x & -> & Hx).
        by apply Hmin.
    Qed.

Lemma promote_positions :
      positions s (promote_from_queue clk s hours db).1
      = (fun p => Z.max 1 (p - 1))
          <$> (WaitingList.position
                 <$> filter (fun x => WaitingList.id x ≠ WaitingList.id h)
                            (waiting_entries s db)).
    Proof.
      unfold positions. rewrite promote_waiting_entries.
      rewrite <- !list_fmap_compose. apply fmap_ext_elem_of. intros x Hx.
      apply list_elem_of_filter in Hx as [Hne Hx].
      apply list_elem_of_filter in Hx as [Hw _]. simpl.
      unfold promote_row. rewrite decide_False by done.
      by rewrite decide_True.
    Qed.

Lemma promote_dense s' :
      dense s' db -> dense s' (promote_from_queue clk s hours db).1.
    Proof.
      intros Hd. destruct (decide (s' = s)) as [->|Hne].
      - destruct (first_entry_least h Hhead) as (Hh & Hw & Hmin).
        apply dense_alt. rewrite promote_positions.
        apply (one_to_n_remove (positions s db)); [by apply dense_alt|].
        rewrite <- (promote_first_position Hd). unfold positions.
        rewrite <- fmap_cons. apply fmap_Permutation.
        apply Permutation_split_by_id.
        + by apply NoDup_fmap_filter.
        + apply list_elem_of_filter. done.
      - unfold dense, positions in *.
        by rewrite promote_waiting_entries_other.
    Qed.
End promoted.

  (** Whatever it finds, [promote_from_queue] keeps the invariants. *)
Lemma promote_keeps_unique_ids :
    unique_ids (promote_from_queue clk s hours db).1.
  Proof.
    destruct (head (order_by_position (waiting_entries s db))) as [h|] eqn:Hh.
    - by apply (promote_unique_ids h).
    - unfold promote_from_queue. by rewrite Hh.
  Qed.

Lemma promote_keeps_dense s' :
    dense s' db -> dense s' (promote_from_queue clk s hours db).1.
  Proof.
    destruct (head (order_by_position (waiting_entries s db))) as [h|] eqn:Hh.
    - by apply (promote_dense h).
    - unfold promote_from_queue. by rewrite Hh.
  Qed.
End promote_facts.

(** ** Changes outside the queues *)

Lemma dense_same_queue s db db' :
  waiting_entries s db' = waiting_entries s db -> dense s db -> dense s db'.
Proof. unfold dense, positions. by intros ->. Qed.

Section outside_queue.
Variables (db : DB) (e : WaitingList.t)
            (f : WaitingList.t -> WaitingList.t).
Hypothesis Hids : unique_ids db.
Hypothesis He : e ∈ waiting_list db.
Hypothesis Hst : WaitingList.status e ≠ WaitingListStatus.WAITING.
Hypothesis Hf : forall x, WaitingList.status (f x) ≠ WaitingListStatus.WAITING.
Hypothesis Hid : forall x, WaitingList.id (f x) = WaitingList.id x.

Let db1 := with_waiting_list (flush [(WaitingList.id e, f)] (waiting_list db)) db.

Lemma flush_one :
    waiting_list db1
    = (fun x => if decide (WaitingList.id x = WaitingList.id e) then f x else x)
        <$> waiting_list db.
  Proof.
    unfold db1, flush. simpl. apply fmap_ext_elem_of. intros x _.
    rewrite pending_cons. simpl. unfold pending. simpl.
    destruct (decide (WaitingList.id e = WaitingList.id x));
      destruct (decide (WaitingList.id x = WaitingList.id e)); congruence.
  Qed.

Lemma flush_one_unique_ids : unique_ids db1.
  Proof.
    unfold unique_ids, ids, db1. simpl. rewrite flush_keeps; [exact Hids|].
    intros i g Hin x. apply list_elem_of_singleton in Hin as [= _ ->]. apply Hid.
  Qed.

Lemma flush_one_waiting_entries s :
    waiting_entries s db1 = waiting_entries s db.
  Proof.
    unfold waiting_entries, db1. simpl. apply flush_outside_queue.
    intros row g Hrow Hp. apply pending_elem_of in Hp.
    apply list_elem_of_singleton in Hp as [= Heq ->].
    pose proof (NoDup_fmap_elem_inj _ _ _ _ Hids Hrow He Heq) as ->.
    split; [done|apply Hf].
  Qed.

Lemma flush_one_well_formed : well_formed db -> well_formed db1.
  Proof.
    intros [_ Hd]. split; [apply flush_one_unique_ids|].
    intros s. apply (dense_same_queue s db); [apply flush_one_waiting_entries|done].
  Qed.
End outside_queue.

(** ** Each operation keeps the state invariant *)

Lemma add_well_formed clk new_id s m db :
  well_formed db -> well_formed (add_to_waiting_list clk new_id s m db).1.
Proof.
  intros [Hids Hd].
  destruct (add_to_waiting_list clk new_id s m db) as [db' [err|e]] eqn:Hadd.
  - assert (db' = db) as ->; [|done].
    unfold add_to_waiting_list, transaction in Hadd.
    by repeat (case_match; simplify_eq/=).
  - split.
    + by eapply add_unique_ids.
    + intros s'. by eapply add_dense.
Qed.

Lemma promote_well_formed clk s hours db :
  well_formed db -> well_formed (promote_from_queue clk s hours db).1.
Proof.
  intros [Hids Hd]. split.
  - by apply promote_keeps_unique_ids.
  - intros s'. by apply promote_keeps_dense.
Qed.

Lemma entry_of_Some w db e :
  entry_of w db = Some e -> e ∈ waiting_list db ∧ WaitingList.id e = w.
Proof.
  unfold entry_of. intros H. apply head_Some_elem_of in H.
  apply list_elem_of_filter in H. tauto.
Qed.

Lemma well_formed_same_table db db' :
  waiting_list db' = waiting_list db -> well_formed db -> well_formed db'.
Proof.
  unfold well_formed, unique_ids, ids, dense, positions, waiting_entries.
  by intros ->.
Qed.

Lemma confirm_in_time_well_formed clk new_id e db :
  e ∈ waiting_list db ->
  WaitingList.status e = WaitingListStatus.ASSIGNED ->
  well_formed db -> well_formed (confirm_in_time clk new_id e db).1.
Proof.
  intros He Hst Hwf. unfold confirm_in_time, transaction, bind, insert_enrollment.
  case_decide; simpl; [done|].
  pose proof Hwf as [Hids Hd].
  eapply well_formed_same_table;
    [|apply (flush_one_well_formed db e
               (fun row => WaitingList.set_confirmed_at (Some (clk 1%nat))
                  (WaitingList.set_status WaitingListStatus.CONFIRMED row))
               Hids He); try done; by rewrite Hst].
  done.
Qed.

Lemma confirm_well_formed clk new_id w db :
  well_formed db -> well_formed (confirm_assignment clk new_id w db).1.
Proof.
  intros Hwf. unfold confirm_assignment. fold (entry_of w db).
  destruct (entry_of w db) as [e|] eqn:He; [|done].
  apply entry_of_Some in He as [He _].
  case_decide as Hst; [done|].
  assert (WaitingList.status e = WaitingListStatus.ASSIGNED) as Hst'
    by (destruct (decide (WaitingList.status e = WaitingListStatus.ASSIGNED));
        tauto).
  destruct (WaitingList.approval_deadline e) as [d|].
  - case_decide.
    + simpl. apply promote_well_formed.
      pose proof Hwf as [Hids Hd].
      apply (flush_one_well_formed db e); try done. by rewrite Hst'.
    + by apply confirm_in_time_well_formed.
  - by apply confirm_in_time_well_formed.
Qed.

Lemma promote_each_well_formed clk expired db :
  well_formed db -> well_formed (promote_each clk expired db).
Proof.
  revert clk db. induction expired as [|x l IH]; intros clk db Hwf; [done|].
  simpl. apply IH. by apply promote_well_formed.
Qed.

(** The promotions of a sweep leave the rows outside the queues alone. *)
Lemma promote_each_outside clk expired db :
  unique_ids db ->
  exists G,
    waiting_list (promote_each clk expired db) = G <$> waiting_list db
    ∧ forall x, x ∈ waiting_list db ->
        WaitingList.id (G x) = WaitingList.id x
        ∧ (WaitingList.status x ≠ WaitingListStatus.WAITING -> G x = x).
Proof.
  revert clk db. induction expired as [|y l IH]; intros clk db Hids.
  - exists (fun x => x). split; [by rewrite list_fmap_id|done].
  - simpl.
    set (s := WaitingList.class_session_id y).
    set (db1 := (promote_from_queue clk s default_approval_deadline_hours db).1).
    assert (unique_ids db1) as Hids1 by (by apply promote_keeps_unique_ids).
    destruct (IH (fun k => clk (S k)) db1 Hids1) as (G2 & HG2 & HG2').
    assert (exists G1, waiting_list db1 = G1 <$> waiting_list db
              ∧ forall x, x ∈ waiting_list db ->
                  WaitingList.id (G1 x) = WaitingList.id x
                  ∧ (WaitingList.status x ≠ WaitingListStatus.WAITING
                     -> G1 x = x)) as (G1 & HG1 & HG1').
    { unfold db1.
      destruct (head (order_by_position (waiting_entries s db))) as [h|] eqn:Hh.
      - rewrite (promote_result clk s _ db Hids h Hh). simpl.
        eexists. split; [reflexivity|]. intros x Hx. split.
        + apply promote_row_id.
        + by apply (promote_row_not_waiting clk s _ db Hids h Hh).
      - unfold promote_from_queue. rewrite Hh. simpl.
        exists (fun x => x). split; [by rewrite list_fmap_id|done]. }
    exists (G2 ∘ G1). split.
    + rewrite HG2, HG1. by rewrite <- list_fmap_compose.
    + intros x Hx. destruct (HG1' x Hx) as [Hi1 Hs1].
      assert (G1 x ∈ waiting_list db1) as Hx1
        by (rewrite HG1; by apply list_elem_of_fmap_2).
      destruct (HG2' _ Hx1) as [Hi2 Hs2]. simpl. split; [congruence|].
      intros Hst. rewrite (Hs1 Hst) in *. by apply Hs2.
Qed.

Lemma sweep_well_formed clk scope db :
  well_formed db -> well_formed (check_expired_assignments clk scope db).1.
Proof.
  intros Hwf. unfold check_expired_assignments. simpl.
  set (expired := filter (overdue (clk 0%nat) scope) (waiting_list db)).
  set (promoted := promote_each (fun k => clk (S k)) expired db).
  pose proof (promote_each_well_formed (fun k => clk (S k)) expired db Hwf)
    as [Hidsp Hdp].
  fold promoted in Hidsp, Hdp.
  destruct Hwf as [Hids Hd].
  destruct (promote_each_outside (fun k => clk (S k)) expired db Hids)
    as (G & HG & HG'). fold promoted in HG.
  split.
  - unfold unique_ids, ids. simpl. rewrite flush_keeps; [exact Hidsp|].
    intros i g Hin x. apply list_elem_of_fmap in Hin as (y & [= _ ->] & _). done.
  - intros s. apply (dense_same_queue s promoted); [|apply Hdp].
    unfold waiting_entries. simpl. apply flush_outside_queue.
    intros row g Hrow Hp. rewrite HG in Hrow.
    apply list_elem_of_fmap in Hrow as (x & -> & Hx).
    destruct (HG' x Hx) as [Hi Hs]. rewrite Hi in Hp. unfold expired in Hp.
    rewrite (pending_selected _
               (fun _ => WaitingList.set_status WaitingListStatus.EXPIRED))
      in Hp by done.
    case_decide as Ho; [|done]. injection Hp as <-.
    destruct Ho as (Hst & _).
    rewrite Hs by (by rewrite Hst). split; [by rewrite Hst|done].
Qed.

Lemma step_well_formed db o : well_formed db -> well_formed (step db o).
Proof.
  destruct o; simpl.
  - apply add_well_formed.
  - apply promote_well_formed.
  - apply confirm_well_formed.
  - apply sweep_well_formed.
Qed.

Lemma run_well_formed ops db : well_formed db -> well_formed (run ops db).
Proof.
  unfold run. revert db. induction ops as [|o ops IH]; intros db Hwf; [done|].
  simpl. apply IH. by apply step_well_formed.
Qed.

Lemma empty_well_formed cs ms subs pls ens :
  well_formed (mkDB cs ms subs pls ens []).
Proof.
  split.
  - unfold unique_ids, ids. simpl. apply NoDup_nil_2.
  - intros s. unfold dense, positions, waiting_entries. simpl. done.
Qed.

(** C1. Dense-position invariant: in every state the queue reaches from an
    empty waiting list, by any history of [add_to_waiting_list],
    [promote_from_queue], [confirm_assignment] and expiry sweeps (whatever
    the clock readings, the identifiers drawn and the outcome of each
    call), the positions of the [WAITING] entries of every session are
    exactly [1..N], each once, [N] being the number of these entries. *)
Theorem dense_positions_invariant cs ms subs pls ens ops s :
  let db := run ops (mkDB cs ms subs pls ens []) in
  positions s db ≡ₚ seqZ 1 (Z.of_nat (length (waiting_entries s db))).
Proof.
  intros db.
  destruct (run_well_formed ops _ (empty_well_formed cs ms subs pls ens))
    as [_ Hd].
  apply Hd.
Qed.

(** ** Rows by primary key *)

Lemma entry_of_elem db x :
  unique_ids db -> x ∈ waiting_list db ->
  entry_of (WaitingList.id x) db = Some x.
Proof.
  intros Hids Hx. unfold entry_of.
  destruct (head (filter (fun e => WaitingList.id e = WaitingList.id x)
                         (waiting_list db))) as [y|] eqn:Hy.
  - apply head_Some_elem_of in Hy. apply list_elem_of_filter in Hy as [Heq Hy].
    f_equal. by apply (NoDup_fmap_elem_inj _ _ _ _ Hids Hy Hx).
  - apply head_None in Hy.
    assert (x ∈ filter (fun e => WaitingList.id e = WaitingList.id x)
                       (waiting_list db)) as Hin
      by (by apply list_elem_of_filter).
    rewrite Hy in Hin. by apply elem_of_nil in Hin.
Qed.

Lemma status_of_elem db x :
  unique_ids db -> x ∈ waiting_list db ->
  status_of (WaitingList.id x) db = Some (WaitingList.status x).
Proof. intros. unfold status_of. by rewrite entry_of_elem. Qed.

(** A filter that a row-wise change satisfies at one row only. *)
Lemma filter_fmap_single {A B} (P : B -> Prop) `{!forall y, Decision (P y)}
    (F : A -> B) (l : list A) h :
  NoDup l -> h ∈ l -> (forall x, x ∈ l -> P (F x) <-> x = h) ->
  filter P (F <$> l) = [F h].
Proof.
  induction l as [|a l IH]; intros Hnd Hin Hiff.
  - by apply elem_of_nil in Hin.
  - apply NoDup_cons in Hnd as [Ha Hnd]. rewrite fmap_cons.
    apply elem_of_cons in Hin as [->|Hin].
    + rewrite filter_cons_True by (apply Hiff; [left|done]).
      f_equal. apply filter_none. intros y Hy HP.
      apply list_elem_of_fmap in Hy as (x & -> & Hx).
      apply Hiff in HP; [|by right]. congruence.
    + rewrite filter_cons_False.
      * apply IH; [done..|]. intros x Hx. apply Hiff. by right.
      * intros HP. apply Hiff in HP; [|left]. congruence.
Qed.

(** ** Counting the queue and the holds around a promotion *)

Section promote_counts.
Variables (clk : nat -> Z) (s : string) (hours : Z) (db : DB)
            (h : WaitingList.t).
Hypothesis Hids : unique_ids db.
Hypothesis Hhead : head (order_by_position (waiting_entries s db)) = Some h.

Let db' := (promote_from_queue clk s hours db).1.

Lemma promote_queue_length :
    S (length (waiting_entries s db')) = length (waiting_entries s db).
  Proof.
    destruct (first_entry_least s db h Hhead) as (Hin & Hw & _).
    unfold db'. rewrite (promote_waiting_entries clk s hours db Hids h Hhead).
    rewrite length_fmap.
    rewrite (Permutation_split_by_id (waiting_entries s db) h) at 2; [done| |].
    - by apply NoDup_fmap_filter.
    - by apply list_elem_of_filter.
  Qed.

Lemma promote_assigned_length :
    length (assigned_entries s db') = S (length (assigned_entries s db)).
  Proof.
    destruct (first_entry_least s db h Hhead) as (Hin & [Hs Hw] & _).
    pose proof (Permutation_split_by_id (waiting_list db) h Hids Hin) as Hp.
    set (rest := filter (fun x => WaitingList.id x ≠ WaitingList.id h)
                        (waiting_list db)) in Hp.
    unfold db', assigned_entries.
    rewrite (promote_result clk s hours db Hids h Hhead). simpl.
    rewrite Hp at 1. rewrite fmap_cons, filter_cons_True.
    2:{ unfold promote_row, is_assigned. rewrite decide_True by done. done. }
    simpl. f_equal.
    rewrite (filter_fmap (is_assigned s) (is_assigned s)).
    - rewrite length_fmap.
      transitivity (length (filter (is_assigned s) (h :: rest)));
        [|by rewrite <- Hp].
      rewrite filter_cons_False; [done|].
      unfold is_assigned. rewrite Hw. intros [_ ?]. done.
    - intros x Hx. apply list_elem_of_filter in Hx as [Hne _].
      unfold promote_row. rewrite decide_False by done.
      case_decide as Hwx; [|done].
      unfold is_assigned. simpl. done.
  Qed.
End promote_counts.

(** ** C5: what [promote_from_queue] does *)

(** C5. [promote_from_queue] on a session without [WAITING] entry returns
    [None] and leaves the database as it is. On a session with a
    [WAITING] entry (keys being unique) it returns the [WAITING] entry of
    lowest position, turned [ASSIGNED] with [assigned_at = now] and
    [approval_deadline = now + approval_deadline_hours] hours; that row is
    the only one whose status changes, the other [WAITING] entries of the
    session get position [max(1, position - 1)], nothing else changes and
    the queue is one entry shorter. When the positions of the session are
    dense, the promoted entry is the one at position 1, every remaining
    [WAITING] entry loses exactly one position, and the positions stay
    dense. The default hold is 24 hours. *)
Theorem promote_from_queue_spec clk s hours db :
  unique_ids db ->
  let now := clk 0%nat in
  let deadline := now + hours * 3600000000 in
  let r := promote_from_queue clk s hours db in
  let hold (x : WaitingList.t) :=
    WaitingList.set_approval_deadline (Some deadline)
      (WaitingList.set_assigned_at (Some now)
         (WaitingList.set_status WaitingListStatus.ASSIGNED x)) in
  (waiting_entries s db = [] -> r = (db, None))
  ∧ (waiting_entries s db ≠ [] ->
     exists h,
       h ∈ waiting_entries s db
       ∧ (forall x, x ∈ waiting_entries s db ->
                    WaitingList.position h <= WaitingList.position x)
       ∧ r.2 = Some (hold h)
       ∧ waiting_list r.1
         = (fun x =>
              if decide (x = h) then hold x
              else if decide (is_waiting s x) then
                WaitingList.set_position
                  (Z.max 1 (WaitingList.position x - 1)) x
              else x) <$> waiting_list db
       ∧ S (length (waiting_entries s r.1)) = length (waiting_entries s db)
       ∧ (dense s db ->
          WaitingList.position h = 1
          ∧ waiting_list r.1
            = (fun x =>
                 if decide (x = h) then hold x
                 else if decide (is_waiting s x) then
                   WaitingList.set_position (WaitingList.position x - 1) x
                 else x) <$> waiting_list db
          ∧ dense s r.1))
  ∧ default_approval_deadline_hours = 24.
Proof.
  intros Hids now deadline r hold. split_and!; [apply promote_empty| |done].
  intros Hne. destruct (first_entry_exists s db Hne) as [h Hh].
  destruct (first_entry_least s db h Hh) as (Hin & Hw & Hmin).
  assert (h ∈ waiting_entries s db) as Hhw by (by apply list_elem_of_filter).
  assert (waiting_list r.1
          = (fun x =>
               if decide (x = h) then hold x
               else if decide (is_waiting s x) then
                 WaitingList.set_position
                   (Z.max 1 (WaitingList.position x - 1)) x
               else x) <$> waiting_list db) as Htable.
  { unfold r. rewrite (promote_result clk s hours db Hids h Hh). simpl.
    apply fmap_ext_elem_of. intros x Hx. unfold promote_row.
    destruct (decide (WaitingList.id x = WaitingList.id h)) as [Heq|Hneq].
    - assert (x = h) as ->
        by (by apply (NoDup_fmap_elem_inj _ _ _ _ Hids Hx Hin)).
      by rewrite decide_True.
    - destruct (decide (x = h)) as [->|_]; [done|]. done. }
  exists h. split_and!; try done.
  - unfold r. by rewrite (promote_result clk s hours db Hids h Hh).
  - by apply (promote_queue_length clk s hours db h).
  - intros Hd.
    pose proof (promote_first_position s db h Hh Hd) as Hp1.
    split_and!; [done| |by apply promote_keeps_dense].
    rewrite Htable. apply fmap_ext_elem_of. intros x Hx.
    destruct (decide (x = h)) as [->|Hxh]; [done|].
    case_decide as Hwx; [|done].
    assert (x ∈ waiting_entries s db) as Hxw by (by apply list_elem_of_filter).
    pose proof (dense_position_bounds s db x Hd Hxw) as Hb.
    assert (WaitingList.position x ≠ 1) as Hx1.
    { intros Hx1. apply dense_iff in Hd as [Hnd _]. apply Hxh.
      apply (NoDup_fmap_elem_inj WaitingList.position
               (waiting_entries s db)); [done..|congruence]. }
    f_equal. lia.
Qed.

Lemma example_queue_reached :
  run [Add (Example.clock 1000) "w1" "S" "M1";
       Add (Example.clock 2000) "w2" "S" "M2"] Example.gym = Example.queue.
Proof. vm_compute. reflexivity. Qed.

Lemma example_held_reached :
  run [Promote (Example.clock 3000) "S" 24] Example.queue = Example.held.
Proof. vm_compute. reflexivity. Qed.

Lemma promote_from_queue_spec_witness :
  unique_ids Example.queue
  ∧ exists h,
      h ∈ waiting_entries "S" Example.queue
      ∧ (promote_from_queue (Example.clock 3000) "S" 24 Example.queue).2
        = Some (assigned 3000 86400003000 h)
      ∧ WaitingList.position h = 1
      ∧ dense "S" (promote_from_queue (Example.clock 3000) "S" 24
                     Example.queue).1.
Proof.
  assert (unique_ids Example.queue) as Hu
    by (apply (bool_decide_unpack _); vm_compute; exact I).
  assert (dense "S" Example.queue) as Hd
    by (apply (bool_decide_unpack _); vm_compute; exact I).
  split; [exact Hu|].
  destruct (promote_from_queue_spec (Example.clock 3000) "S" 24
              Example.queue Hu) as (_ & Hsome & _).
  destruct Hsome as (h & Hin & _ & Hr & _ & _ & Hdense).
  - vm_compute. discriminate.
  - destruct (Hdense Hd) as (Hp & _ & Hd').
    exists h. split_and!; [exact Hin|exact Hr|exact Hp|exact Hd'].
Defined.

(** ** C6: [promote_from_queue] has no guard *)


(** C6, as the code has it. [promote_from_queue] does not look at the
    [ASSIGNED] entries: with unique keys, every call made while the session
    has a [WAITING] entry turns one more entry [ASSIGNED], whatever number
    is [ASSIGNED] already. A second consecutive call leaves the state of
    the first as it is exactly when no [WAITING] entry is left, that is
    when the session had at most one [WAITING] entry before the first
    call; with two or more it changes the state again. *)
Theorem promote_without_guard clk clk' s hours hours' db :
  unique_ids db ->
  let once := (promote_from_queue clk s hours db).1 in
  let twice := (promote_from_queue clk' s hours' once).1 in
  (waiting_entries s db ≠ [] ->
   length (assigned_entries s once) = S (length (assigned_entries s db)))
  ∧ ((length (waiting_entries s db) <= 1)%nat -> twice = once)
  ∧ ((2 <= length (waiting_entries s db))%nat ->
     length (assigned_entries s twice) = S (S (length (assigned_entries s db)))
     ∧ twice ≠ once).
Proof.
  intros Hids once twice.
  assert (unique_ids once) as Hids1 by (by apply promote_keeps_unique_ids).
  split_and!.
  - intros Hne. destruct (first_entry_exists s db Hne) as [h Hh].
    by apply (promote_assigned_length clk s hours db h).
  - intros Hlen. unfold twice.
    destruct (head (order_by_position (waiting_entries s db))) as [h|] eqn:Hh.
    + pose proof (promote_queue_length clk s hours db h Hids Hh) as Hq.
      fold once in Hq. rewrite promote_empty; [done|].
      apply nil_length_inv. lia.
    + assert (once = db) as ->
        by (unfold once, promote_from_queue; by rewrite Hh).
      apply head_order_by_None in Hh. by rewrite promote_empty.
  - intros Hlen.
    assert (waiting_entries s db ≠ []) as Hne
      by (intros Hnil; rewrite Hnil in Hlen; simpl in Hlen; lia).
    destruct (first_entry_exists s db Hne) as [h Hh].
    pose proof (promote_queue_length clk s hours db h Hids Hh) as Hq.
    pose proof (promote_assigned_length clk s hours db h Hids Hh) as Ha.
    fold once in Hq, Ha.
    assert (waiting_entries s once ≠ []) as Hne1
      by (intros Hnil; rewrite Hnil in Hq; simpl in Hq; lia).
    destruct (first_entry_exists s once Hne1) as [h1 Hh1].
    pose proof (promote_assigned_length clk' s hours' once h1 Hids1 Hh1) as Ha1.
    fold twice in Ha1. split; [lia|].
    intros Heq. rewrite Heq in Ha1. lia.
Qed.

Lemma promote_without_guard_witness :
  unique_ids Example.queue
  ∧ length (assigned_entries "S"
              (promote_from_queue (Example.clock 4000) "S" 24
                 (promote_from_queue (Example.clock 3000) "S" 24
                    Example.queue).1).1) = 2%nat.
Proof.
  assert (unique_ids Example.queue) as Hu
    by (apply (bool_decide_unpack _); vm_compute; exact I).
  split; [exact Hu|].
  destruct (promote_without_guard (Example.clock 3000) (Example.clock 4000)
              "S" 24 24 Example.queue Hu) as (_ & _ & Htwo).
  destruct Htwo as [Hlen _]; [vm_compute; lia|]. exact Hlen.
Defined.

(** C6, as the claim states it, fails: after one promotion the session has
    an open [ASSIGNED] entry, and a second call, with nothing in between,
    assigns a second entry and changes the state. *)
Lemma promote_twice_assigns_two :
  let once := (promote_from_queue (Example.clock 3000) "S" 24 Example.queue).1 in
  let twice := (promote_from_queue (Example.clock 4000) "S" 24 once).1 in
  length (assigned_entries "S" once) = 1%nat
  ∧ length (assigned_entries "S" twice) = 2%nat
  ∧ twice ≠ once.
Proof.
  split_and!; [vm_compute; reflexivity..|].
  intros Heq. apply (f_equal (fun d => length (assigned_entries "S" d))) in Heq.
  vm_compute in Heq. discriminate.
Qed.

(** ** C3: confirming after the deadline *)

Lemma promote_enrollment clk s hours db :
  enrollment (promote_from_queue clk s hours db).1 = enrollment db.
Proof. unfold promote_from_queue. by case_match. Qed.

Lemma status_of_found db y :
  unique_ids db -> y ∈ waiting_list db ->
  forall w, WaitingList.id y = w ->
  status_of w db = Some (WaitingList.status y).
Proof. intros Hids Hy w <-. by apply status_of_elem. Qed.

Section confirm_expired.
Variables (clk : nat -> Z) (new_id w : string) (db : DB)
            (e : WaitingList.t) (d : Z).
Hypothesis Hids : unique_ids db.
Hypothesis Hentry : entry_of w db = Some e.
Hypothesis Hst : WaitingList.status e = WaitingListStatus.ASSIGNED.
Hypothesis Hdl : WaitingList.approval_deadline e = Some d.
Hypothesis Hlate : clk 0%nat > d.

Let s := WaitingList.class_session_id e.
Let expire (x : WaitingList.t) : WaitingList.t :=
    if decide (WaitingList.id x = WaitingList.id e)
    then WaitingList.set_status WaitingListStatus.EXPIRED x else x.
Let committed :=
    with_waiting_list
      (flush [(WaitingList.id e,
               WaitingList.set_status WaitingListStatus.EXPIRED)]
             (waiting_list db)) db.
Let db' := (confirm_assignment clk new_id w db).1.

Lemma expired_entry_in : e ∈ waiting_list db ∧ WaitingList.id e = w.
  Proof. by apply entry_of_Some. Qed.

Lemma confirm_expired_result :
    confirm_assignment clk new_id w db
    = ((promote_from_queue (fun k => clk (S k)) s
          default_approval_deadline_hours committed).1,
       inl (AppError expired_message)).
  Proof.
    unfold confirm_assignment. fold (entry_of w db). rewrite Hentry.
    rewrite decide_False by (by rewrite Hst; intros ?).
    rewrite Hdl. by rewrite decide_True.
  Qed.

Lemma committed_table : waiting_list committed = expire <$> waiting_list db.
  Proof.
    destruct expired_entry_in as [He _].
    apply (flush_one db e (WaitingList.set_status WaitingListStatus.EXPIRED)).
  Qed.

Lemma committed_unique_ids : unique_ids committed.
  Proof. by apply flush_one_unique_ids. Qed.

Lemma committed_waiting_entries s' :
    waiting_entries s' committed = waiting_entries s' db.
  Proof.
    destruct expired_entry_in as [He _].
    apply flush_one_waiting_entries; try done. by rewrite Hst.
  Qed.

Lemma expire_other x :
    x ∈ waiting_list db -> x ≠ e -> expire x = x.
  Proof.
    destruct expired_entry_in as [He _].
    intros Hx Hne. unfold expire. rewrite decide_False; [done|].
    intros Heq. by apply Hne, (NoDup_fmap_elem_inj _ _ _ _ Hids Hx He).
  Qed.

Lemma expire_entry : expire e = WaitingList.set_status WaitingListStatus.EXPIRED e.
  Proof. unfold expire. by rewrite decide_True. Qed.

  (** Without a [WAITING] entry the only change is the expiry. *)
Lemma confirm_expired_empty :
    waiting_entries s db = [] ->
    waiting_list db' = expire <$> waiting_list db.
  Proof.
    intros Hnil. unfold db'. rewrite confirm_expired_result. simpl.
    rewrite promote_empty; [apply committed_table|].
    by rewrite committed_waiting_entries.
  Qed.

  (** With one, the entry found first is promoted as well. *)
Lemma confirm_expired_promoted h :
    head (order_by_position (waiting_entries s db)) = Some h ->
    waiting_list db'
    = (promote_row s h (clk 1%nat)
         (clk 1%nat + timedelta_hours default_approval_deadline_hours)
       ∘ expire) <$> waiting_list db.
  Proof.
    intros Hh. unfold db'. rewrite confirm_expired_result. simpl.
    rewrite (promote_result _ s _ committed committed_unique_ids h)
      by (by rewrite committed_waiting_entries).
    pose proof committed_table as Ht. simpl in *. rewrite Ht.
    by rewrite <- list_fmap_compose.
  Qed.

Lemma confirm_expired_unique_ids : unique_ids db'.
  Proof.
    unfold db'. rewrite confirm_expired_result. simpl.
    apply promote_keeps_unique_ids, committed_unique_ids.
  Qed.

Lemma confirm_expired_status : status_of w db' = Some WaitingListStatus.EXPIRED.
  Proof.
    destruct expired_entry_in as [He Hw].
    destruct (head (order_by_position (waiting_entries s db))) as [h|] eqn:Hh.
    - destruct (first_entry_least s db h Hh) as (Hin & [_ Hhw] & _).
      assert (h ≠ e) as Hne by (intros ->; congruence).
      apply (status_of_found db'
               (WaitingList.set_status WaitingListStatus.EXPIRED e));
        [apply confirm_expired_unique_ids| |done].
      rewrite (confirm_expired_promoted h Hh).
      apply list_elem_of_fmap. exists e. split; [|done]. simpl.
      rewrite expire_entry. unfold promote_row. simpl.
      rewrite decide_False.
      + rewrite decide_False; [done|]. unfold is_waiting. simpl.
        intros [_ ?]. done.
      + intros Heq. by apply Hne, (NoDup_fmap_elem_inj _ _ _ _ Hids Hin He).
    - apply head_order_by_None in Hh.
      apply (status_of_found db'
               (WaitingList.set_status WaitingListStatus.EXPIRED e));
        [apply confirm_expired_unique_ids| |done].
      rewrite (confirm_expired_empty Hh).
      apply list_elem_of_fmap. exists e. by rewrite expire_entry.
  Qed.

Lemma confirm_expired_nobody_assigned :
    waiting_entries s db = [] -> newly_assigned db db' = [].
  Proof.
    intros Hnil. unfold newly_assigned. rewrite (confirm_expired_empty Hnil).
    apply filter_none. intros y Hy [Hys Hyn].
    apply list_elem_of_fmap in Hy as (x & -> & Hx).
    destruct (decide (x = e)) as [->|Hne].
    - rewrite expire_entry in Hys. done.
    - rewrite (expire_other x Hx Hne) in Hys, Hyn.
      apply Hyn. rewrite (status_of_elem db x Hids Hx). by rewrite Hys.
  Qed.

Lemma confirm_expired_one_assigned h :
    head (order_by_position (waiting_entries s db)) = Some h ->
    newly_assigned db db'
    = [assigned (clk 1%nat)
         (clk 1%nat + timedelta_hours default_approval_deadline_hours) h].
  Proof.
    intros Hh. destruct expired_entry_in as [He Hw].
    destruct (first_entry_least s db h Hh) as (Hin & [Hhs Hhw] & _).
    assert (h ≠ e) as Hne by (intros ->; congruence).
    unfold newly_assigned. rewrite (confirm_expired_promoted h Hh).
    set (F := promote_row s h (clk 1%nat)
                (clk 1%nat + timedelta_hours default_approval_deadline_hours)
              ∘ expire).
    assert (F h = assigned (clk 1%nat)
                    (clk 1%nat + timedelta_hours default_approval_deadline_hours)
                    h) as HFh.
    { unfold F. simpl. rewrite (expire_other h Hin Hne).
      unfold promote_row. by rewrite decide_True. }
    rewrite <- HFh. apply filter_fmap_single.
    - by apply (NoDup_fmap_1 WaitingList.id).
    - done.
    - intros x Hx. split.
      + intros [Hxs Hxn]. destruct (decide (x = h)) as [|Hxh]; [done|].
        exfalso. unfold F in Hxs, Hxn. simpl in Hxs, Hxn.
        assert (WaitingList.id x ≠ WaitingList.id h) as Hid.
        { intros Heq. by apply Hxh, (NoDup_fmap_elem_inj _ _ _ _ Hids Hx Hin). }
        destruct (decide (x = e)) as [->|Hxe].
        * rewrite expire_entry in Hxs. unfold promote_row in Hxs.
          simpl in Hxs. rewrite decide_False in Hxs by done.
          rewrite decide_False in Hxs
            by (unfold is_waiting; simpl; intros [_ ?]; done).
          done.
        * rewrite (expire_other x Hx Hxe) in Hxs, Hxn.
          unfold promote_row in Hxs, Hxn.
          rewrite decide_False in Hxs, Hxn by done.
          apply Hxn. case_decide.
          -- simpl in *. rewrite (status_of_elem db x Hids Hx). by rewrite Hxs.
          -- rewrite (status_of_elem db x Hids Hx). by rewrite Hxs.
      + intros ->. rewrite HFh. split; [done|].
        unfold assigned. simpl.
        rewrite (status_of_elem db h Hids Hin), Hhw. done.
  Qed.
End confirm_expired.

(** C3. With unique keys, confirming an [ASSIGNED] entry whose
    [approval_deadline] lies before the clock reading always raises the
    expiry error ([AppError] with the message of the source); the entry is
    [EXPIRED] in the database that results, no enrollment is created, and
    the entries that become [ASSIGNED] are none when the session had no
    [WAITING] entry, and otherwise exactly one: another entry of the same
    session, the [WAITING] entry of lowest position. *)
Theorem confirm_after_deadline clk new_id w db e d :
  unique_ids db ->
  entry_of w db = Some e ->
  WaitingList.status e = WaitingListStatus.ASSIGNED ->
  WaitingList.approval_deadline e = Some d ->
  clk 0%nat > d ->
  let s := WaitingList.class_session_id e in
  let r := confirm_assignment clk new_id w db in
  r.2 = inl (AppError expired_message)
  ∧ status_of w r.1 = Some WaitingListStatus.EXPIRED
  ∧ enrollment r.1 = enrollment db
  ∧ (waiting_entries s db = [] -> newly_assigned db r.1 = [])
  ∧ (waiting_entries s db ≠ [] ->
     exists h,
       h ∈ waiting_entries s db
       ∧ WaitingList.id h ≠ w
       ∧ (forall x, x ∈ waiting_entries s db ->
                    WaitingList.position h <= WaitingList.position x)
       ∧ newly_assigned db r.1
         = [WaitingList.set_approval_deadline (Some (clk 1%nat + 24 * 3600000000))
              (WaitingList.set_assigned_at (Some (clk 1%nat))
                 (WaitingList.set_status WaitingListStatus.ASSIGNED h))]).
Proof.
  intros Hids Hentry Hst Hdl Hlate s r. split_and!.
  - unfold r. by rewrite (confirm_expired_result clk new_id w db e d).
  - by apply (confirm_expired_status clk new_id w db e d).
  - unfold r. rewrite (confirm_expired_result clk new_id w db e d) by done.
    simpl. by rewrite promote_enrollment.
  - by apply (confirm_expired_nobody_assigned clk new_id w db e d).
  - intros Hne. destruct (first_entry_exists s db Hne) as [h Hh].
    destruct (first_entry_least s db h Hh) as (Hin & [Hhs Hhw] & Hmin).
    destruct (entry_of_Some w db e Hentry) as [He Hw].
    exists h. split_and!.
    + by apply list_elem_of_filter.
    + intros Heq. rewrite <- Hw in Heq.
      pose proof (NoDup_fmap_elem_inj _ _ _ _ Hids Hin He Heq). congruence.
    + exact Hmin.
    + by apply (confirm_expired_one_assigned clk new_id w db e d).
Qed.

Lemma confirm_after_deadline_witness :
  unique_ids Example.held
  ∧ (confirm_assignment (Example.clock 86400003001) "e1" "w2" Example.held).2
    = inl (AppError expired_message)
  ∧ status_of "w2"
      (confirm_assignment (Example.clock 86400003001) "e1" "w2" Example.held).1
    = Some WaitingListStatus.EXPIRED.
Proof.
  assert (unique_ids Example.held) as Hu
    by (apply (bool_decide_unpack _); vm_compute; exact I).
  split; [exact Hu|].
  destruct (confirm_after_deadline (Example.clock 86400003001) "e1" "w2"
              Example.held
              (WaitingList.mk "w2" "S" "M2" WaitingListStatus.ASSIGNED 1 1000
                 (Some 86400003000) 2000 (Some 3000) None None)
              86400003000 Hu)
    as (Herr & Hexp & _); [reflexivity..| |].
  - vm_compute. reflexivity.
  - split; [exact Herr|exact Hexp].
Defined.

(** ** C4: where [add_to_waiting_list] inserts *)

Lemma outranks_irrefl x :
  ¬ outranks (WaitingList.priority_score x) (WaitingList.created_at x) x.
Proof. unfold outranks. lia. Qed.

Lemma outranks_trans a b c :
  outranks (WaitingList.priority_score a) (WaitingList.created_at a) b ->
  outranks (WaitingList.priority_score b) (WaitingList.created_at b) c ->
  outranks (WaitingList.priority_score a) (WaitingList.created_at a) c.
Proof. unfold outranks. lia. Qed.

Lemma shift_row_keeps s fp x : identity (shift_row s fp x) = identity x.
Proof. unfold shift_row. by case_decide. Qed.

Section add_order.
Variables (clk : nat -> Z) (new_id s m : string) (db db' : DB)
            (e : WaitingList.t).
Hypothesis Hids : unique_ids db.
Hypothesis Hd : dense s db.
Hypothesis Hadd : add_to_waiting_list clk new_id s m db = (db', inr e).

Let fp := WaitingList.position e.
Let score := WaitingList.priority_score e.
Let now := WaitingList.created_at e.

Lemma add_created_at : now = clk 0%nat.
  Proof. unfold now. by rewrite (add_entry clk new_id s m db db' e Hadd). Qed.

Lemma add_rank_outranks :
    fp = insertion_rank score now (waiting_entries s db)
           (Z.of_nat (length (waiting_entries s db)) + 1).
  Proof.
    rewrite add_created_at. apply (add_rank clk new_id s m db db' e Hadd).
  Qed.

Lemma add_is_waiting : is_waiting s e.
  Proof. by rewrite (add_entry clk new_id s m db db' e Hadd). Qed.




Lemma shift_row_position x :
    is_waiting s x ->
    WaitingList.position (shift_row s fp x)
    = if decide (WaitingList.position x >= fp)
      then WaitingList.position x + 1 else WaitingList.position x.
  Proof.
    intros Hw. unfold shift_row.
    destruct (decide (WaitingList.position x >= fp)).
    - by rewrite decide_True.
    - by rewrite decide_False by tauto.
  Qed.

  (** An entry the new one outranks stands behind it afterwards. *)
Lemma add_ahead_of_outranked b :
    b ∈ waiting_entries s db -> outranks score now b ->
    fp < WaitingList.position (shift_row s fp b).
  Proof.
    intros Hb Ho.
    pose proof (insertion_rank_le_outranked score now (waiting_entries s db)
                  (Z.of_nat (length (waiting_entries s db)) + 1) b Hb Ho) as Hle.
    rewrite <- add_rank_outranks in Hle.
    apply list_elem_of_filter in Hb as [Hw _].
    rewrite shift_row_position by done. rewrite decide_True by lia. lia.
  Qed.

  (** In an ordered queue, an entry that is not behind the new one in
      score and enqueue time keeps its place ahead of it. *)
Lemma add_behind_ties b :
    ordered s db ->
    b ∈ waiting_entries s db ->
    WaitingList.priority_score b > score
    ∨ (WaitingList.priority_score b = score ∧ WaitingList.created_at b <= now) ->
    shift_row s fp b = b ∧ WaitingList.position b < fp.
  Proof.
    intros Hord Hb Hge.
    assert (WaitingList.position b < fp) as Hlt.
    { rewrite add_rank_outranks.
      destruct (insertion_rank_attained score now (waiting_entries s db)
                  (Z.of_nat (length (waiting_entries s db)) + 1))
        as [->|(c & Hc & Hoc & ->)].
      - pose proof (dense_position_bounds s db b Hd Hb). lia.
      - apply Hord; [done..|]. unfold outranks in *. lia. }
    split; [|done]. unfold shift_row. rewrite decide_False; [done|]. lia.
  Qed.

Lemma add_ordered : ordered s db -> ordered s db'.
  Proof.
    intros Hord a' b' Ha' Hb' Ho.
    rewrite (add_waiting_entries clk new_id s m db db' e Hids Hadd) in Ha', Hb'.
    fold fp in Ha', Hb'.
    apply elem_of_app in Ha' as [Ha'|Ha']; apply elem_of_app in Hb' as [Hb'|Hb'].
    - apply list_elem_of_fmap in Ha' as (a & -> & Ha).
      apply list_elem_of_fmap in Hb' as (b & -> & Hb).
      pose proof (shift_row_keeps s fp a) as Hia.
      pose proof (shift_row_keeps s fp b) as Hib.
      unfold identity in Hia, Hib. simplify_eq.
      assert (WaitingList.position a < WaitingList.position b) as Hlt.
      { apply Hord; [done..|]. unfold outranks in *. congruence. }
      pose proof Ha as Ha2. pose proof Hb as Hb2.
      apply list_elem_of_filter in Ha2 as [Hwa _].
      apply list_elem_of_filter in Hb2 as [Hwb _].
      rewrite !shift_row_position by done. repeat case_decide; lia.
    - apply list_elem_of_fmap in Ha' as (a & -> & Ha).
      apply list_elem_of_singleton in Hb' as ->.
      pose proof (shift_row_keeps s fp a) as Hia.
      unfold identity in Hia. simplify_eq.
      destruct (add_behind_ties a Hord Ha) as [-> Hlt]; [|done].
      unfold outranks, score, now in *. lia.
    - apply list_elem_of_singleton in Ha' as ->.
      apply list_elem_of_fmap in Hb' as (b & -> & Hb).
      pose proof (shift_row_keeps s fp b) as Hib.
      unfold identity in Hib. simplify_eq.
      apply add_ahead_of_outranked; [done|].
      unfold outranks, score, now in *. congruence.
    - apply list_elem_of_singleton in Ha' as ->.
      apply list_elem_of_singleton in Hb' as ->.
      by apply outranks_irrefl in Ho.
  Qed.
End add_order.




(** ** The queues stay in order *)

Lemma ordered_same_queue s db db' :
  waiting_entries s db' = waiting_entries s db -> ordered s db -> ordered s db'.
Proof. unfold ordered. by intros ->. Qed.

Lemma add_in_order clk new_id s m db :
  well_formed db -> in_order db ->
  in_order (add_to_waiting_list clk new_id s m db).1.
Proof.
  intros [Hids Hd] Hord s'.
  destruct (add_to_waiting_list clk new_id s m db) as [db' [err|e]] eqn:Hadd.
  - assert (db' = db) as ->; [|apply Hord].
    unfold add_to_waiting_list, transaction in Hadd.
    by repeat (case_match; simplify_eq/=).
  - simpl. destruct (decide (s' = s)) as [->|Hne].
    + by apply (add_ordered clk new_id s m db db' e).
    + apply (ordered_same_queue s' db); [|apply Hord].
      by apply (add_waiting_entries_other clk new_id s m db db' e).
Qed.

Lemma promote_in_order clk s hours db :
  well_formed db -> in_order db ->
  in_order (promote_from_queue clk s hours db).1.
Proof.
  intros [Hids Hd] Hord s'.
  destruct (head (order_by_position (waiting_entries s db))) as [h|] eqn:Hh.
  2:{ unfold promote_from_queue. rewrite Hh. apply Hord. }
  destruct (decide (s' = s)) as [->|Hne].
  2:{ apply (ordered_same_queue s' db); [|apply Hord].
      by apply (promote_waiting_entries_other clk s hours db Hids h). }
  destruct (first_entry_least s db h Hh) as (Hin & Hw & Hmin).
  pose proof (promote_first_position s db h Hh (Hd s)) as Hp1.
  assert (h ∈ waiting_entries s db) as Hhw by (by apply list_elem_of_filter).
  assert (forall x, x ∈ filter (fun x => WaitingList.id x ≠ WaitingList.id h)
                          (waiting_entries s db) ->
            x ∈ waiting_entries s db
            ∧ 2 <= WaitingList.position x
            ∧ identity (promote_row s h (clk 0%nat)
                          (clk 0%nat + timedelta_hours hours) x) = identity x
            ∧ WaitingList.position
                (promote_row s h (clk 0%nat)
                   (clk 0%nat + timedelta_hours hours) x)
              = WaitingList.position x - 1) as Hrest.
  { intros x Hx. apply list_elem_of_filter in Hx as [Hne Hx].
    pose proof (dense_position_bounds s db x (Hd s) Hx) as Hb.
    assert (WaitingList.position x ≠ 1) as Hx1.
    { intros Hx1. pose proof (Hd s) as Hds.
      apply dense_iff in Hds as [Hnd _]. apply Hne. f_equal.
      apply (NoDup_fmap_elem_inj WaitingList.position
               (waiting_entries s db)); [done..|congruence]. }
    split_and!; [done|lia|apply promote_row_identity|].
    apply list_elem_of_filter in Hx as [Hwx _].
    unfold promote_row. rewrite decide_False by done.
    rewrite decide_True by done. simpl. lia. }
  intros a' b' Ha' Hb' Ho.
  rewrite (promote_waiting_entries clk s hours db Hids h Hh) in Ha', Hb'.
  apply list_elem_of_fmap in Ha' as (a & -> & Ha).
  apply list_elem_of_fmap in Hb' as (b & -> & Hb).
  destruct (Hrest a Ha) as (Haw & Ha2 & Hia & ->).
  destruct (Hrest b Hb) as (Hbw & Hb2 & Hib & ->).
  unfold identity in Hia, Hib. simplify_eq.
  assert (WaitingList.position a < WaitingList.position b); [|lia].
  apply (Hord s); [done..|]. unfold outranks in *. congruence.
Qed.

Lemma same_queues_in_order db db' :
  (forall s, waiting_entries s db' = waiting_entries s db) ->
  in_order db -> in_order db'.
Proof. intros Hq Hord s. apply (ordered_same_queue s db); [apply Hq|apply Hord]. Qed.

Lemma confirm_in_time_queues clk new_id e db :
  unique_ids db -> e ∈ waiting_list db ->
  WaitingList.status e = WaitingListStatus.ASSIGNED ->
  forall s, waiting_entries s (confirm_in_time clk new_id e db).1
            = waiting_entries s db.
Proof.
  intros Hids He Hst s.
  unfold confirm_in_time, transaction, bind, insert_enrollment.
  case_decide; simpl; [done|].
  apply (flush_one_waiting_entries db e
           (fun row => WaitingList.set_confirmed_at (Some (clk 1%nat))
              (WaitingList.set_status WaitingListStatus.CONFIRMED row)));
    try done.
  by rewrite Hst.
Qed.

Lemma confirm_in_order clk new_id w db :
  well_formed db -> in_order db ->
  in_order (confirm_assignment clk new_id w db).1.
Proof.
  intros Hwf Hord. pose proof Hwf as [Hids Hd].
  unfold confirm_assignment. fold (entry_of w db).
  destruct (entry_of w db) as [e|] eqn:He; [|done].
  apply entry_of_Some in He as [He _].
  case_decide as Hst; [done|].
  assert (WaitingList.status e = WaitingListStatus.ASSIGNED) as Hst'
    by (destruct (decide (WaitingList.status e = WaitingListStatus.ASSIGNED));
        tauto).
  assert (WaitingList.status e ≠ WaitingListStatus.WAITING) as Hnw
    by (by rewrite Hst').
  destruct (WaitingList.approval_deadline e) as [d|].
  - case_decide.
    + simpl. apply promote_in_order.
      * by apply (flush_one_well_formed db e).
      * apply (same_queues_in_order db); [|done].
        intros s. by apply (flush_one_waiting_entries db e).
    + apply (same_queues_in_order db); [|done].
      by apply confirm_in_time_queues.
  - apply (same_queues_in_order db); [|done].
    by apply confirm_in_time_queues.
Qed.

Lemma promote_each_in_order clk expired db :
  well_formed db -> in_order db -> in_order (promote_each clk expired db).
Proof.
  revert clk db. induction expired as [|x l IH]; intros clk db Hwf Hord; [done|].
  simpl. apply IH; [by apply promote_well_formed|by apply promote_in_order].
Qed.

(** The flush that ends a sweep changes no queue. *)
Lemma sweep_queues clk scope db :
  unique_ids db ->
  forall s,
    waiting_entries s (check_expired_assignments clk scope db).1
    = waiting_entries s
        (promote_each (fun k => clk (S k))
           (filter (overdue (clk 0%nat) scope) (waiting_list db)) db).
Proof.
  intros Hids s. unfold check_expired_assignments. simpl.
  set (expired := filter (overdue (clk 0%nat) scope) (waiting_list db)).
  destruct (promote_each_outside (fun k => clk (S k)) expired db Hids)
    as (G & HG & HG').
  unfold waiting_entries. simpl. apply flush_outside_queue.
  intros row g Hrow Hp. rewrite HG in Hrow.
  apply list_elem_of_fmap in Hrow as (x & -> & Hx).
  destruct (HG' x Hx) as [Hi Hs]. rewrite Hi in Hp. unfold expired in Hp.
  rewrite (pending_selected _
             (fun _ => WaitingList.set_status WaitingListStatus.EXPIRED))
    in Hp by done.
  case_decide as Ho; [|done]. injection Hp as <-.
  destruct Ho as (Hst & _).
  rewrite Hs by (by rewrite Hst). split; [by rewrite Hst|done].
Qed.

Lemma sweep_in_order clk scope db :
  well_formed db -> in_order db ->
  in_order (check_expired_assignments clk scope db).1.
Proof.
  intros Hwf Hord. pose proof Hwf as [Hids _].
  eapply same_queues_in_order; [apply (sweep_queues clk scope db Hids)|].
  by apply promote_each_in_order.
Qed.

Lemma step_in_order db o :
  well_formed db -> in_order db -> in_order (step db o).
Proof.
  destruct o; simpl.
  - apply add_in_order.
  - apply promote_in_order.
  - apply confirm_in_order.
  - apply sweep_in_order.
Qed.

(** Every state reached from an empty waiting list has its queues in
    order, so the ordering that [add_to_waiting_list] relies on is there
    whenever it runs. *)
Lemma run_in_order cs ms subs pls ens ops :
  in_order (run ops (mkDB cs ms subs pls ens [])).
Proof.
  assert (forall db, well_formed db -> in_order db -> in_order (run ops db)) as H.
  { unfold run. induction ops as [|o ops IH]; intros db Hwf Hord; [done|].
    simpl. apply IH; [by apply step_well_formed|by apply step_in_order]. }
  apply H; [apply empty_well_formed|].
  intros s a b Ha. unfold waiting_entries in Ha. simpl in Ha.
  by apply elem_of_nil in Ha.
Qed.

(** ** C7: the priority score *)

Lemma elem_of_join {A B} (on : A -> B -> Prop) `{!forall a b, Decision (on a b)}
    (la : list A) (lb : list B) a b :
  (a, b) ∈ join on la lb <-> a ∈ la ∧ b ∈ lb ∧ on a b.
Proof.
  unfold join. rewrite list_elem_of_bind. split.
  - intros (a' & Hin & Ha').
    apply list_elem_of_fmap in Hin as (b' & [= -> ->] & Hb').
    apply list_elem_of_filter in Hb'. tauto.
  - intros (Ha & Hb & Hon). exists a. split; [|done].
    apply list_elem_of_fmap. exists b. split; [done|].
    by apply list_elem_of_filter.
Qed.

Lemma active_subscription_Some member_id db sub plan :
  active_subscription member_id db = Some (sub, plan) ->
  subscribed member_id db plan.
Proof.
  unfold active_subscription. intros H. apply head_Some_elem_of in H.
  apply list_elem_of_filter in H as [[Hm Hs] Hin].
  apply elem_of_join in Hin as (? & ? & ?). by exists sub.
Qed.

Lemma active_subscription_None member_id db :
  active_subscription member_id db = None ->
  forall plan, ¬ subscribed member_id db plan.
Proof.
  unfold active_subscription. intros H plan (sub & Hs & Hp & Hon & Hm & Hst).
  apply head_None in H.
  assert ((sub, plan) ∈ filter
            (fun sp => Subscription.member_id sp.1 = member_id
                       ∧ Subscription.status sp.1 = SubscriptionStatus.ACTIVE)
            (join subscription_plan_on (subscriptions db) (plans db))) as Hin.
  { apply list_elem_of_filter. split; [done|]. by apply elem_of_join. }
  rewrite H in Hin. by apply elem_of_nil in Hin.
Qed.

Lemma whole_hours_elapsed a b :
  a <= b ->
  0 <= whole_hours a b
  ∧ whole_hours a b * 3600000000 <= b - a < (whole_hours a b + 1) * 3600000000.
Proof.
  intros Hab. unfold whole_hours, microseconds_per_hour.
  rewrite Z.quot_div_nonneg by lia.
  pose proof (Z.div_pos (b - a) 3600000000 ltac:(lia) ltac:(lia)).
  pose proof (Z.mul_div_le (b - a) 3600000000 ltac:(lia)).
  pose proof (Z.mul_succ_div_gt (b - a) 3600000000 ltac:(lia)).
  lia.
Qed.

(** C7. The score is a tier base plus a wait bonus: the base is 1000 when
    the member's [ACTIVE] subscription is to a VIP plan, 100 when it is to
    a plan of another type, and 0 when the member has no [ACTIVE]
    subscription (with several, the one the query returns first counts);
    the bonus is the whole number of hours from [created_at] to the clock
    reading; and the score has no upper bound. *)
Theorem calculate_priority_score_spec clk member_id created_at db :
  let now := clk 0%nat in
  let score := calculate_priority_score clk member_id created_at db in
  let bonus := whole_hours created_at now in
  (created_at <= now ->
   0 <= bonus
   ∧ bonus * 3600000000 <= now - created_at < (bonus + 1) * 3600000000)
  ∧ ((forall plan, ¬ subscribed member_id db plan) -> score = 0 + bonus)
  ∧ ((exists plan, subscribed member_id db plan) ->
     (forall plan, subscribed member_id db plan ->
                   Plan.plan_type plan = PlanType.VIP) ->
     score = 1000 + bonus)
  ∧ ((exists plan, subscribed member_id db plan) ->
     (forall plan, subscribed member_id db plan ->
                   Plan.plan_type plan ≠ PlanType.VIP) ->
     score = 100 + bonus)
  ∧ (forall sub plan,
       active_subscription member_id db = Some (sub, plan) ->
       score = (if decide (Plan.plan_type plan = PlanType.VIP)
                then 1000 else 100) + bonus)
  ∧ (forall bound, exists enqueued_at,
       calculate_priority_score clk member_id enqueued_at db > bound).
Proof.
  intros now score bonus. unfold score, calculate_priority_score.
  split_and!.
  - intros Hle. pose proof (whole_hours_elapsed created_at now Hle). lia.
  - intros Hnone.
    destruct (active_subscription member_id db) as [[sub plan]|] eqn:Ha; [|done].
    by destruct (Hnone plan (active_subscription_Some _ _ _ _ Ha)).
  - intros [plan0 Hp0] Hall.
    destruct (active_subscription member_id db) as [[sub plan]|] eqn:Ha.
    + simpl. rewrite decide_True; [done|].
      by apply Hall, (active_subscription_Some _ _ sub).
    + by destruct (active_subscription_None _ _ Ha plan0).
  - intros [plan0 Hp0] Hall.
    destruct (active_subscription member_id db) as [[sub plan]|] eqn:Ha.
    + simpl. rewrite decide_False; [done|].
      by apply Hall, (active_subscription_Some _ _ sub).
    + by destruct (active_subscription_None _ _ Ha plan0).
  - intros sub plan ->. done.
  - intros bound.
    exists (now - (Z.abs bound + 1) * 3600000000).
    unfold whole_hours, microseconds_per_hour. fold now.
    replace (now - (now - (Z.abs bound + 1) * 3600000000))
      with ((Z.abs bound + 1) * 3600000000) by lia.
    rewrite Z.quot_mul by lia.
    assert (0 <= base_score (active_subscription member_id db)).
    { unfold base_score. repeat case_match; lia. }
    lia.
Qed.

(** ** C8: the failures of [add_to_waiting_list] *)

Lemma head_filter_None {A} (P : A -> Prop) `{!forall x, Decision (P x)} l :
  head (filter P l) = None <-> forall x, x ∈ l -> ¬ P x.
Proof.
  rewrite head_None. split.
  - intros Hnil x Hx HP.
    assert (x ∈ filter P l) as Hin by (by apply list_elem_of_filter).
    rewrite Hnil in Hin. by apply elem_of_nil in Hin.
  - apply filter_none.
Qed.

Lemma head_filter_Some {A} (P : A -> Prop) `{!forall x, Decision (P x)} l x :
  head (filter P l) = Some x -> P x ∧ x ∈ l.
Proof.
  intros Hh. apply head_Some_elem_of in Hh. by apply list_elem_of_filter in Hh.
Qed.

Lemma head_filter_is_Some {A} (P : A -> Prop) `{!forall x, Decision (P x)} l :
  (exists x, x ∈ l ∧ P x) -> exists y, head (filter P l) = Some y.
Proof.
  intros (x & Hx & HP). destruct (head (filter P l)) as [y|] eqn:Hy; [by exists y|].
  rewrite head_filter_None in Hy. by destruct (Hy x Hx).
Qed.

(** C8, as the code has it. [add_to_waiting_list] raises [NotFoundError]
    when the session does not exist; otherwise [AppError] (invalid) when
    the session's registration is closed; otherwise [NotFoundError] when
    the member does not exist; otherwise [DuplicateError] (conflict) when
    the member holds a [REGISTERED] enrollment for the session; otherwise
    [DuplicateError] when the member has a [WAITING] or [ASSIGNED] entry
    for it. Whatever exception the call raises, the database is as
    before: no entry is added and no position changes. *)
Theorem add_to_waiting_list_failures clk new_id s m db :
  let r := add_to_waiting_list clk new_id s m db in
  let session_exists := exists c, c ∈ class_session db ∧ ClassSession.id c = s in
  let closed := forall c, c ∈ class_session db -> ClassSession.id c = s ->
                          ClassSession.status c = SessionStatus.CLOSED in
  let open := forall c, c ∈ class_session db -> ClassSession.id c = s ->
                        ClassSession.status c ≠ SessionStatus.CLOSED in
  let member_exists := exists x, x ∈ members db ∧ Member.id x = m in
  let enrolled := exists en, en ∈ enrollment db ∧ already_enrolled s m en in
  let queued := exists e, e ∈ waiting_list db ∧ already_waiting s m e in
  (¬ session_exists -> r.2 = inl (NotFoundError "Class session not found"))
  ∧ (session_exists -> closed ->
     r.2 = inl (AppError "Session registration is closed"))
  ∧ (session_exists -> open -> ¬ member_exists ->
     r.2 = inl (NotFoundError "Member not found"))
  ∧ (session_exists -> open -> member_exists -> enrolled ->
     r.2 = inl (DuplicateError "Member is already enrolled in this session"))
  ∧ (session_exists -> open -> member_exists -> ¬ enrolled -> queued ->
     r.2 = inl (DuplicateError "Member is already on the waiting list"))
  ∧ (forall err, r.2 = inl err -> r.1 = db).
Proof.
  intros r session_exists closed open member_exists enrolled queued.
  unfold r, add_to_waiting_list, first_or_raise, insert_waiting_list.
  unfold transaction, bind, raise, ret.
  split_and!.
  - intros Hno.
    destruct (head (filter (fun c => ClassSession.id c = s) (class_session db)))
      as [c|] eqn:Hc; [|done].
    apply head_filter_Some in Hc as [? ?]. destruct Hno. by exists c.
  - intros Hex Hcl. apply (head_filter_is_Some (fun c => ClassSession.id c = s)) in Hex as [c Hc]. rewrite Hc.
    apply head_filter_Some in Hc as [? ?].
    rewrite decide_False; [done|]. intros Hn. by apply Hn, Hcl.
  - intros Hex Hop Hnm. apply (head_filter_is_Some (fun c => ClassSession.id c = s)) in Hex as [c Hc]. rewrite Hc.
    apply head_filter_Some in Hc as [? ?].
    rewrite decide_True by (by apply Hop).
    destruct (head (filter (fun x => Member.id x = m) (members db)))
      as [x|] eqn:Hx; [|done].
    apply head_filter_Some in Hx as [? ?]. destruct Hnm. by exists x.
  - intros Hex Hop Hm Hen. apply (head_filter_is_Some (fun c => ClassSession.id c = s)) in Hex as [c Hc]. rewrite Hc.
    apply head_filter_Some in Hc as [? ?].
    rewrite decide_True by (by apply Hop).
    apply (head_filter_is_Some (fun x => Member.id x = m)) in Hm as [x Hx]. rewrite Hx.
    apply (head_filter_is_Some (already_enrolled s m)) in Hen as [en Hen']. rewrite Hen'.
    by rewrite decide_False.
  - intros Hex Hop Hm Hnen Hq.
    apply (head_filter_is_Some (fun c => ClassSession.id c = s)) in Hex as [c Hc]. rewrite Hc.
    apply head_filter_Some in Hc as [? ?].
    rewrite decide_True by (by apply Hop).
    apply (head_filter_is_Some (fun x => Member.id x = m)) in Hm as [x Hx]. rewrite Hx.
    rewrite decide_True.
    2:{ apply head_filter_None. intros en Hin Hen. apply Hnen. by exists en. }
    apply (head_filter_is_Some (already_waiting s m)) in Hq as [e He]. rewrite He.
    by rewrite decide_False.
  - intros err. repeat (case_match; simplify_eq/=; try done).
Qed.

(** C8, as the claim states it, fails when the registration is closed:
    the closed session decides before the member is looked at, so a member
    who does not exist gets the invalid-state error, not [NotFoundError],
    and a member who is in the queue already gets it too, not
    [DuplicateError]. *)
Lemma add_closed_session_decides :
  (forall x, x ∈ members Example.closed -> Member.id x ≠ "M9")
  ∧ (add_to_waiting_list (Example.clock 5000) "w9" "S" "M9" Example.closed).2
    = inl (AppError "Session registration is closed")
  ∧ (exists e, e ∈ waiting_list Example.closed ∧ already_waiting "S" "M1" e)
  ∧ (add_to_waiting_list (Example.clock 5000) "w9" "S" "M1" Example.closed).2
    = inl (AppError "Session registration is closed").
Proof.
  split_and!.
  - apply Forall_forall. apply (bool_decide_unpack _). vm_compute. exact I.
  - vm_compute. reflexivity.
  - exists (Example.waiting "w1" "M1" 2 100 1000). split.
    + apply (bool_decide_unpack _). vm_compute. exact I.
    + apply (bool_decide_unpack _). vm_compute. exact I.
  - vm_compute. reflexivity.
Qed.

(** ** C10: the stored score *)

Lemma base_score_tier sub : tier_base (base_score sub).
Proof.
  unfold tier_base, base_score. destruct sub as [[? plan]|]; [|tauto].
  case_decide; tauto.
Qed.

Lemma whole_hours_prompt a b :
  Z.abs (b - a) < microseconds_per_hour -> whole_hours a b = 0.
Proof.
  unfold whole_hours, microseconds_per_hour. intros H.
  apply Z.quot_small_iff; lia.
Qed.

Lemma assigned_identity now deadline x :
  identity (assigned now deadline x) = identity x.
Proof. done. Qed.

Lemma promote_identities clk s hours db :
  identity <$> waiting_list (promote_from_queue clk s hours db).1
  = identity <$> waiting_list db.
Proof.
  unfold promote_from_queue.
  destruct (head (order_by_position (waiting_entries s db))) as [h|]; [|done].
  simpl. apply flush_keeps. intros i f Hin x.
  apply elem_of_cons in Hin as [[= _ ->]|Hin]; [done|].
  unfold moved_up in Hin. by apply list_elem_of_fmap in Hin as (y & [= _ ->] & _).
Qed.

Lemma promote_each_identities clk expired db :
  identity <$> waiting_list (promote_each clk expired db)
  = identity <$> waiting_list db.
Proof.
  revert clk db. induction expired as [|x l IH]; intros clk db; [done|].
  simpl. rewrite IH. apply promote_identities.
Qed.

Lemma confirm_identities clk new_id w db :
  identity <$> waiting_list (confirm_assignment clk new_id w db).1
  = identity <$> waiting_list db.
Proof.
  assert (forall c e, identity <$> waiting_list (confirm_in_time c new_id e db).1
                      = identity <$> waiting_list db) as Hin_time.
  { intros c e. unfold confirm_in_time, transaction, bind, insert_enrollment.
    case_decide; simpl; [done|]. apply flush_keeps. intros i f Hin x.
    by apply list_elem_of_singleton in Hin as [= _ ->]. }
  unfold confirm_assignment.
  destruct (head (filter (fun e => WaitingList.id e = w) (waiting_list db)))
    as [e|]; [|done].
  case_decide; [done|].
  destruct (WaitingList.approval_deadline e) as [d|]; [|apply Hin_time].
  case_decide; [|apply Hin_time].
  simpl. rewrite promote_identities. simpl.
  apply flush_keeps. intros i f Hin x.
  by apply list_elem_of_singleton in Hin as [= _ ->].
Qed.

Lemma sweep_identities clk scope db :
  identity <$> waiting_list (check_expired_assignments clk scope db).1
  = identity <$> waiting_list db.
Proof.
  unfold check_expired_assignments. simpl.
  rewrite flush_keeps; [apply promote_each_identities|].
  intros i f Hin x. by apply list_elem_of_fmap in Hin as (y & [= _ ->] & _).
Qed.

Lemma add_identities clk new_id s m db :
  exists new,
    identity <$> waiting_list (add_to_waiting_list clk new_id s m db).1
    = (identity <$> waiting_list db) ++ new
    ∧ (Z.abs (clk 1%nat - clk 0%nat) < microseconds_per_hour ->
       forall i, i ∈ new -> tier_base i.1.2).
Proof.
  destruct (add_to_waiting_list clk new_id s m db) as [db' [err|e]] eqn:Hadd.
  - exists []. rewrite app_nil_r. split; [|by intros _ i Hi; apply elem_of_nil in Hi].
    assert (db' = db) as ->; [|done].
    unfold add_to_waiting_list, transaction in Hadd.
    by repeat (case_match; simplify_eq/=).
  - destruct (add_to_waiting_list_inv _ _ _ _ _ _ _ Hadd) as (He & _ & ->).
    exists [identity e]. simpl. split.
    + rewrite fmap_app. f_equal. apply flush_keeps. intros i f Hin x.
      unfold shifted_down in Hin.
      by apply list_elem_of_fmap in Hin as (y & [= _ ->] & _).
    + intros Hp i Hi. apply list_elem_of_singleton in Hi as ->.
      rewrite He. simpl. unfold calculate_priority_score.
      rewrite whole_hours_prompt by done. rewrite Z.add_0_r.
      apply base_score_tier.
Qed.

Lemma step_identities db o :
  exists new,
    identity <$> waiting_list (step db o)
    = (identity <$> waiting_list db) ++ new
    ∧ (prompt o -> forall i, i ∈ new -> tier_base i.1.2).
Proof.
  destruct o as [clk new_id s m|clk s h|clk new_id w|clk scope]; simpl.
  - apply add_identities.
  - exists []. rewrite app_nil_r. split; [apply promote_identities|].
    by intros _ i Hi; apply elem_of_nil in Hi.
  - exists []. rewrite app_nil_r. split; [apply confirm_identities|].
    by intros _ i Hi; apply elem_of_nil in Hi.
  - exists []. rewrite app_nil_r. split; [apply sweep_identities|].
    by intros _ i Hi; apply elem_of_nil in Hi.
Qed.

(** No history changes the identity, the score or the enqueue time of an
    entry that is in the table. *)
Lemma run_identities ops db :
  identity <$> waiting_list db `prefix_of` identity <$> waiting_list (run ops db).
Proof.
  unfold run. revert db. induction ops as [|o ops IH]; intros db; [done|].
  simpl. etransitivity; [|apply IH].
  destruct (step_identities db o) as (new & -> & _). by apply prefix_app_r.
Qed.

(** X21. With prompt clocks, every score a history from an empty waiting
    list has stored is a tier base (1000, 100 or 0): no wait bonus is ever
    part of an ordering comparison. *)
Lemma run_scores_are_tier_bases cs ms subs pls ens ops e :
  Forall prompt ops ->
  e ∈ waiting_list (run ops (mkDB cs ms subs pls ens [])) ->
  tier_base (WaitingList.priority_score e).
Proof.
  intros Hp.
  assert (forall db,
            (forall i, i ∈ identity <$> waiting_list db -> tier_base i.1.2) ->
            forall i, i ∈ identity <$> waiting_list (run ops db) ->
                      tier_base i.1.2) as H.
  { unfold run. induction Hp as [|o ops Ho Hops IH]; intros db Hdb; [done|].
    simpl. apply (IH (step db o)). intros i Hi.
    destruct (step_identities db o) as (new & Heq & Hnew).
    rewrite Heq in Hi. apply elem_of_app in Hi as [Hi|Hi]; [by apply Hdb|].
    by apply Hnew. }
  intros He.
  apply (H (mkDB cs ms subs pls ens []) ) with (i := identity e).
  - intros i Hi. simpl in Hi. by apply elem_of_nil in Hi.
  - by apply list_elem_of_fmap_2.
Qed.

Lemma add_stores_entry clk new_id s m db db' e :
  add_to_waiting_list clk new_id s m db = (db', inr e) ->
  entry_of new_id db' = Some e.
Proof.
  intros Hadd.
  destruct (add_to_waiting_list_inv _ _ _ _ _ _ _ Hadd) as (He & Hfresh & ->).
  unfold entry_of. simpl. rewrite filter_app.
  rewrite filter_none.
  - rewrite filter_cons_True; [done|]. by rewrite He.
  - intros x Hx Hid. apply Hfresh. unfold ids.
    apply (list_elem_of_fmap_2 WaitingList.id) in Hx.
    rewrite flush_keeps in Hx; [by rewrite <- Hid|].
    intros i f Hc y. unfold shifted_down in Hc.
    by apply list_elem_of_fmap in Hc as (z & [= _ ->] & _).
Qed.

(** C10, as the code has it. When [add_to_waiting_list] succeeds and its
    two clock readings are less than an hour apart, the score it stores
    is the tier base alone (1000, 100 or 0): the enqueue time it passes to
    the calculator is the time it has just read, so the whole-hours bonus
    is 0. The entry returned is the row stored under the identifier
    drawn. No later history of operations changes the stored score, or
    the identifier, session, member and enqueue time, of any entry of the
    table: after every history the table has a row with that identifier,
    that score and that enqueue time. *)
Theorem stored_score_is_tier_base clk new_id s m db db' e :
  add_to_waiting_list clk new_id s m db = (db', inr e) ->
  Z.abs (clk 1%nat - clk 0%nat) < 3600000000 ->
  WaitingList.created_at e = clk 0%nat
  ∧ whole_hours (WaitingList.created_at e) (clk 1%nat) = 0
  ∧ WaitingList.priority_score e = base_score (active_subscription m db)
  ∧ tier_base (WaitingList.priority_score e)
  ∧ (forall ops,
       identity <$> waiting_list db'
       `prefix_of` identity <$> waiting_list (run ops db'))
  ∧ entry_of new_id db' = Some e
  ∧ (forall ops,
       exists row,
         row ∈ waiting_list (run ops db')
         ∧ WaitingList.id row = new_id
         ∧ WaitingList.priority_score row
           = base_score (active_subscription m db)
         ∧ WaitingList.created_at row = clk 0%nat).
Proof.
  intros Hadd Hclk.
  destruct (add_to_waiting_list_inv _ _ _ _ _ _ _ Hadd) as (He & _ & _).
  assert (WaitingList.priority_score e = base_score (active_subscription m db))
    as Hscore.
  { rewrite He. simpl. unfold calculate_priority_score.
    rewrite whole_hours_prompt by done. lia. }
  pose proof (add_stores_entry clk new_id s m db db' e Hadd) as Hstored.
  split_and!.
  - by rewrite He.
  - rewrite He. simpl. by apply whole_hours_prompt.
  - exact Hscore.
  - rewrite Hscore. apply base_score_tier.
  - intros ops. apply run_identities.
  - exact Hstored.
  - intros ops.
    destruct (entry_of_Some new_id db' e Hstored) as [Hin _].
    destruct (run_identities ops db') as [rest Hrest].
    assert (identity e ∈ identity <$> waiting_list (run ops db')) as Hrow.
    { rewrite Hrest. apply elem_of_app. left. by apply list_elem_of_fmap_2. }
    apply list_elem_of_fmap in Hrow as (row & Hrow & Hrin).
    exists row. unfold identity in Hrow. injection Hrow as Hi _ _ Hp Hc.
    split_and!; [done| | |].
    + rewrite <- Hi. by rewrite He.
    + by rewrite <- Hp.
    + rewrite <- Hc. by rewrite He.
Qed.

(** C10, as the claim states it, fails when the clock moves by an hour
    between the two readings of [add_to_waiting_list], as the local wall
    clock does at a change to daylight saving time. Ann, on a monthly
    plan, is in the queue since time 1000. Dee, on a monthly plan too,
    joins at time 5000, and the calculator reads the clock an hour later:
    the score stored for her is 101, which is no tier base, and she is
    placed first, ahead of Ann. *)
Lemma add_stores_wait_bonus :
  run [Add (Example.clock 1000) "w1" "S" "M1"] Example.gym
  = with_waiting_list [Example.waiting "w1" "M1" 1 100 1000] Example.gym
  ∧ add_to_waiting_list (jumping_clock 5000 3600000000) "w4" "S" "M4"
      (with_waiting_list [Example.waiting "w1" "M1" 1 100 1000] Example.gym)
    = (with_waiting_list [Example.waiting "w1" "M1" 2 100 1000;
                          Example.waiting "w4" "M4" 1 101 5000] Example.gym,
       inr (Example.waiting "w4" "M4" 1 101 5000))
  ∧ base_score
      (active_subscription "M4"
         (with_waiting_list [Example.waiting "w1" "M1" 1 100 1000]
            Example.gym)) = 100
  ∧ ¬ tier_base 101.
Proof.
  split_and!; [vm_compute; reflexivity..|].
  unfold tier_base. lia.
Qed.

Lemma stored_score_is_tier_base_witness :
  exists db' e,
    add_to_waiting_list (Example.clock 2000) "w2" "S" "M2" Example.gym
    = (db', inr e)
    ∧ WaitingList.priority_score e = 1000.
Proof.
  destruct (add_to_waiting_list (Example.clock 2000) "w2" "S" "M2" Example.gym)
    as [db' [err|e]] eqn:Hadd; [vm_compute in Hadd; discriminate|].
  exists db', e. split; [reflexivity|].
  destruct (stored_score_is_tier_base (Example.clock 2000) "w2" "S" "M2"
              Example.gym db' e Hadd) as (_ & _ & Hs & _).
  - vm_compute. reflexivity.
  - rewrite Hs. vm_compute. reflexivity.
Defined.

(** ** C2: the expiry sweep *)




(** The service never reaches it: the attribute it asks the repository
    for does not exist. *)
Lemma service_check_expired_assignments_raises clk session_id db :
  service_check_expired_assignments clk session_id db
  = (db, inl (AttributeError
                "'db_waiting_list' object has no attribute 'expire_assignments'")).
Proof. reflexivity. Qed.

Lemma api_check_expired_assignments_raises clk session_id db :
  api_check_expired_assignments clk session_id db
  = (db, inl (AppError
                "Failed to check expired assignments: 'db_waiting_list' object has no attribute 'expire_assignments'")).
Proof. reflexivity. Qed.

(** C2. On the state where Bob's hold has run out, the repository method
    [check_expired_assignments] processes one entry and leaves it
    [EXPIRED]; the service method [check_expired_assignments], and the
    endpoint on top of it, raise instead: the service calls
    [expire_assignments], which the repository does not define. The entry
    stays [ASSIGNED] and no count is returned. *)
Theorem service_sweep_fails_on_overdue_entry :
  let clk := Example.clock 86400003001 in
  (check_expired_assignments clk None Example.held).2 = 1%nat
  ∧ status_of "w2" (check_expired_assignments clk None Example.held).1
    = Some WaitingListStatus.EXPIRED
  ∧ service_check_expired_assignments clk None Example.held
    = (Example.held,
       inl (AttributeError
              "'db_waiting_list' object has no attribute 'expire_assignments'"))
  ∧ status_of "w2" (service_check_expired_assignments clk None Example.held).1
    = Some WaitingListStatus.ASSIGNED
  ∧ (api_check_expired_assignments clk None Example.held).2
    = inl (AppError
             "Failed to check expired assignments: 'db_waiting_list' object has no attribute 'expire_assignments'").
Proof. split_and!; vm_compute; reflexivity. Qed.

(** ** C9: the listing of a queue *)

Lemma StronglySorted_fmap_filter {A} (key : A -> Z) (P : A -> Prop)
    `{!forall x, Decision (P x)} (l : list A) :
  StronglySorted Z.le (key <$> l) -> StronglySorted Z.le (key <$> filter P l).
Proof.
  induction l as [|a l IH]; intros Hs; [done|].
  rewrite fmap_cons in Hs. apply StronglySorted_inv in Hs as [Hs Hall].
  destruct (decide (P a)).
  - rewrite filter_cons_True by done. rewrite fmap_cons.
    constructor; [by apply IH|].
    rewrite Forall_forall in Hall. apply Forall_forall. intros y Hy.
    apply Hall. apply list_elem_of_fmap in Hy as (x & -> & Hx).
    apply list_elem_of_fmap_2. by apply list_elem_of_filter in Hx as [_ ?].
  - rewrite filter_cons_False by done. by apply IH.
Qed.

Lemma queue_row_position now r :
  QueueRow.position (queue_row now r) = WaitingList.position r.1.
Proof. by destruct r. Qed.

Lemma queue_row_status now r :
  QueueRow.status (queue_row now r) = WaitingList.status r.1.
Proof. by destruct r. Qed.

Lemma get_waiting_list_positions clk s db :
  QueueRow.position <$> get_waiting_list clk s db
  = (fun r => WaitingList.position r.1) <$> session_entries s db.
Proof.
  unfold get_waiting_list. rewrite fmap_imap.
  rewrite <- imap_const. apply imap_ext. intros i r _. simpl.
  apply queue_row_position.
Qed.

Lemma session_entries_sorted s db :
  StronglySorted Z.le
    ((fun r : WaitingList.t * Member.t => WaitingList.position r.1)
       <$> session_entries s db).
Proof.
  unfold session_entries.
  apply (StronglySorted_fmap _
           (key_le (fun r : WaitingList.t * Member.t => WaitingList.position r.1))
           Z.le);
    [done|apply order_by_sorted].
Qed.

Lemma elem_of_session_entries s db wl mb :
  (wl, mb) ∈ session_entries s db
  <-> wl ∈ waiting_list db ∧ mb ∈ members db
      ∧ Member.id mb = WaitingList.member_id wl
      ∧ WaitingList.class_session_id wl = s.
Proof.
  unfold session_entries. rewrite order_by_Permutation.
  rewrite list_elem_of_filter, elem_of_join. unfold member_on. simpl. tauto.
Qed.

(** C9, as the code has it. [get_waiting_list] returns one list: a row
    for every waiting-list entry of the session whose member exists,
    whatever its status, by ascending stored position. The [WAITING] rows
    are therefore in ascending position among themselves, and an
    [ASSIGNED] entry is a row of the same list, not reported apart. Every
    row carries [waiting_hours], the time from the entry's [created_at]
    to the clock reading, in hours. *)
Theorem get_waiting_list_spec clk s db :
  let rows := get_waiting_list clk s db in
  StronglySorted Z.le (QueueRow.position <$> rows)
  ∧ StronglySorted Z.le
      (QueueRow.position
         <$> filter (fun r => QueueRow.status r = WaitingListStatus.WAITING) rows)
  ∧ (forall wl mb,
       wl ∈ waiting_list db -> WaitingList.class_session_id wl = s ->
       mb ∈ members db -> Member.id mb = WaitingList.member_id wl ->
       exists row,
         row ∈ rows
         ∧ QueueRow.id row = WaitingList.id wl
         ∧ QueueRow.status row = WaitingList.status wl
         ∧ QueueRow.position row = WaitingList.position wl)
  ∧ (forall i row,
       rows !! i = Some row ->
       exists wl mb,
         wl ∈ waiting_list db ∧ WaitingList.class_session_id wl = s
         ∧ mb ∈ members db ∧ Member.id mb = WaitingList.member_id wl
         ∧ row = queue_row (clk i) (wl, mb)
         ∧ QueueRow.waiting_hours row
           = Qmake (clk i - WaitingList.created_at wl) 3600000000).
Proof.
  intros rows.
  assert (StronglySorted Z.le (QueueRow.position <$> rows)) as Hsorted.
  { unfold rows. rewrite get_waiting_list_positions.
    apply session_entries_sorted. }
  split_and!.
  - exact Hsorted.
  - by apply StronglySorted_fmap_filter.
  - intros wl mb Hwl Hs Hmb Hid.
    assert ((wl, mb) ∈ session_entries s db) as Hin
      by (by apply elem_of_session_entries).
    apply list_elem_of_lookup in Hin as [i Hi].
    exists (queue_row (clk i) (wl, mb)). split; [|done].
    apply list_elem_of_lookup. exists i. unfold rows, get_waiting_list.
    by rewrite list_lookup_imap, Hi.
  - intros i row Hrow. unfold rows, get_waiting_list in Hrow.
    rewrite list_lookup_imap in Hrow.
    destruct (session_entries s db !! i) as [[wl mb]|] eqn:Hi; [|done].
    injection Hrow as <-.
    apply list_elem_of_lookup_2 in Hi.
    apply elem_of_session_entries in Hi as (? & ? & ? & ?).
    exists wl, mb. split_and!; done.
Qed.

(** C9, as the claim states it, fails: on the state where Bob holds the
    place, the list has Bob's [ASSIGNED] entry among the rows, at the same
    position 1 as Ann's [WAITING] entry. *)
Lemma get_waiting_list_mixes_assigned :
  (fun r => (QueueRow.id r, QueueRow.status r, QueueRow.position r))
    <$> get_waiting_list (Example.clock 4000) "S" Example.held
  = [("w1", WaitingListStatus.WAITING, 1);
     ("w2", WaitingListStatus.ASSIGNED, 1)].
Proof. vm_compute. reflexivity. Qed.

(** * Further properties of the queue *)

(** ** When [add_to_waiting_list] succeeds *)

Lemma add_to_waiting_list_checks clk new_id s m db db' e :
  add_to_waiting_list clk new_id s m db = (db', inr e) ->
  (exists c, head (filter (fun c => ClassSession.id c = s) (class_session db))
             = Some c
             ∧ ClassSession.status c ≠ SessionStatus.CLOSED)
  ∧ (exists x, head (filter (fun x => Member.id x = m) (members db)) = Some x)
  ∧ head (filter (already_enrolled s m) (enrollment db)) = None
  ∧ head (filter (already_waiting s m) (waiting_list db)) = None.
Proof.
  unfold add_to_waiting_list, insert_waiting_list, first_or_raise.
  unfold transaction, bind, raise, ret.
  intros H. repeat (case_match; simplify_eq/=; try done).
  split_and!; eauto.
Qed.

Lemma add_to_waiting_list_other_tables clk new_id s m db :
  let db' := (add_to_waiting_list clk new_id s m db).1 in
  class_session db' = class_session db ∧ members db' = members db
  ∧ subscriptions db' = subscriptions db ∧ plans db' = plans db
  ∧ enrollment db' = enrollment db.
Proof.
  unfold add_to_waiting_list, insert_waiting_list, first_or_raise.
  unfold transaction, bind, raise, ret.
  repeat (case_match; simplify_eq/=; try done).
Qed.

(** What [add_to_waiting_list] needs to succeed, and what it then returns. *)
Lemma add_succeeds clk new_id s m db :
  unique_ids db ->
  (exists c, c ∈ class_session db ∧ ClassSession.id c = s) ->
  (forall c, c ∈ class_session db -> ClassSession.id c = s ->
             ClassSession.status c ≠ SessionStatus.CLOSED) ->
  (exists x, x ∈ members db ∧ Member.id x = m) ->
  (forall en, en ∈ enrollment db -> ¬ already_enrolled s m en) ->
  (forall e, e ∈ waiting_list db -> ¬ already_waiting s m e) ->
  new_id ∉ ids db ->
  exists db' e,
    add_to_waiting_list clk new_id s m db = (db', inr e)
    ∧ WaitingList.id e = new_id
    ∧ WaitingList.class_session_id e = s
    ∧ WaitingList.member_id e = m
    ∧ WaitingList.status e = WaitingListStatus.WAITING
    ∧ WaitingList.created_at e = clk 0%nat
    ∧ WaitingList.approval_deadline e = None
    ∧ WaitingList.assigned_at e = None
    ∧ WaitingList.confirmed_at e = None
    ∧ WaitingList.cancelled_at e = None
    ∧ e ∈ waiting_list db'
    ∧ length (waiting_entries s db') = S (length (waiting_entries s db))
    ∧ enrollment db' = enrollment db.
Proof.
  intros Hids Hex Hop Hm Hen Hq Hfresh.
  destruct (add_to_waiting_list clk new_id s m db) as [db' [err|e]] eqn:Hadd.
  - exfalso. revert Hadd.
    unfold add_to_waiting_list, insert_waiting_list, first_or_raise.
    unfold transaction, bind, raise, ret.
    apply (head_filter_is_Some (fun c => ClassSession.id c = s)) in Hex as [c Hc].
    rewrite Hc. apply head_filter_Some in Hc as [? ?].
    rewrite decide_True by (by apply Hop).
    apply (head_filter_is_Some (fun x => Member.id x = m)) in Hm as [x Hx].
    rewrite Hx.
    rewrite decide_True by (by apply head_filter_None).
    rewrite decide_True by (by apply head_filter_None).
    rewrite decide_False; [done|].
    intros Hin. apply Hfresh. unfold ids. simpl in Hin.
    rewrite flush_keeps in Hin; [done|].
    intros i f Hc' y. unfold shifted_down in Hc'.
    by apply list_elem_of_fmap in Hc' as (z & [= _ ->] & _).
  - exists db', e.
    pose proof (add_entry clk new_id s m db db' e Hadd) as He.
    pose proof (add_waiting_entries clk new_id s m db db' e Hids Hadd) as Hw.
    pose proof (add_waiting_list clk new_id s m db db' e Hids Hadd) as Ht.
    destruct (add_to_waiting_list_other_tables clk new_id s m db)
      as (_ & _ & _ & _ & Hen').
    rewrite Hadd in Hen'. simpl in Hen'.
    split_and!; try (by rewrite He); try done.
    + rewrite Ht. apply elem_of_app. right. by apply list_elem_of_singleton.
    + rewrite Hw, length_app, length_fmap. simpl. lia.
Qed.

(** X1. [add_to_waiting_list] succeeds whenever the session exists and is
    not closed, the member exists, holds no [REGISTERED] enrollment and no
    [WAITING] or [ASSIGNED] entry for the session, and the identifier drawn
    is free: it returns a [WAITING] entry for the pair, enqueued at the
    clock reading, without hold or terminal timestamps, the queue of the
    session grows by one and the other tables stay as they are. *)
Theorem add_to_waiting_list_succeeds clk new_id s m db :
  unique_ids db ->
  (exists c, c ∈ class_session db ∧ ClassSession.id c = s) ->
  (forall c, c ∈ class_session db -> ClassSession.id c = s ->
             ClassSession.status c ≠ SessionStatus.CLOSED) ->
  (exists x, x ∈ members db ∧ Member.id x = m) ->
  (forall en, en ∈ enrollment db -> ¬ already_enrolled s m en) ->
  (forall e, e ∈ waiting_list db -> ¬ already_waiting s m e) ->
  new_id ∉ ids db ->
  exists db' e,
    add_to_waiting_list clk new_id s m db = (db', inr e)
    ∧ WaitingList.id e = new_id
    ∧ WaitingList.class_session_id e = s
    ∧ WaitingList.member_id e = m
    ∧ WaitingList.status e = WaitingListStatus.WAITING
    ∧ WaitingList.created_at e = clk 0%nat
    ∧ WaitingList.approval_deadline e = None
    ∧ WaitingList.assigned_at e = None
    ∧ WaitingList.confirmed_at e = None
    ∧ WaitingList.cancelled_at e = None
    ∧ e ∈ waiting_list db'
    ∧ length (waiting_entries s db') = S (length (waiting_entries s db))
    ∧ enrollment db' = enrollment db.
Proof. exact (add_succeeds clk new_id s m db). Qed.

Lemma add_to_waiting_list_succeeds_witness :
  unique_ids Example.queue
  ∧ exists db' e,
      add_to_waiting_list (Example.clock 5000) "w4" "S" "M4" Example.queue
      = (db', inr e)
      ∧ WaitingList.member_id e = "M4"
      ∧ length (waiting_entries "S" db') = 3%nat.
Proof.
  assert (unique_ids Example.queue) as Hu
    by (apply (bool_decide_unpack _); vm_compute; exact I).
  split; [exact Hu|].
  destruct (add_to_waiting_list_succeeds (Example.clock 5000) "w4" "S" "M4"
              Example.queue Hu)
    as (db' & e & Hadd & _ & _ & Hm & _ & _ & _ & _ & _ & _ & _ & Hlen & _).
  - exists (ClassSession.mk "S" "Yoga" 1 SessionStatus.OPEN).
    split; [left|reflexivity].
  - intros c Hc _. apply list_elem_of_singleton in Hc as ->. discriminate.
  - exists (Member.mk "M4" "Dee"). split; [|reflexivity].
    apply list_elem_of_lookup. exists 3%nat. reflexivity.
  - intros en Hen. vm_compute in Hen. by apply elem_of_nil in Hen.
  - apply Forall_forall. apply (bool_decide_unpack _). vm_compute. exact I.
  - apply (bool_decide_unpack _). vm_compute. exact I.
  - exists db', e. split_and!; [exact Hadd|exact Hm|exact Hlen].
Defined.

(** ** [confirm_assignment] within the deadline *)

Lemma flush_one_row db e f :
  unique_ids db -> e ∈ waiting_list db ->
  flush [(WaitingList.id e, f)] (waiting_list db)
  = (fun x => if decide (x = e) then f x else x) <$> waiting_list db.
Proof.
  intros Hids He.
  pose proof (flush_one db e f) as Hf. simpl in Hf. rewrite Hf.
  apply fmap_ext_elem_of. intros x Hx.
  destruct (decide (WaitingList.id x = WaitingList.id e)) as [Heq|Hne].
  - assert (x = e) as -> by (by apply (NoDup_fmap_elem_inj _ _ _ _ Hids Hx He)).
    by rewrite decide_True.
  - rewrite decide_False; [done|]. by intros ->.
Qed.

Lemma confirm_in_time_result clk new_id e db :
  new_id ∉ Enrollment.id <$> enrollment db ->
  let en := Enrollment.mk new_id (WaitingList.class_session_id e)
              (WaitingList.member_id e) EnrollmentStatus.REGISTERED
              (clk 0%nat) None None in
  confirm_in_time clk new_id e db
  = (with_waiting_list
       (flush [(WaitingList.id e,
                fun row => WaitingList.set_confirmed_at (Some (clk 1%nat))
                             (WaitingList.set_status
                                WaitingListStatus.CONFIRMED row))]
              (waiting_list db))
       (with_enrollment (enrollment db ++ [en]) db),
     inr en).
Proof.
  intros Hfresh en.
  unfold confirm_in_time, transaction, bind, insert_enrollment, ret.
  by rewrite decide_False.
Qed.

Lemma confirm_in_time_collision clk new_id e db :
  new_id ∈ Enrollment.id <$> enrollment db ->
  confirm_in_time clk new_id e db
  = (db, inl (IntegrityError "Duplicate entry for key 'PRIMARY'")).
Proof.
  intros Hin.
  unfold confirm_in_time, transaction, bind, insert_enrollment, raise.
  by rewrite decide_True.
Qed.

Lemma confirm_assignment_in_time clk new_id w db e :
  entry_of w db = Some e ->
  WaitingList.status e = WaitingListStatus.ASSIGNED ->
  (forall d, WaitingList.approval_deadline e = Some d -> clk 0%nat <= d) ->
  confirm_assignment clk new_id w db
  = confirm_in_time (fun k => clk (S k)) new_id e db.
Proof.
  intros He Hst Hd. unfold confirm_assignment. fold (entry_of w db).
  rewrite He. rewrite decide_False by (by rewrite Hst; intros ?).
  destruct (WaitingList.approval_deadline e) as [d|]; [|done].
  rewrite decide_False; [done|]. specialize (Hd d eq_refl). lia.
Qed.

Lemma confirm_assignment_not_assigned clk new_id w db st :
  status_of w db = Some st -> st ≠ WaitingListStatus.ASSIGNED ->
  confirm_assignment clk new_id w db
  = (db, inl (AppError "Waiting list entry is not in ASSIGNED status")).
Proof.
  unfold status_of. intros Hs Hne.
  destruct (entry_of w db) as [e|] eqn:He; [|done].
  injection Hs as <-.
  unfold confirm_assignment. fold (entry_of w db). rewrite He.
  by rewrite decide_True.
Qed.

Lemma entry_of_None w db :
  entry_of w db = None <-> forall x, x ∈ waiting_list db -> WaitingList.id x ≠ w.
Proof. unfold entry_of. apply head_filter_None. Qed.

(** X2. [confirm_assignment] changes nothing when it rejects: an
    identifier that no entry has raises [NotFoundError], and an entry that
    is not [ASSIGNED] (still [WAITING], or already [CONFIRMED], [EXPIRED]
    or [CANCELLED]) raises [AppError]; in both cases the database is as
    before and no enrollment is created. *)
Theorem confirm_assignment_rejects clk new_id w db :
  ((forall x, x ∈ waiting_list db -> WaitingList.id x ≠ w) ->
   confirm_assignment clk new_id w db
   = (db, inl (NotFoundError "Waiting list entry not found")))
  ∧ (forall e, entry_of w db = Some e ->
       WaitingList.status e ≠ WaitingListStatus.ASSIGNED ->
       confirm_assignment clk new_id w db
       = (db, inl (AppError "Waiting list entry is not in ASSIGNED status"))).
Proof.
  split.
  - intros Hno. apply entry_of_None in Hno.
    unfold confirm_assignment. fold (entry_of w db). by rewrite Hno.
  - intros e He Hst.
    apply (confirm_assignment_not_assigned clk new_id w db (WaitingList.status e));
      [|done].
    unfold status_of. by rewrite He.
Qed.

(** What a confirmation within the deadline does. *)
Lemma confirm_in_time_effect clk new_id w db e :
  unique_ids db ->
  entry_of w db = Some e ->
  WaitingList.status e = WaitingListStatus.ASSIGNED ->
  (forall d, WaitingList.approval_deadline e = Some d -> clk 0%nat <= d) ->
  new_id ∉ Enrollment.id <$> enrollment db ->
  let r := confirm_assignment clk new_id w db in
  let en := Enrollment.mk new_id (WaitingList.class_session_id e)
              (WaitingList.member_id e) EnrollmentStatus.REGISTERED
              (clk 1%nat) None None in
  r.2 = inr en
  ∧ enrollment r.1 = enrollment db ++ [en]
  ∧ waiting_list r.1
    = (fun x => if decide (x = e)
                then WaitingList.set_confirmed_at (Some (clk 2%nat))
                       (WaitingList.set_status WaitingListStatus.CONFIRMED x)
                else x) <$> waiting_list db
  ∧ status_of w r.1 = Some WaitingListStatus.CONFIRMED
  ∧ (forall s, waiting_entries s r.1 = waiting_entries s db).
Proof.
  intros Hids He Hst Hd Hfresh r en.
  destruct (entry_of_Some w db e He) as [Hin Hw].
  assert (r = (with_waiting_list
                 (flush [(WaitingList.id e,
                          fun row => WaitingList.set_confirmed_at
                                       (Some (clk 2%nat))
                                       (WaitingList.set_status
                                          WaitingListStatus.CONFIRMED row))]
                        (waiting_list db))
                 (with_enrollment (enrollment db ++ [en]) db),
               inr en)) as Hr.
  { unfold r. rewrite (confirm_assignment_in_time clk new_id w db e) by done.
    by rewrite confirm_in_time_result. }
  assert (waiting_list r.1
          = (fun x => if decide (x = e)
                      then WaitingList.set_confirmed_at (Some (clk 2%nat))
                             (WaitingList.set_status
                                WaitingListStatus.CONFIRMED x)
                      else x) <$> waiting_list db) as Htable.
  { rewrite Hr. simpl. by apply flush_one_row. }
  assert (unique_ids r.1) as Hids'.
  { unfold unique_ids, ids. rewrite Htable, <- list_fmap_compose.
    rewrite (fmap_ext_elem_of _ WaitingList.id); [exact Hids|].
    intros x _. simpl. by case_decide. }
  split_and!.
  - by rewrite Hr.
  - by rewrite Hr.
  - exact Htable.
  - apply (status_of_found r.1
             (WaitingList.set_confirmed_at (Some (clk 2%nat))
                (WaitingList.set_status WaitingListStatus.CONFIRMED e)) Hids');
      [|done].
    rewrite Htable. apply list_elem_of_fmap. exists e.
    split; [by rewrite decide_True|done].
  - intros s. unfold r.
    rewrite (confirm_assignment_in_time clk new_id w db e) by done.
    by apply confirm_in_time_queues.
Qed.

(** X3. With unique keys, confirming an [ASSIGNED] entry no later than its
    deadline (a reading equal to the deadline is in time; an entry without
    deadline is always in time) with a free enrollment identifier succeeds:
    it returns a [REGISTERED] enrollment for the entry's session and
    member, which is the one row the enrollment table gains; the entry
    becomes [CONFIRMED] with [confirmed_at] stamped, no other row of the
    waiting list changes, and no queue moves. *)
Theorem confirm_assignment_in_time_spec clk new_id w db e :
  unique_ids db ->
  entry_of w db = Some e ->
  WaitingList.status e = WaitingListStatus.ASSIGNED ->
  (forall d, WaitingList.approval_deadline e = Some d -> clk 0%nat <= d) ->
  new_id ∉ Enrollment.id <$> enrollment db ->
  let r := confirm_assignment clk new_id w db in
  let en := Enrollment.mk new_id (WaitingList.class_session_id e)
              (WaitingList.member_id e) EnrollmentStatus.REGISTERED
              (clk 1%nat) None None in
  r.2 = inr en
  ∧ enrollment r.1 = enrollment db ++ [en]
  ∧ waiting_list r.1
    = (fun x => if decide (x = e)
                then WaitingList.set_confirmed_at (Some (clk 2%nat))
                       (WaitingList.set_status WaitingListStatus.CONFIRMED x)
                else x) <$> waiting_list db
  ∧ status_of w r.1 = Some WaitingListStatus.CONFIRMED
  ∧ (forall s, waiting_entries s r.1 = waiting_entries s db).
Proof. exact (confirm_in_time_effect clk new_id w db e). Qed.

Lemma confirm_assignment_in_time_spec_witness :
  unique_ids Example.held
  ∧ status_of "w2"
      (confirm_assignment (Example.clock 86400003000) "e1" "w2" Example.held).1
    = Some WaitingListStatus.CONFIRMED.
Proof.
  assert (unique_ids Example.held) as Hu
    by (apply (bool_decide_unpack _); vm_compute; exact I).
  split; [exact Hu|].
  destruct (confirm_assignment_in_time_spec (Example.clock 86400003000)
              "e1" "w2" Example.held
              (WaitingList.mk "w2" "S" "M2" WaitingListStatus.ASSIGNED 1 1000
                 (Some 86400003000) 2000 (Some 3000) None None) Hu)
    as (_ & _ & _ & Hst & _).
  - reflexivity.
  - reflexivity.
  - intros d [= <-]. vm_compute. discriminate.
  - intros Hin. vm_compute in Hin. by apply elem_of_nil in Hin.
  - exact Hst.
Defined.

(** X4. An entry is settled once: with unique keys, when
    [confirm_assignment] has run on an [ASSIGNED] entry without a key
    collision, the entry is [CONFIRMED] or [EXPIRED], and every later
    [confirm_assignment] of the same identifier raises [AppError] and
    changes nothing, so it creates no second enrollment. *)
Theorem confirm_assignment_settles clk new_id w db e :
  unique_ids db ->
  entry_of w db = Some e ->
  WaitingList.status e = WaitingListStatus.ASSIGNED ->
  let r := confirm_assignment clk new_id w db in
  (forall message, r.2 ≠ inl (IntegrityError message)) ->
  (status_of w r.1 = Some WaitingListStatus.CONFIRMED
   ∨ status_of w r.1 = Some WaitingListStatus.EXPIRED)
  ∧ forall clk' new_id',
      confirm_assignment clk' new_id' w r.1
      = (r.1, inl (AppError "Waiting list entry is not in ASSIGNED status")).
Proof.
  intros Hids He Hst r Hok.
  assert (status_of w r.1 = Some WaitingListStatus.CONFIRMED
          ∨ status_of w r.1 = Some WaitingListStatus.EXPIRED) as Hsettled.
  { destruct (WaitingList.approval_deadline e) as [d|] eqn:Hd.
    - destruct (decide (clk 0%nat > d)) as [Hlate|Hin_time].
      + right. by apply (confirm_expired_status clk new_id w db e d).
      + left. destruct (decide (new_id ∈ Enrollment.id <$> enrollment db))
          as [Hc|Hfresh].
        * exfalso. unfold r in Hok.
          rewrite (confirm_assignment_in_time clk new_id w db e) in Hok;
            [|done..|intros d' Hd'; rewrite Hd in Hd'; simplify_eq; lia].
          rewrite confirm_in_time_collision in Hok by done. by eapply Hok.
        * apply (confirm_in_time_effect clk new_id w db e);
            try done.
          intros d' Hd'. rewrite Hd in Hd'. simplify_eq. lia.
    - left. destruct (decide (new_id ∈ Enrollment.id <$> enrollment db))
        as [Hc|Hfresh].
      + exfalso. unfold r in Hok.
        rewrite (confirm_assignment_in_time clk new_id w db e) in Hok;
          [|done..|intros d' Hd'; by rewrite Hd in Hd'].
        rewrite confirm_in_time_collision in Hok by done. by eapply Hok.
      + apply (confirm_in_time_effect clk new_id w db e); try done.
        intros d' Hd'. by rewrite Hd in Hd'. }
  split; [exact Hsettled|].
  intros clk' new_id'.
  destruct Hsettled as [Hs|Hs];
    by apply (confirm_assignment_not_assigned clk' new_id' w r.1 _ Hs).
Qed.

Lemma confirm_assignment_settles_witness :
  unique_ids Example.held
  ∧ confirm_assignment (Example.clock 86400009000) "e2" "w2"
      (confirm_assignment (Example.clock 86400003000) "e1" "w2" Example.held).1
    = ((confirm_assignment (Example.clock 86400003000) "e1" "w2" Example.held).1,
       inl (AppError "Waiting list entry is not in ASSIGNED status")).
Proof.
  assert (unique_ids Example.held) as Hu
    by (apply (bool_decide_unpack _); vm_compute; exact I).
  split; [exact Hu|].
  destruct (confirm_assignment_settles (Example.clock 86400003000)
              "e1" "w2" Example.held
              (WaitingList.mk "w2" "S" "M2" WaitingListStatus.ASSIGNED 1 1000
                 (Some 86400003000) 2000 (Some 3000) None None) Hu)
    as (_ & Hagain).
  - reflexivity.
  - reflexivity.
  - intros message. vm_compute. discriminate.
  - apply Hagain.
Defined.

(** ** A second [add_to_waiting_list] *)

(** X5. A member cannot queue twice: right after a successful
    [add_to_waiting_list], every further call for the same session and
    member, whatever the clock and the identifier drawn, raises
    [DuplicateError] and leaves the database as the first call left it. *)
Theorem add_to_waiting_list_twice clk new_id s m db db' e clk' new_id' :
  unique_ids db ->
  add_to_waiting_list clk new_id s m db = (db', inr e) ->
  add_to_waiting_list clk' new_id' s m db'
  = (db', inl (DuplicateError "Member is already on the waiting list")).
Proof.
  intros Hids Hadd.
  destruct (add_to_waiting_list_checks clk new_id s m db db' e Hadd)
    as ((c & Hc & Hopen) & (x & Hx) & Hen & _).
  pose proof (add_to_waiting_list_other_tables clk new_id s m db) as Hsame.
  rewrite Hadd in Hsame. simpl in Hsame.
  destruct Hsame as (Hcs & Hms & _ & _ & Hens).
  pose proof (add_waiting_list clk new_id s m db db' e Hids Hadd) as Ht.
  pose proof (add_entry clk new_id s m db db' e Hadd) as He.
  assert (exists y, head (filter (already_waiting s m) (waiting_list db'))
                    = Some y) as [y Hy].
  { apply (head_filter_is_Some (already_waiting s m)). exists e. split.
    - rewrite Ht. apply elem_of_app. right. by apply list_elem_of_singleton.
    - rewrite He. unfold already_waiting. simpl. tauto. }
  unfold add_to_waiting_list, first_or_raise, transaction, bind, raise, ret.
  rewrite Hcs, Hms, Hens, Hc, Hx, Hen, Hy.
  rewrite decide_True by done. rewrite decide_True by done.
  by rewrite decide_False.
Qed.

Lemma add_to_waiting_list_twice_witness :
  unique_ids Example.gym
  ∧ add_to_waiting_list (Example.clock 9000) "w9" "S" "M1"
      (add_to_waiting_list (Example.clock 1000) "w1" "S" "M1" Example.gym).1
    = ((add_to_waiting_list (Example.clock 1000) "w1" "S" "M1" Example.gym).1,
       inl (DuplicateError "Member is already on the waiting list")).
Proof.
  assert (unique_ids Example.gym) as Hu
    by (apply (bool_decide_unpack _); vm_compute; exact I).
  split; [exact Hu|].
  apply (add_to_waiting_list_twice (Example.clock 1000) "w1" "S" "M1"
           Example.gym _
           (WaitingList.mk "w1" "S" "M1" WaitingListStatus.WAITING 1 100
              None 1000 None None None) (Example.clock 9000) "w9" Hu).
  reflexivity.
Defined.

(** ** From promotion to enrollment *)

Lemma promote_returns clk s hours db h :
  (promote_from_queue clk s hours db).2 = Some h ->
  exists h0,
    head (order_by_position (waiting_entries s db)) = Some h0
    ∧ h = assigned (clk 0%nat) (clk 0%nat + timedelta_hours hours) h0.
Proof.
  unfold promote_from_queue.
  destruct (head (order_by_position (waiting_entries s db))) as [h0|];
    simpl; [|done].
  intros [= <-]. by exists h0.
Qed.

Lemma promoted_in_table clk s hours db h0 :
  unique_ids db ->
  head (order_by_position (waiting_entries s db)) = Some h0 ->
  assigned (clk 0%nat) (clk 0%nat + timedelta_hours hours) h0
  ∈ waiting_list (promote_from_queue clk s hours db).1.
Proof.
  intros Hids Hh.
  rewrite (promote_result clk s hours db Hids h0 Hh). simpl.
  apply list_elem_of_fmap. exists h0. split.
  - unfold promote_row. by rewrite decide_True.
  - by destruct (first_entry_least s db h0 Hh) as (? & _).
Qed.

(** A promotion followed by the confirmation of the promoted entry. *)
Lemma promoted_can_confirm clk s hours db h clk' new_id d :
  unique_ids db ->
  (promote_from_queue clk s hours db).2 = Some h ->
  deadline_of (WaitingList.id h) (promote_from_queue clk s hours db).1
  = Some d ->
  clk' 0%nat <= d ->
  new_id ∉ Enrollment.id <$> enrollment db ->
  let db1 := (promote_from_queue clk s hours db).1 in
  let r := confirm_assignment clk' new_id (WaitingList.id h) db1 in
  let en := Enrollment.mk new_id s (WaitingList.member_id h)
              EnrollmentStatus.REGISTERED (clk' 1%nat) None None in
  r.2 = inr en
  ∧ enrollment r.1 = enrollment db ++ [en]
  ∧ status_of (WaitingList.id h) r.1 = Some WaitingListStatus.CONFIRMED
  ∧ (forall s', waiting_entries s' r.1 = waiting_entries s' db1).
Proof.
  intros Hids Hret Hstored Hin_time Hfresh db1 r en.
  destruct (promote_returns clk s hours db h Hret) as (h0 & Hh0 & Hh).
  destruct (first_entry_least s db h0 Hh0) as (_ & [Hs _] & _).
  assert (unique_ids db1) as Hids1 by (by apply promote_keeps_unique_ids).
  assert (entry_of (WaitingList.id h) db1 = Some h) as Hentry.
  { apply entry_of_elem; [done|]. rewrite Hh. by apply promoted_in_table. }
  assert (enrollment db1 = enrollment db) as Hen
    by apply promote_enrollment.
  assert (WaitingList.class_session_id h = s) as Hhs by (by rewrite Hh).
  assert (WaitingList.approval_deadline h = Some d) as Hd.
  { unfold deadline_of in Hstored. fold db1 in Hstored.
    by rewrite Hentry in Hstored. }
  destruct (confirm_in_time_effect clk' new_id (WaitingList.id h) db1 h
              Hids1 Hentry) as (H1 & H2 & _ & H4 & H5).
  - by rewrite Hh.
  - intros d'. rewrite Hd. intros [= <-]. done.
  - by rewrite Hen.
  - rewrite Hhs, ?Hen in *. done.
Qed.

(** X6. The promoted member can take the place: with unique keys, when
    [promote_from_queue] has returned an entry, [confirm_assignment] on
    that entry at any clock reading that is not after the deadline its
    row holds, with a free enrollment identifier, returns a [REGISTERED]
    enrollment of the entry's member in the session, the only row the
    enrollment table gains since before the promotion; the entry is then
    [CONFIRMED] and the queues are as the promotion left them. *)
Theorem promote_then_confirm clk s hours db h clk' new_id d :
  unique_ids db ->
  (promote_from_queue clk s hours db).2 = Some h ->
  deadline_of (WaitingList.id h) (promote_from_queue clk s hours db).1
  = Some d ->
  clk' 0%nat <= d ->
  new_id ∉ Enrollment.id <$> enrollment db ->
  let db1 := (promote_from_queue clk s hours db).1 in
  let r := confirm_assignment clk' new_id (WaitingList.id h) db1 in
  let en := Enrollment.mk new_id s (WaitingList.member_id h)
              EnrollmentStatus.REGISTERED (clk' 1%nat) None None in
  r.2 = inr en
  ∧ enrollment r.1 = enrollment db ++ [en]
  ∧ status_of (WaitingList.id h) r.1 = Some WaitingListStatus.CONFIRMED
  ∧ (forall s', waiting_entries s' r.1 = waiting_entries s' db1).
Proof. exact (promoted_can_confirm clk s hours db h clk' new_id d). Qed.

Lemma promote_then_confirm_witness :
  unique_ids Example.queue
  ∧ (confirm_assignment (Example.clock 5000) "e1" "w2"
       (promote_from_queue (Example.clock 3000) "S" 24 Example.queue).1).2
    = inr (Enrollment.mk "e1" "S" "M2" EnrollmentStatus.REGISTERED 5001
             None None).
Proof.
  assert (unique_ids Example.queue) as Hu
    by (apply (bool_decide_unpack _); vm_compute; exact I).
  split; [exact Hu|].
  destruct (promote_then_confirm (Example.clock 3000) "S" 24 Example.queue
              (WaitingList.mk "w2" "S" "M2" WaitingListStatus.ASSIGNED 1 1000
                 (Some 86400003000) 2000 (Some 3000) None None)
              (Example.clock 5000) "e1" 86400003000 Hu) as (Hr & _).
  - reflexivity.
  - reflexivity.
  - vm_compute. discriminate.
  - intros Hin. vm_compute in Hin. by apply elem_of_nil in Hin.
  - exact Hr.
Defined.

(** ** One open entry per member and session *)

Lemma open_pairs_fmap (G : WaitingList.t -> WaitingList.t) tbl :
  (forall x, x ∈ tbl -> pair_of (G x) = pair_of x ∧ (is_open (G x) -> is_open x)) ->
  NoDup (pair_of <$> filter is_open tbl) ->
  NoDup (pair_of <$> filter is_open (G <$> tbl)).
Proof.
  induction tbl as [|a l IH]; intros HG Hnd; [done|].
  assert (forall x, x ∈ l ->
            pair_of (G x) = pair_of x ∧ (is_open (G x) -> is_open x)) as HGl
    by (intros x Hx; apply HG; by right).
  destruct (HG a) as [Hpa Hoa]; [by left|].
  assert (NoDup (pair_of <$> filter is_open l)) as Hndl.
  { destruct (decide (is_open a)).
    - rewrite filter_cons_True, fmap_cons in Hnd by done.
      by apply NoDup_cons in Hnd as [_ ?].
    - by rewrite filter_cons_False in Hnd. }
  rewrite fmap_cons. destruct (decide (is_open (G a))) as [Ho|Ho].
  - rewrite filter_cons_True, fmap_cons by done.
    apply NoDup_cons. split; [|by apply IH].
    rewrite filter_cons_True, fmap_cons in Hnd by (by apply Hoa).
    apply NoDup_cons in Hnd as [Hnotin _].
    intros Hin. apply Hnotin.
    apply list_elem_of_fmap in Hin as (y & Hy & Hyin).
    apply list_elem_of_filter in Hyin as [Hyo Hyin].
    apply list_elem_of_fmap in Hyin as (x & -> & Hx).
    destruct (HGl x Hx) as [Hpx Hox].
    apply list_elem_of_fmap. exists x. split; [congruence|].
    apply list_elem_of_filter. split; [by apply Hox|done].
  - rewrite filter_cons_False by done. by apply IH.
Qed.

(** A flush whose changes keep the session and the member of a row and
    open no entry. *)
Lemma flush_one_entry_per_member dirty db :
  (forall i f, (i, f) ∈ dirty ->
     forall x, pair_of (f x) = pair_of x ∧ (is_open (f x) -> is_open x)) ->
  one_entry_per_member db ->
  one_entry_per_member (with_waiting_list (flush dirty (waiting_list db)) db).
Proof.
  intros Hd. unfold one_entry_per_member, open_pairs. simpl. unfold flush.
  apply open_pairs_fmap. intros x _.
  destruct (pending (WaitingList.id x) dirty) as [f|] eqn:Hp; [|done].
  apply pending_elem_of in Hp. by apply (Hd _ _ Hp).
Qed.

Lemma promote_one_entry_per_member clk s hours db :
  unique_ids db -> one_entry_per_member db ->
  one_entry_per_member (promote_from_queue clk s hours db).1.
Proof.
  intros Hids H1.
  destruct (head (order_by_position (waiting_entries s db))) as [h|] eqn:Hh.
  - rewrite (promote_result clk s hours db Hids h Hh). simpl.
    unfold one_entry_per_member, open_pairs. simpl.
    apply open_pairs_fmap; [|exact H1]. intros x Hx. split.
    + pose proof (promote_row_identity clk s hours h x) as Hi.
      unfold identity in Hi. unfold pair_of. congruence.
    + intros Ho.
      destruct (decide (WaitingList.status x = WaitingListStatus.WAITING))
        as [Hw|Hw]; [by left|].
      by rewrite (promote_row_not_waiting clk s hours db Hids h Hh x Hx Hw)
        in Ho.
  - unfold promote_from_queue. by rewrite Hh.
Qed.

Lemma promote_each_one_entry_per_member clk expired db :
  unique_ids db -> one_entry_per_member db ->
  one_entry_per_member (promote_each clk expired db).
Proof.
  revert clk db. induction expired as [|x l IH]; intros clk db Hids H1; [done|].
  simpl. apply IH; [by apply promote_keeps_unique_ids|].
  by apply promote_one_entry_per_member.
Qed.

Lemma promote_each_unique_ids clk expired db :
  unique_ids db -> unique_ids (promote_each clk expired db).
Proof.
  revert clk db. induction expired as [|x l IH]; intros clk db Hids; [done|].
  simpl. apply IH. by apply promote_keeps_unique_ids.
Qed.

Lemma closing_change st x :
  st ≠ WaitingListStatus.WAITING -> st ≠ WaitingListStatus.ASSIGNED ->
  pair_of (WaitingList.set_status st x) = pair_of x
  ∧ (is_open (WaitingList.set_status st x) -> is_open x).
Proof. intros H1 H2. split; [done|]. unfold is_open. simpl. tauto. Qed.

Lemma confirm_one_entry_per_member clk new_id w db :
  unique_ids db -> one_entry_per_member db ->
  one_entry_per_member (confirm_assignment clk new_id w db).1.
Proof.
  intros Hids H1. unfold confirm_assignment.
  destruct (head (filter (fun e => WaitingList.id e = w) (waiting_list db)))
    as [e|] eqn:He; [|done].
  case_decide; [done|].
  assert (one_entry_per_member (confirm_in_time (fun k => clk (S k)) new_id e db).1)
    as Hin_time.
  { unfold confirm_in_time, transaction, bind, insert_enrollment, raise, ret.
    case_decide; [done|]. simpl.
    apply (flush_one_entry_per_member _ (with_enrollment _ db)); [|done].
    intros i f Hin x. apply list_elem_of_singleton in Hin as [= _ ->].
    split; [done|]. unfold is_open. simpl. intros [?|?]; done. }
  destruct (WaitingList.approval_deadline e) as [d|]; [|done].
  case_decide; [|done]. simpl.
  apply promote_one_entry_per_member.
  - unfold unique_ids, ids. simpl. rewrite flush_keeps; [exact Hids|].
    intros i f Hin x. by apply list_elem_of_singleton in Hin as [= _ ->].
  - apply flush_one_entry_per_member; [|done].
    intros i f Hin x. apply list_elem_of_singleton in Hin as [= _ ->].
    by apply closing_change.
Qed.

Lemma sweep_one_entry_per_member clk scope db :
  unique_ids db -> one_entry_per_member db ->
  one_entry_per_member (check_expired_assignments clk scope db).1.
Proof.
  intros Hids H1. unfold check_expired_assignments. simpl.
  apply flush_one_entry_per_member.
  - intros i f Hin x. apply list_elem_of_fmap in Hin as (y & [= _ ->] & _).
    by apply closing_change.
  - by apply promote_each_one_entry_per_member.
Qed.

Lemma add_one_entry_per_member clk new_id s m db :
  unique_ids db -> one_entry_per_member db ->
  one_entry_per_member (add_to_waiting_list clk new_id s m db).1.
Proof.
  intros Hids H1.
  destruct (add_to_waiting_list clk new_id s m db) as [db' [err|e]] eqn:Hadd.
  - assert (db' = db) as ->; [|done].
    revert Hadd.
    unfold add_to_waiting_list, insert_waiting_list, first_or_raise.
    unfold transaction, bind, raise, ret.
    intros H. by repeat (case_match; simplify_eq/=; try done).
  - simpl.
    destruct (add_to_waiting_list_checks clk new_id s m db db' e Hadd)
      as (_ & _ & _ & Hq).
    pose proof (add_waiting_list clk new_id s m db db' e Hids Hadd) as Ht.
    pose proof (add_entry clk new_id s m db db' e Hadd) as He.
    unfold one_entry_per_member, open_pairs. rewrite Ht.
    rewrite filter_app, fmap_app.
    rewrite filter_cons_True by (rewrite He; by left).
    apply NoDup_app. split_and!.
    + apply open_pairs_fmap; [|exact H1]. intros x _.
      unfold shift_row. by case_decide.
    + intros p Hp Hp'. apply list_elem_of_singleton in Hp'. subst p.
      apply list_elem_of_fmap in Hp as (y & Hy & Hyin).
      apply list_elem_of_filter in Hyin as [Hyo Hyin].
      apply list_elem_of_fmap in Hyin as (x & -> & Hx).
      apply (proj1 (head_filter_None (already_waiting s m) _) Hq x Hx).
      assert (pair_of (shift_row s (WaitingList.position e) x) = pair_of x
              ∧ WaitingList.status (shift_row s (WaitingList.position e) x)
                = WaitingList.status x) as [Hpx Hsx]
        by (unfold shift_row; by case_decide).
      rewrite He in Hy. unfold pair_of in *. simpl in Hy.
      rewrite Hpx in Hy. injection Hy as Hy1 Hy2.
      unfold is_open in Hyo. rewrite Hsx in Hyo.
      unfold already_waiting. done.
    + apply NoDup_singleton.
Qed.

Lemma step_one_entry_per_member db o :
  unique_ids db -> one_entry_per_member db -> one_entry_per_member (step db o).
Proof.
  destruct o; simpl.
  - apply add_one_entry_per_member.
  - apply promote_one_entry_per_member.
  - apply confirm_one_entry_per_member.
  - apply sweep_one_entry_per_member.
Qed.

(** X7. In every state reached from an empty waiting list by any history
    of [add_to_waiting_list], [promote_from_queue], [confirm_assignment]
    and [check_expired_assignments] calls, no member has two open
    ([WAITING] or [ASSIGNED]) entries for one session: two open rows with
    the same session and member are the same row. *)
Theorem one_open_entry_per_member cs ms subs pls ens ops :
  let db := run ops (mkDB cs ms subs pls ens []) in
  one_entry_per_member db
  ∧ forall a b,
      a ∈ waiting_list db -> b ∈ waiting_list db ->
      is_open a -> is_open b ->
      WaitingList.class_session_id a = WaitingList.class_session_id b ->
      WaitingList.member_id a = WaitingList.member_id b ->
      a = b.
Proof.
  assert (forall db, well_formed db -> one_entry_per_member db ->
                     one_entry_per_member (run ops db)) as H.
  { unfold run. induction ops as [|o ops IH]; intros db Hwf H1; [done|].
    simpl. apply IH; [by apply step_well_formed|].
    apply step_one_entry_per_member; [by destruct Hwf|done]. }
  intros db.
  assert (one_entry_per_member db) as H1.
  { apply H; [apply empty_well_formed|]. apply NoDup_nil_2. }
  split; [exact H1|].
  intros a b Ha Hb Hoa Hob Hs Hm.
  apply (NoDup_fmap_elem_inj pair_of (filter is_open (waiting_list db)));
    [exact H1| | |].
  - by apply list_elem_of_filter.
  - by apply list_elem_of_filter.
  - unfold pair_of. by rewrite Hs, Hm.
Qed.

(** ** The order of the queues that histories reach *)

Lemma ordered_sorted s db a b :
  ordered s db ->
  a ∈ waiting_entries s db -> b ∈ waiting_entries s db ->
  WaitingList.position a < WaitingList.position b ->
  WaitingList.priority_score a > WaitingList.priority_score b
  ∨ (WaitingList.priority_score a = WaitingList.priority_score b
     ∧ WaitingList.created_at a <= WaitingList.created_at b).
Proof.
  intros Hord Ha Hb Hlt.
  destruct (decide (WaitingList.priority_score a
                    > WaitingList.priority_score b)) as [?|Hs]; [by left|].
  right.
  destruct (decide (outranks (WaitingList.priority_score b)
                      (WaitingList.created_at b) a)) as [Ho|Ho].
  - pose proof (Hord b a Hb Ha Ho). lia.
  - unfold outranks in Ho. lia.
Qed.

(** X8. In every state reached from an empty waiting list, each queue is
    sorted: of two [WAITING] entries of a session, the one at the lower
    position has the higher score, or the same score and an enqueue time
    that is not later; and two [WAITING] entries of a session never share
    a position. *)
Theorem reachable_queue_sorted cs ms subs pls ens ops s a b :
  let db := run ops (mkDB cs ms subs pls ens []) in
  a ∈ waiting_entries s db -> b ∈ waiting_entries s db ->
  (WaitingList.position a < WaitingList.position b ->
   WaitingList.priority_score a > WaitingList.priority_score b
   ∨ (WaitingList.priority_score a = WaitingList.priority_score b
      ∧ WaitingList.created_at a <= WaitingList.created_at b))
  ∧ (WaitingList.position a = WaitingList.position b -> a = b).
Proof.
  intros db Ha Hb. split.
  - apply (ordered_sorted s db); [apply run_in_order|done..].
  - destruct (run_well_formed ops _ (empty_well_formed cs ms subs pls ens))
      as [_ Hd].
    specialize (Hd s). fold db in Hd. unfold dense, positions in Hd.
    apply (NoDup_fmap_elem_inj WaitingList.position (waiting_entries s db));
      [|done..].
    rewrite Hd. apply NoDup_seqZ.
Qed.

Lemma reachable_queue_sorted_witness :
  Example.waiting "w2" "M2" 1 1000 2000 ∈ waiting_entries "S" Example.queue
  ∧ Example.waiting "w1" "M1" 2 100 1000 ∈ waiting_entries "S" Example.queue
  ∧ (1000 > 100 ∨ (1000 = 100 ∧ 2000 <= 1000)).
Proof.
  assert (Example.waiting "w2" "M2" 1 1000 2000
          ∈ waiting_entries "S" Example.queue) as Ha
    by (apply (bool_decide_unpack _); vm_compute; exact I).
  assert (Example.waiting "w1" "M1" 2 100 1000
          ∈ waiting_entries "S" Example.queue) as Hb
    by (apply (bool_decide_unpack _); vm_compute; exact I).
  split_and!; [exact Ha|exact Hb|].
  destruct (reachable_queue_sorted
              (class_session Example.gym) (members Example.gym)
              (subscriptions Example.gym) (plans Example.gym)
              (enrollment Example.gym)
              [Add (Example.clock 1000) "w1" "S" "M1";
               Add (Example.clock 2000) "w2" "S" "M2"] "S"
              (Example.waiting "w2" "M2" 1 1000 2000)
              (Example.waiting "w1" "M1" 2 100 1000) Ha Hb) as [Hsorted _].
  apply Hsorted. simpl. lia.
Defined.

(** X9. In every state reached from an empty waiting list,
    [promote_from_queue] serves the entry first in line: the entry it
    returns was [WAITING] in the session, no other [WAITING] entry of the
    session had a higher score, and none of equal score had been enqueued
    earlier. *)
Theorem promote_serves_first_in_line cs ms subs pls ens ops clk s hours h :
  let db := run ops (mkDB cs ms subs pls ens []) in
  (promote_from_queue clk s hours db).2 = Some h ->
  (exists h0, h0 ∈ waiting_entries s db
              ∧ WaitingList.id h0 = WaitingList.id h
              ∧ WaitingList.member_id h0 = WaitingList.member_id h)
  ∧ forall x, x ∈ waiting_entries s db ->
      WaitingList.priority_score x < WaitingList.priority_score h
      ∨ (WaitingList.priority_score x = WaitingList.priority_score h
         ∧ WaitingList.created_at h <= WaitingList.created_at x).
Proof.
  intros db Hret.
  destruct (promote_returns clk s hours db h Hret) as (h0 & Hh0 & ->).
  destruct (first_entry_least s db h0 Hh0) as (Hin & Hw & Hmin).
  assert (h0 ∈ waiting_entries s db) as Hq
    by (by apply list_elem_of_filter).
  split; [by exists h0|].
  intros x Hx. simpl.
  pose proof (run_in_order cs ms subs pls ens ops s x h0 Hx Hq) as Hord.
  fold db in Hord. specialize (Hmin x Hx).
  destruct (decide (outranks (WaitingList.priority_score x)
                      (WaitingList.created_at x) h0)) as [Ho|Ho].
  - specialize (Hord Ho). lia.
  - unfold outranks in Ho. lia.
Qed.

Lemma promote_serves_first_in_line_witness :
  (promote_from_queue (Example.clock 3000) "S" 24 Example.queue).2
  = Some (WaitingList.mk "w2" "S" "M2" WaitingListStatus.ASSIGNED 1 1000
            (Some 86400003000) 2000 (Some 3000) None None)
  ∧ forall x, x ∈ waiting_entries "S" Example.queue ->
      WaitingList.priority_score x < 1000
      ∨ (WaitingList.priority_score x = 1000
         ∧ 2000 <= WaitingList.created_at x).
Proof.
  split; [reflexivity|].
  apply (promote_serves_first_in_line
           (class_session Example.gym) (members Example.gym)
           (subscriptions Example.gym) (plans Example.gym)
           (enrollment Example.gym)
           [Add (Example.clock 1000) "w1" "S" "M1";
            Add (Example.clock 2000) "w2" "S" "M2"]
           (Example.clock 3000) "S" 24
           (WaitingList.mk "w2" "S" "M2" WaitingListStatus.ASSIGNED 1 1000
              (Some 86400003000) 2000 (Some 3000) None None)).
  reflexivity.
Defined.

(** ** The sweep of expired holds *)


Lemma with_waiting_list_same db : with_waiting_list (waiting_list db) db = db.
Proof. by destruct db. Qed.

(** X11. A sweep that finds nothing overdue is a no-op: when every
    [ASSIGNED] entry in scope has no deadline, or a deadline that is not
    before the clock reading (a hold that ends exactly now is still good),
    [check_expired_assignments] returns 0 and leaves the database as it
    is. *)
Theorem sweep_nothing_overdue clk scope db :
  (forall x, x ∈ waiting_list db ->
     WaitingList.status x = WaitingListStatus.ASSIGNED ->
     in_scope scope x ->
     forall d, WaitingList.approval_deadline x = Some d -> clk 0%nat <= d) ->
  check_expired_assignments clk scope db = (db, 0%nat).
Proof.
  intros Hgood. unfold check_expired_assignments.
  rewrite (filter_none (overdue (clk 0%nat) scope)).
  - simpl. by rewrite flush_nil, with_waiting_list_same.
  - intros x Hx (Hst & Hd & Hsc). unfold deadline_before in Hd.
    destruct (WaitingList.approval_deadline x) as [d|] eqn:Hdl; [|done].
    specialize (Hgood x Hx Hst Hsc d Hdl). lia.
Qed.

Lemma sweep_nothing_overdue_witness :
  check_expired_assignments (Example.clock 86400003000) None Example.held
  = (Example.held, 0%nat).
Proof.
  apply sweep_nothing_overdue. intros x Hx Hst _ d Hd.
  vm_compute in Hx.
  apply elem_of_cons in Hx as [->|Hx]; [discriminate|].
  apply list_elem_of_singleton in Hx as ->.
  injection Hd as <-. vm_compute. discriminate.
Defined.

(** What one promotion leaves alone: the identity of every row, and the
    rows of the other sessions. *)
Lemma promote_local clk s hours db :
  unique_ids db ->
  exists G,
    waiting_list (promote_from_queue clk s hours db).1 = G <$> waiting_list db
    ∧ forall x, x ∈ waiting_list db ->
        identity (G x) = identity x
        ∧ (WaitingList.class_session_id x ≠ s -> G x = x).
Proof.
  intros Hids.
  destruct (head (order_by_position (waiting_entries s db))) as [h|] eqn:Hh.
  - exists (promote_row s h (clk 0%nat) (clk 0%nat + timedelta_hours hours)).
    split; [by rewrite (promote_result clk s hours db Hids h Hh)|].
    intros x Hx. split; [apply (promote_row_identity clk s hours h)|].
    intros Hne. destruct (first_entry_least s db h Hh) as (Hin & [Hs _] & _).
    unfold promote_row. rewrite decide_False.
    + rewrite decide_False; [done|]. by intros [? _].
    + intros Heq.
      pose proof (NoDup_fmap_elem_inj _ _ _ _ Hids Hx Hin Heq). congruence.
  - exists (fun x => x). unfold promote_from_queue. rewrite Hh. simpl.
    split; [by rewrite list_fmap_id|done].
Qed.

Lemma promote_each_local clk expired db s :
  unique_ids db ->
  Forall (fun y => WaitingList.class_session_id y = s) expired ->
  exists G,
    waiting_list (promote_each clk expired db) = G <$> waiting_list db
    ∧ forall x, x ∈ waiting_list db ->
        identity (G x) = identity x
        ∧ (WaitingList.class_session_id x ≠ s -> G x = x).
Proof.
  intros Hids Hall. revert clk db Hids.
  induction Hall as [|y l Hy Hl IH]; intros clk db Hids.
  - exists (fun x => x). split; [by rewrite list_fmap_id|done].
  - simpl. rewrite Hy.
    set (db1 := (promote_from_queue clk s default_approval_deadline_hours db).1).
    destruct (promote_local clk s default_approval_deadline_hours db Hids)
      as (G1 & HG1 & HG1').
    fold db1 in HG1.
    assert (unique_ids db1) as Hids1 by (by apply promote_keeps_unique_ids).
    destruct (IH (fun k => clk (S k)) db1 Hids1) as (G2 & HG2 & HG2').
    exists (G2 ∘ G1). split.
    + by rewrite HG2, HG1, <- list_fmap_compose.
    + intros x Hx. destruct (HG1' x Hx) as [Hi1 Hs1].
      assert (G1 x ∈ waiting_list db1) as Hx1
        by (rewrite HG1; by apply list_elem_of_fmap_2).
      destruct (HG2' (G1 x) Hx1) as [Hi2 Hs2]. simpl. split.
      * by rewrite Hi2.
      * intros Hne. rewrite (Hs1 Hne) in *. by apply Hs2.
Qed.

(** X12. A sweep scoped to a session stays in that session: with unique
    keys and a non-empty session identifier, [check_expired_assignments]
    counts the overdue [ASSIGNED] entries of that session only, leaves
    every row of every other session as it is, in place, and moves no
    other queue. *)
Theorem scoped_sweep_is_local clk s db :
  unique_ids db -> s ≠ "" ->
  let r := check_expired_assignments clk (Some s) db in
  let elsewhere (x : WaitingList.t) := WaitingList.class_session_id x ≠ s in
  r.2 = length (filter (fun x => WaitingList.class_session_id x = s
                                 ∧ WaitingList.status x
                                   = WaitingListStatus.ASSIGNED
                                 ∧ deadline_before (clk 0%nat) x)
                       (waiting_list db))
  ∧ filter elsewhere (waiting_list r.1) = filter elsewhere (waiting_list db)
  ∧ (forall s', s' ≠ s -> waiting_entries s' r.1 = waiting_entries s' db).
Proof.
  intros Hids Hs r elsewhere.
  set (expired := filter (overdue (clk 0%nat) (Some s)) (waiting_list db)).
  assert (forall x, overdue (clk 0%nat) (Some s) x
                    <-> WaitingList.class_session_id x = s
                        ∧ WaitingList.status x = WaitingListStatus.ASSIGNED
                        ∧ deadline_before (clk 0%nat) x) as Hover.
  { intros x. unfold overdue, in_scope. rewrite decide_False by done. tauto. }
  assert (Forall (fun y => WaitingList.class_session_id y = s) expired)
    as Hall.
  { apply Forall_forall. intros y Hy.
    apply list_elem_of_filter in Hy as [Ho _]. by apply Hover in Ho as [? _]. }
  destruct (promote_each_local (fun k => clk (S k)) expired db s Hids Hall)
    as (G & HG & HG').
  assert (filter elsewhere (waiting_list r.1)
          = filter elsewhere (waiting_list db)) as Hrows.
  { unfold r, check_expired_assignments. simpl. fold expired.
    rewrite HG. unfold flush. rewrite <- list_fmap_compose.
    apply filter_fmap_unchanged. intros x Hx.
    destruct (HG' x Hx) as [Hi Hfix]. simpl.
    assert (WaitingList.id (G x) = WaitingList.id x
            ∧ WaitingList.class_session_id (G x)
              = WaitingList.class_session_id x) as [Hid Hses]
      by (unfold identity in Hi; split; congruence).
    rewrite Hid. unfold expired.
    rewrite (pending_selected _
               (fun _ => WaitingList.set_status WaitingListStatus.EXPIRED))
      by done.
    unfold elsewhere. split.
    - case_decide; simpl; by rewrite Hses.
    - intros Hne. rewrite decide_False; [by apply Hfix|].
      intros Ho. by apply Hover in Ho as [? _]. }
  split_and!.
  - unfold r, check_expired_assignments. simpl. f_equal.
    apply list_filter_iff. exact Hover.
  - exact Hrows.
  - intros s' Hne. unfold waiting_entries.
    assert (forall tbl : list WaitingList.t, filter (is_waiting s') tbl
                        = filter (is_waiting s') (filter elsewhere tbl))
      as Hsplit.
    { intros tbl. rewrite list_filter_filter. apply list_filter_iff.
      intros x. unfold is_waiting, elsewhere. split; [|tauto].
      intros [? ?]. split_and!; [done..|congruence]. }
    by rewrite (Hsplit (waiting_list r.1)), Hrows, <- Hsplit.
Qed.

Lemma scoped_sweep_is_local_witness :
  unique_ids Example.held
  ∧ (check_expired_assignments (Example.clock 86400003001) (Some "S")
       Example.held).2 = 1%nat.
Proof.
  assert (unique_ids Example.held) as Hu
    by (apply (bool_decide_unpack _); vm_compute; exact I).
  split; [exact Hu|].
  destruct (scoped_sweep_is_local (Example.clock 86400003001) "S"
              Example.held Hu) as (Hcount & _); [discriminate|].
  rewrite Hcount. vm_compute. reflexivity.
Defined.

(** ** Scores along a history *)

Lemma run_scores_are_tier_bases_witness :
  Forall prompt [Add (Example.clock 1000) "w1" "S" "M1";
                 Add (Example.clock 2000) "w2" "S" "M2"]
  ∧ tier_base 1000.
Proof.
  assert (Forall prompt [Add (Example.clock 1000) "w1" "S" "M1";
                         Add (Example.clock 2000) "w2" "S" "M2"]) as Hp.
  { repeat constructor; vm_compute; reflexivity. }
  split; [exact Hp|].
  apply (run_scores_are_tier_bases
           (class_session Example.gym) (members Example.gym)
           (subscriptions Example.gym) (plans Example.gym)
           (enrollment Example.gym) _
           (Example.waiting "w2" "M2" 1 1000 2000) Hp).
  apply (bool_decide_unpack _). vm_compute. exact I.
Defined.

(** ** [cancel_enrollment] *)

Lemma promote_with_enrollment clk s hours table db :
  promote_from_queue clk s hours (with_enrollment table db)
  = (with_enrollment table (promote_from_queue clk s hours db).1,
     (promote_from_queue clk s hours db).2).
Proof.
  unfold promote_from_queue.
  change (waiting_entries s (with_enrollment table db))
    with (waiting_entries s db).
  by destruct (head (order_by_position (waiting_entries s db))).
Qed.

Lemma update_enrollment_ids i f table :
  (forall x, Enrollment.id (f x) = Enrollment.id x) ->
  Enrollment.id <$> update_enrollment i f table = Enrollment.id <$> table.
Proof.
  intros Hf. unfold update_enrollment. rewrite <- list_fmap_compose.
  apply list_fmap_ext. intros k x _. simpl. by case_decide.
Qed.

Lemma update_enrollment_one i f table en :
  NoDup (Enrollment.id <$> table) -> en ∈ table -> Enrollment.id en = i ->
  update_enrollment i f table
  = (fun row => if decide (row = en) then f row else row) <$> table.
Proof.
  intros Hnd Hen Hi. unfold update_enrollment.
  apply fmap_ext_elem_of. intros x Hx.
  destruct (decide (Enrollment.id x = i)) as [Heq|Hne].
  - assert (x = en) as ->
      by (apply (NoDup_fmap_elem_inj Enrollment.id table); congruence).
    by rewrite decide_True.
  - rewrite decide_False; [done|]. intros ->. done.
Qed.

Lemma registered_without s f table en :
  NoDup table -> en ∈ table ->
  is_registered s en -> ¬ is_registered s (f en) ->
  S (length (filter (is_registered s)
               ((fun row => if decide (row = en) then f row else row)
                  <$> table)))
  = length (filter (is_registered s) table).
Proof.
  induction table as [|a l IH]; intros Hnd Hen Hr Hnr.
  - by apply elem_of_nil in Hen.
  - apply NoDup_cons in Hnd as [Ha Hnd]. rewrite fmap_cons.
    destruct (decide (a = en)) as [->|Hne].
    + assert ((fun row => if decide (row = en) then f row else row) <$> l = l)
        as ->.
      { transitivity (id <$> l); [|apply list_fmap_id].
        apply fmap_ext_elem_of. intros x Hx.
        rewrite decide_False; [done|]. by intros ->. }
      rewrite filter_cons_False by done.
      by rewrite (filter_cons_True _ en) by done.
    + apply elem_of_cons in Hen as [->|Hen]; [done|].
      destruct (decide (is_registered s a)).
      * rewrite !filter_cons_True by done. simpl. f_equal. by apply IH.
      * rewrite !filter_cons_False by done. by apply IH.
Qed.

Lemma canceled_elsewhere s' now reason (table : list Enrollment.t) en :
  Enrollment.class_session_id en ≠ s' ->
  filter (is_registered s')
    ((fun row => if decide (row = en) then canceled now reason row else row)
       <$> table)
  = filter (is_registered s') table.
Proof.
  intros Hne. apply filter_fmap_unchanged. intros x Hx.
  destruct (decide (x = en)) as [->|?]; [|done].
  unfold is_registered. simpl. split; [|by intros [? _]].
  split; intros [? _]; done.
Qed.

(** What a cancellation does, [en] being the enrollment it finds. *)
Lemma cancel_enrollment_effect clk s m reason db en :
  NoDup (Enrollment.id <$> enrollment db) ->
  head (filter (already_enrolled s m) (enrollment db)) = Some en ->
  let r := cancel_enrollment clk s m reason db in
  let promoted :=
    promote_from_queue (fun k => clk (S k)) s
      default_approval_deadline_hours db in
  r = (with_enrollment
         ((fun row => if decide (row = en)
                      then canceled (clk 0%nat) reason row else row)
            <$> enrollment db) promoted.1,
       inr true).
Proof.
  intros Hnd Hen r promoted. unfold r, cancel_enrollment. rewrite Hen.
  rewrite decide_False by (simpl; by intros ?).
  rewrite promote_with_enrollment. simpl.
  apply head_filter_Some in Hen as [_ Hin].
  by rewrite (update_enrollment_one _ _ _ en Hnd Hin eq_refl).
Qed.

(** X13. [cancel_enrollment] for a member without [REGISTERED] enrollment
    in the session raises [NotFoundError] and changes nothing. Otherwise,
    the keys of the enrollments being unique, it returns [True]; the
    enrollment it found is the one row it changes, to [CANCELED] with the
    clock reading and the reason given; the session has one [REGISTERED]
    enrollment less and the other sessions as many as before; and the
    waiting list is what [promote_from_queue] on the session, with the
    default hold of 24 hours, makes of it. *)
Theorem cancel_enrollment_spec clk s m reason db :
  NoDup (Enrollment.id <$> enrollment db) ->
  let r := cancel_enrollment clk s m reason db in
  ((forall en, en ∈ enrollment db -> ¬ already_enrolled s m en) ->
   r = (db, inl (NotFoundError "Enrollment not found or already canceled")))
  ∧ (forall en,
       head (filter (already_enrolled s m) (enrollment db)) = Some en ->
       r.2 = inr true
       ∧ enrollment r.1
         = (fun row => if decide (row = en)
                       then Enrollment.mk (Enrollment.id row)
                              (Enrollment.class_session_id row)
                              (Enrollment.member_id row)
                              EnrollmentStatus.CANCELED
                              (Enrollment.created_at row)
                              (Some (clk 0%nat)) reason
                       else row) <$> enrollment db
       ∧ S (length (registered s r.1)) = length (registered s db)
       ∧ (forall s', s' ≠ s -> registered s' r.1 = registered s' db)
       ∧ waiting_list r.1
         = waiting_list
             (promote_from_queue (fun k => clk (S k)) s 24 db).1).
Proof.
  intros Hnd r. split.
  - intros Hnone. unfold r, cancel_enrollment.
    by rewrite (proj2 (head_filter_None (already_enrolled s m) _) Hnone).
  - intros en Hen.
    pose proof (cancel_enrollment_effect clk s m reason db en Hnd Hen) as Hr.
    simpl in Hr. fold r in Hr.
    pose proof Hen as Hen'.
    apply head_filter_Some in Hen' as [(Hs & Hm & Hst) Hin].
    rewrite Hr. simpl. split_and!; try done.
    + unfold registered. simpl.
      apply (registered_without s (canceled (clk 0%nat) reason)).
      * by apply NoDup_fmap_1 in Hnd.
      * done.
      * done.
      * unfold is_registered. simpl. by intros [_ ?].
    + intros s' Hne. unfold registered. simpl.
      apply canceled_elsewhere. congruence.
Qed.

Lemma cancel_enrollment_spec_witness :
  NoDup (Enrollment.id <$> enrollment Studio.db)
  ∧ (cancel_enrollment (Example.clock 5000) "S" "M1" (Some "ill") Studio.db).2
    = inr true
  ∧ length (registered "S"
              (cancel_enrollment (Example.clock 5000) "S" "M1" (Some "ill")
                 Studio.db).1) = 1%nat.
Proof.
  assert (NoDup (Enrollment.id <$> enrollment Studio.db)) as Hu
    by (apply (bool_decide_unpack _); vm_compute; exact I).
  split; [exact Hu|].
  destruct (cancel_enrollment_spec (Example.clock 5000) "S" "M1" (Some "ill")
              Studio.db Hu) as [_ Hfound].
  destruct (Hfound (Enrollment.mk "e1" "S" "M1" EnrollmentStatus.REGISTERED
                      100 None None) eq_refl) as (Hr & _ & Hcount & _).
  split; [exact Hr|].
  apply (f_equal Nat.pred) in Hcount. exact Hcount.
Defined.

(** X14. A cancelled place passes to the first in line: with unique keys,
    when [cancel_enrollment] has cancelled an enrollment of a session
    whose queue is not empty, the entry that [promote_from_queue] picks
    there holds the place; its [confirm_assignment] at any clock reading
    that is not after the deadline its row holds, with a free enrollment
    identifier, returns a [REGISTERED] enrollment of that member, and the
    session has as many [REGISTERED] enrollments as before the
    cancellation. *)
Theorem cancelled_place_passes_on clk s m reason db en h clk' new_id d :
  unique_ids db ->
  NoDup (Enrollment.id <$> enrollment db) ->
  head (filter (already_enrolled s m) (enrollment db)) = Some en ->
  (promote_from_queue (fun k => clk (S k)) s 24 db).2 = Some h ->
  deadline_of (WaitingList.id h) (cancel_enrollment clk s m reason db).1
  = Some d ->
  clk' 0%nat <= d ->
  new_id ∉ Enrollment.id <$> enrollment db ->
  let db1 := (cancel_enrollment clk s m reason db).1 in
  let r := confirm_assignment clk' new_id (WaitingList.id h) db1 in
  status_of (WaitingList.id h) db1 = Some WaitingListStatus.ASSIGNED
  ∧ r.2 = inr (Enrollment.mk new_id s (WaitingList.member_id h)
                 EnrollmentStatus.REGISTERED (clk' 1%nat) None None)
  ∧ status_of (WaitingList.id h) r.1 = Some WaitingListStatus.CONFIRMED
  ∧ length (registered s r.1) = length (registered s db).
Proof.
  intros Hids Hnd Hen Hret Hstored Hin_time Hfresh db1 r.
  pose proof (cancel_enrollment_effect clk s m reason db en Hnd Hen) as Hr.
  simpl in Hr.
  set (table := (fun row => if decide (row = en)
                            then canceled (clk 0%nat) reason row else row)
                  <$> enrollment db) in Hr.
  set (committed := with_enrollment table db).
  assert (db1 = (promote_from_queue (fun k => clk (S k)) s 24 committed).1)
    as Hdb1.
  { unfold db1, committed. by rewrite Hr, promote_with_enrollment. }
  assert ((promote_from_queue (fun k => clk (S k)) s 24 committed).2 = Some h)
    as Hret' by (unfold committed; by rewrite promote_with_enrollment).
  assert (Enrollment.id <$> table = Enrollment.id <$> enrollment db) as Hkeys.
  { unfold table. rewrite <- list_fmap_compose. apply list_fmap_ext.
    intros k x _. simpl. by case_decide. }
  assert (unique_ids committed) as Hids' by exact Hids.
  fold db1 in Hstored. rewrite Hdb1 in Hstored.
  destruct (promoted_can_confirm (fun k => clk (S k)) s 24 committed h clk'
              new_id d Hids' Hret' Hstored Hin_time) as (H1 & H2 & H3 & _).
  { simpl. by rewrite Hkeys. }
  rewrite <- Hdb1 in H1, H2, H3. fold r in H1, H2, H3.
  destruct (promote_returns _ _ _ _ _ Hret') as (h0 & Hh0 & Hh).
  split_and!.
  - rewrite Hdb1.
    assert (unique_ids
              (promote_from_queue (fun k => clk (S k)) s 24 committed).1)
      as Hids1 by (by apply promote_keeps_unique_ids).
    rewrite (status_of_found _ h Hids1); [by rewrite Hh| |done].
    rewrite Hh.
    by apply (promoted_in_table (fun k => clk (S k)) s 24 committed h0).
  - exact H1.
  - exact H3.
  - unfold registered. rewrite H2. simpl. rewrite filter_app, length_app.
    rewrite filter_cons_True by done. simpl.
    apply head_filter_Some in Hen as [(Hs & Hm & Hst) Hin].
    rewrite <- (registered_without s (canceled (clk 0%nat) reason)
                  (enrollment db) en).
    + fold table. lia.
    + by apply NoDup_fmap_1 in Hnd.
    + done.
    + done.
    + unfold is_registered. simpl. by intros [_ ?].
Qed.

Lemma cancelled_place_passes_on_witness :
  unique_ids Studio.db
  ∧ (confirm_assignment (Example.clock 9000) "e3" "w3"
       (cancel_enrollment (Example.clock 5000) "S" "M1" None Studio.db).1).2
    = inr (Enrollment.mk "e3" "S" "M3" EnrollmentStatus.REGISTERED 9001
             None None).
Proof.
  assert (unique_ids Studio.db) as Hu
    by (apply (bool_decide_unpack _); vm_compute; exact I).
  split; [exact Hu|].
  destruct (cancelled_place_passes_on (Example.clock 5000) "S" "M1" None
              Studio.db
              (Enrollment.mk "e1" "S" "M1" EnrollmentStatus.REGISTERED 100
                 None None)
              (WaitingList.mk "w3" "S" "M3" WaitingListStatus.ASSIGNED 1 0
                 (Some 86400005001) 1000 (Some 5001) None None)
              (Example.clock 9000) "e3" 86400005001 Hu) as (_ & Hr & _).
  - apply (bool_decide_unpack _). vm_compute. exact I.
  - reflexivity.
  - reflexivity.
  - reflexivity.
  - vm_compute. discriminate.
  - apply (bool_decide_unpack _). vm_compute. exact I.
  - exact Hr.
Defined.

(** ** [enroll_member] *)

Lemma registered_app s (table : list Enrollment.t) en :
  is_registered s en ->
  length (filter (is_registered s) (table ++ [en]))
  = S (length (filter (is_registered s) table)).
Proof.
  intros Hr. rewrite filter_app, length_app.
  rewrite filter_cons_True by done. simpl. lia.
Qed.

Lemma registered_app_elsewhere s' (table : list Enrollment.t) en :
  Enrollment.class_session_id en ≠ s' ->
  filter (is_registered s') (table ++ [en]) = filter (is_registered s') table.
Proof.
  intros Hne. rewrite filter_app.
  rewrite filter_cons_False by (by intros [? _]).
  by rewrite filter_nil, app_nil_r.
Qed.

(** What [enroll_member] does when the session has a free place. *)
Lemma enroll_free_place clk new_id read_position s m db cs :
  head (filter (fun c => ClassSession.id c = s) (class_session db)) = Some cs ->
  (exists x, x ∈ members db ∧ Member.id x = m) ->
  (forall en, en ∈ enrollment db -> ¬ already_enrolled s m en) ->
  Z.of_nat (length (registered s db)) < ClassSession.capacity cs ->
  new_id ∉ Enrollment.id <$> enrollment db ->
  enroll_member clk new_id read_position s m db
  = (with_enrollment
       (enrollment db
        ++ [Enrollment.mk new_id s m EnrollmentStatus.REGISTERED
              (clk 0%nat) None None]) db,
     inr new_id).
Proof.
  intros Hcs Hm Hen Hfree Hfresh. unfold enroll_member. rewrite Hcs.
  apply (head_filter_is_Some (fun x => Member.id x = m)) in Hm as [x ->].
  rewrite (proj2 (head_filter_None (already_enrolled s m) _) Hen).
  rewrite decide_False by lia.
  unfold insert_enrollment, raise, ret. simpl.
  by rewrite decide_False by done.
Qed.

(** X15. A free place is given at once: when the session exists and has
    fewer [REGISTERED] enrollments than its capacity, the member exists
    and is not enrolled in it, and the identifier drawn is free,
    [enroll_member] returns the identifier, the enrollment table gains
    one [REGISTERED] row for the pair and the waiting list is not
    touched. Neither the status of the session nor the queue is looked
    at: the place is given even when the session is closed, and even when
    others wait for it or hold it. *)
Theorem enroll_member_free_place clk new_id read_position s m db cs :
  head (filter (fun c => ClassSession.id c = s) (class_session db)) = Some cs ->
  (exists x, x ∈ members db ∧ Member.id x = m) ->
  (forall en, en ∈ enrollment db -> ¬ already_enrolled s m en) ->
  Z.of_nat (length (registered s db)) < ClassSession.capacity cs ->
  new_id ∉ Enrollment.id <$> enrollment db ->
  let r := enroll_member clk new_id read_position s m db in
  r.2 = inr new_id
  ∧ enrollment r.1
    = enrollment db
      ++ [Enrollment.mk new_id s m EnrollmentStatus.REGISTERED
            (clk 0%nat) None None]
  ∧ waiting_list r.1 = waiting_list db
  ∧ class_session r.1 = class_session db
  ∧ length (registered s r.1) = S (length (registered s db)).
Proof.
  intros Hcs Hm Hen Hfree Hfresh r. unfold r.
  rewrite (enroll_free_place clk new_id read_position s m db cs) by done.
  simpl. split_and!; try done.
  unfold registered. simpl. by apply registered_app.
Qed.

Lemma enroll_member_free_place_witness :
  (enroll_member (Example.clock 7000) "e9" (fun e => inr (WaitingList.position e))
     "T" "M3" Studio.db).2 = inr "e9"
  ∧ waiting_list
      (enroll_member (Example.clock 7000) "e9"
         (fun e => inr (WaitingList.position e)) "T" "M3" Studio.db).1
    = waiting_list Studio.db.
Proof.
  destruct (enroll_member_free_place (Example.clock 7000) "e9"
              (fun e => inr (WaitingList.position e)) "T" "M3" Studio.db
              (ClassSession.mk "T" "Spin" 2 SessionStatus.CLOSED))
    as (Hr & _ & Hw & _).
  - reflexivity.
  - exists (Member.mk "M3" "Cy"). split; [|reflexivity].
    apply list_elem_of_lookup. exists 2%nat. reflexivity.
  - apply Forall_forall. apply (bool_decide_unpack _). vm_compute. exact I.
  - vm_compute. reflexivity.
  - apply (bool_decide_unpack _). vm_compute. exact I.
  - split; [exact Hr|exact Hw].
Defined.

(** X16. [enroll_member] never overbooks: whatever it is called with and
    however it ends, a session whose [REGISTERED] enrollments were within
    its capacity has them within its capacity afterwards, the enrollments
    of every other session are the same rows as before, and the call
    returns an identifier only when it has added one [REGISTERED]
    enrollment. *)
Theorem enroll_member_never_overbooks clk new_id read_position s m db :
  let r := enroll_member clk new_id read_position s m db in
  (forall cs,
     head (filter (fun c => ClassSession.id c = s) (class_session db))
     = Some cs ->
     Z.of_nat (length (registered s db)) <= ClassSession.capacity cs ->
     Z.of_nat (length (registered s r.1)) <= ClassSession.capacity cs)
  ∧ (forall s', s' ≠ s -> registered s' r.1 = registered s' db)
  ∧ (forall x, r.2 = inr x ->
       x = new_id
       ∧ length (registered s r.1) = S (length (registered s db)))
  ∧ (forall e, r.2 = inl e -> enrollment r.1 = enrollment db).
Proof.
  intros r.
  destruct (add_to_waiting_list_other_tables clk new_id s m db)
    as (_ & _ & _ & _ & Hadd).
  unfold r, enroll_member, registered.
  destruct (head (filter (fun c => ClassSession.id c = s) (class_session db)))
    as [cs|]; [|by split_and!].
  destruct (head (filter (fun x => Member.id x = m) (members db)))
    as [member|]; [|by split_and!].
  destruct (head (filter (already_enrolled s m) (enrollment db)))
    as [existing|]; [by split_and!|].
  case_decide as Hfull.
  - simpl. rewrite Hadd. split_and!; try done.
    intros x. unfold except_enroll_member, raise.
    destruct (add_to_waiting_list clk new_id s m db).2 as [e|e]; simpl.
    + by destruct e.
    + by destruct (read_position e).
  - unfold insert_enrollment, raise, ret. simpl.
    destruct (decide (new_id ∈ Enrollment.id <$> enrollment db)); simpl.
    + by split_and!.
    + split_and!.
      * intros cs' [= <-] _. rewrite registered_app by done.
        unfold registered in Hfull. lia.
      * intros s' Hne. apply registered_app_elsewhere. simpl. congruence.
      * intros x [= <-]. split; [done|]. by apply registered_app.
      * done.
Qed.

(** X17. A full session sends the member to the queue: with unique keys,
    when the session exists, is not closed and has as many [REGISTERED]
    enrollments as its capacity or more, the member exists, is neither
    enrolled nor in the queue, and the identifier drawn is free,
    [enroll_member] raises [AppError], enrolls nobody, and leaves the
    member with a new [WAITING] entry in the queue of the session, which
    is one entry longer. When the position of the entry can be read back,
    the message names it. *)
Theorem enroll_member_full_session clk new_id read_position s m db cs :
  unique_ids db ->
  head (filter (fun c => ClassSession.id c = s) (class_session db)) = Some cs ->
  (forall c, c ∈ class_session db -> ClassSession.id c = s ->
             ClassSession.status c ≠ SessionStatus.CLOSED) ->
  (exists x, x ∈ members db ∧ Member.id x = m) ->
  (forall en, en ∈ enrollment db -> ¬ already_enrolled s m en) ->
  (forall e, e ∈ waiting_list db -> ¬ already_waiting s m e) ->
  new_id ∉ ids db ->
  Z.of_nat (length (registered s db)) >= ClassSession.capacity cs ->
  let r := enroll_member clk new_id read_position s m db in
  (exists message, r.2 = inl (AppError message))
  ∧ enrollment r.1 = enrollment db
  ∧ (exists e,
       add_to_waiting_list clk new_id s m db = (r.1, inr e)
       ∧ e ∈ waiting_list r.1
       ∧ WaitingList.id e = new_id
       ∧ WaitingList.member_id e = m
       ∧ WaitingList.status e = WaitingListStatus.WAITING
       ∧ (read_position e = inr (WaitingList.position e) ->
          r.2 = inl (AppError
                       ("Session is full. You have been added to the waiting list at position "
                        +:+ pretty (WaitingList.position e) +:+ "."))))
  ∧ length (waiting_entries s r.1) = S (length (waiting_entries s db)).
Proof.
  intros Hids Hcs Hopen Hm Hen Hq Hfresh Hfull r.
  destruct (add_succeeds clk new_id s m db Hids) as (db' & e & Hadd & Hrest);
    try done.
  { exists cs. apply head_filter_Some in Hcs as [? ?]. done. }
  destruct Hrest as (Hid & _ & Hmem & Hst & _ & _ & _ & _ & _ & Hin & Hlen & Hens).
  assert (r = (db',
               match read_position e with
               | inr position =>
                   inl (AppError
                          ("Session is full. You have been added to the waiting list at position "
                           +:+ pretty position +:+ "."))
               | inl message =>
                   inl (AppError ("Failed to enroll member: " +:+ message))
               end)) as Hr.
  { unfold r, enroll_member. rewrite Hcs.
    apply (head_filter_is_Some (fun x => Member.id x = m)) in Hm as [x ->].
    rewrite (proj2 (head_filter_None (already_enrolled s m) _) Hen).
    rewrite decide_True by done. by rewrite Hadd. }
  rewrite Hr. simpl. split_and!.
  - destruct (read_position e); eauto.
  - done.
  - exists e. split_and!; try done. by intros ->.
  - done.
Qed.

Lemma enroll_member_full_session_witness :
  unique_ids Studio.db
  ∧ (enroll_member (Example.clock 7000) "w5"
       (fun e => inr (WaitingList.position e)) "S" "M9"
       (mkDB (class_session Studio.db)
             (Member.mk "M9" "Eve" :: members Studio.db)
             [] [] (enrollment Studio.db) (waiting_list Studio.db))).2
    = inl (AppError
             "Session is full. You have been added to the waiting list at position 3.").
Proof.
  assert (unique_ids Studio.db) as Hu
    by (apply (bool_decide_unpack _); vm_compute; exact I).
  split; [exact Hu|].
  destruct (enroll_member_full_session (Example.clock 7000) "w5"
              (fun e => inr (WaitingList.position e)) "S" "M9"
              (mkDB (class_session Studio.db)
                    (Member.mk "M9" "Eve" :: members Studio.db)
                    [] [] (enrollment Studio.db) (waiting_list Studio.db))
              (ClassSession.mk "S" "Yoga" 2 SessionStatus.OPEN) Hu)
    as (_ & _ & (e & Hadd & _ & _ & _ & _ & Hmsg) & _).
  - reflexivity.
  - intros c Hc Hid. simpl in Hc.
    apply elem_of_cons in Hc as [->|Hc]; [discriminate|].
    apply list_elem_of_singleton in Hc as ->. discriminate.
  - exists (Member.mk "M9" "Eve"). split; [left|reflexivity].
  - apply Forall_forall. apply (bool_decide_unpack _). vm_compute. exact I.
  - apply Forall_forall. apply (bool_decide_unpack _). vm_compute. exact I.
  - apply (bool_decide_unpack _). vm_compute. exact I.
  - vm_compute. discriminate.
  - rewrite Hmsg by reflexivity.
    vm_compute in Hadd. injection Hadd as <-. vm_compute. reflexivity.
Defined.

(** ** A hold against a newcomer *)

Lemma promote_only_waiting_list clk s hours db :
  (promote_from_queue clk s hours db).1
  = with_waiting_list (waiting_list (promote_from_queue clk s hours db).1) db.
Proof.
  unfold promote_from_queue.
  destruct (head (order_by_position (waiting_entries s db))); simpl; [done|].
  by rewrite with_waiting_list_same.
Qed.

(** X18. A hold does not reserve the place. Take a session that is
    exactly full, with unique keys and somebody waiting.
    [cancel_enrollment] frees a place and puts it on hold for the first in
    line; [enroll_member] then gives that place to any other member who
    asks, since it counts enrollments only; and the holder's
    [confirm_assignment], at a clock reading that is not after the
    deadline the row holds, still succeeds, since it counts nothing: the
    session ends with one [REGISTERED] enrollment more than its
    capacity. *)
Theorem held_place_is_not_reserved
    clk s m reason db en cs h clk1 id1 read_position m' clk2 id2 d :
  unique_ids db ->
  NoDup (Enrollment.id <$> enrollment db) ->
  head (filter (fun c => ClassSession.id c = s) (class_session db)) = Some cs ->
  Z.of_nat (length (registered s db)) = ClassSession.capacity cs ->
  head (filter (already_enrolled s m) (enrollment db)) = Some en ->
  (promote_from_queue (fun k => clk (S k)) s 24 db).2 = Some h ->
  (exists x, x ∈ members db ∧ Member.id x = m') ->
  (forall x, x ∈ enrollment db -> ¬ already_enrolled s m' x) ->
  id1 ∉ Enrollment.id <$> enrollment db ->
  id2 ∉ Enrollment.id <$> enrollment db ->
  id1 ≠ id2 ->
  deadline_of (WaitingList.id h)
    (enroll_member clk1 id1 read_position s m'
       (cancel_enrollment clk s m reason db).1).1
  = Some d ->
  clk2 0%nat <= d ->
  let db1 := (cancel_enrollment clk s m reason db).1 in
  let enrolled := enroll_member clk1 id1 read_position s m' db1 in
  let confirmed := confirm_assignment clk2 id2 (WaitingList.id h) enrolled.1 in
  enrolled.2 = inr id1
  ∧ confirmed.2
    = inr (Enrollment.mk id2 s (WaitingList.member_id h)
             EnrollmentStatus.REGISTERED (clk2 1%nat) None None)
  ∧ Z.of_nat (length (registered s confirmed.1)) = ClassSession.capacity cs + 1.
Proof.
  intros Hids Hnd Hcs Hfull Hen Hret Hm' Hnot Hid1 Hid2 Hne Hstored Hin_time
         db1 enrolled confirmed.
  pose proof (cancel_enrollment_effect clk s m reason db en Hnd Hen) as Hr.
  simpl in Hr.
  set (table := (fun row => if decide (row = en)
                            then canceled (clk 0%nat) reason row else row)
                  <$> enrollment db) in Hr.
  set (promoted := (promote_from_queue (fun k => clk (S k)) s
                      default_approval_deadline_hours db).1) in Hr.
  assert (db1 = with_enrollment table promoted) as Hdb1
    by (unfold db1; by rewrite Hr).
  assert (promoted = with_waiting_list (waiting_list promoted) db) as Hp
    by apply promote_only_waiting_list.
  assert (Enrollment.id <$> table = Enrollment.id <$> enrollment db) as Hkeys.
  { unfold table. rewrite <- list_fmap_compose. apply list_fmap_ext.
    intros k x _. simpl. by case_decide. }
  pose proof Hen as Hen'.
  apply head_filter_Some in Hen' as [(Hs & Hm & Hst) Hin].
  assert (S (length (filter (is_registered s) table))
          = length (registered s db)) as Hcount1.
  { apply (registered_without s (canceled (clk 0%nat) reason)); try done.
    - by apply NoDup_fmap_1 in Hnd.
    - unfold is_registered. simpl. by intros [_ ?]. }
  set (en1 := Enrollment.mk id1 s m' EnrollmentStatus.REGISTERED
                (clk1 0%nat) None None).
  assert (enrolled = (with_enrollment (table ++ [en1]) db1, inr id1))
    as Henrolled.
  { unfold enrolled.
    rewrite (enroll_free_place clk1 id1 read_position s m' db1 cs).
    - by rewrite Hdb1.
    - by rewrite Hdb1, Hp.
    - by rewrite Hdb1, Hp.
    - rewrite Hdb1. simpl. intros x Hx.
      apply list_elem_of_fmap in Hx as (y & -> & Hy).
      case_decide; [|by apply Hnot].
      unfold already_enrolled. simpl. by intros (_ & _ & ?).
    - rewrite Hdb1. unfold registered. simpl. lia.
    - rewrite Hdb1. simpl. by rewrite Hkeys. }
  set (db2 := with_enrollment (table ++ [en1]) db1) in Henrolled.
  assert (waiting_list db2 = waiting_list promoted) as Hwl
    by (unfold db2; by rewrite Hdb1).
  assert (unique_ids promoted) as Hidsp
    by (by apply promote_keeps_unique_ids).
  assert (unique_ids db2) as Hids2
    by (unfold unique_ids, ids; by rewrite Hwl).
  destruct (promote_returns _ _ _ _ _ Hret) as (h0 & Hh0 & Hh).
  destruct (first_entry_least s db h0 Hh0) as (_ & [Hhs _] & _).
  assert (entry_of (WaitingList.id h) db2 = Some h) as Hentry.
  { apply entry_of_elem; [done|]. rewrite Hwl, Hh.
    by apply (promoted_in_table (fun k => clk (S k)) s 24 db h0). }
  assert (WaitingList.approval_deadline h = Some d) as Hd.
  { fold db1 in Hstored. fold enrolled in Hstored.
    rewrite Henrolled in Hstored. unfold deadline_of in Hstored.
    simpl in Hstored. by rewrite Hentry in Hstored. }
  destruct (confirm_in_time_effect clk2 id2 (WaitingList.id h) db2 h
              Hids2 Hentry) as (H1 & H2 & _).
  { by rewrite Hh. }
  { intros d'. rewrite Hd. intros [= <-]. done. }
  { unfold db2. simpl. rewrite fmap_app, Hkeys. simpl.
    intros Hin2. apply elem_of_app in Hin2 as [?|Hin2]; [done|].
    apply list_elem_of_singleton in Hin2. congruence. }
  assert (confirmed = confirm_assignment clk2 id2 (WaitingList.id h) db2)
    as Hconfirmed by (unfold confirmed; by rewrite Henrolled).
  rewrite <- Hconfirmed in H1, H2.
  assert (WaitingList.class_session_id h = s) as Hhs' by (by rewrite Hh).
  split_and!.
  - by rewrite Henrolled.
  - by rewrite H1, Hhs'.
  - unfold registered. rewrite H2. unfold db2. simpl.
    rewrite registered_app by (by rewrite Hhs').
    rewrite registered_app by done. lia.
Qed.

Lemma held_place_is_not_reserved_witness :
  unique_ids Studio.db
  ∧ length (registered "S"
              (confirm_assignment (Example.clock 9000) "e4" "w3"
                 (enroll_member (Example.clock 7000) "e3"
                    (fun e => inr (WaitingList.position e)) "S" "M4"
                    (cancel_enrollment (Example.clock 5000) "S" "M1" None
                       Studio.db).1).1).1) = 3%nat.
Proof.
  assert (unique_ids Studio.db) as Hu
    by (apply (bool_decide_unpack _); vm_compute; exact I).
  split; [exact Hu|].
  destruct (held_place_is_not_reserved (Example.clock 5000) "S" "M1" None
              Studio.db
              (Enrollment.mk "e1" "S" "M1" EnrollmentStatus.REGISTERED 100
                 None None)
              (ClassSession.mk "S" "Yoga" 2 SessionStatus.OPEN)
              (WaitingList.mk "w3" "S" "M3" WaitingListStatus.ASSIGNED 1 0
                 (Some 86400005001) 1000 (Some 5001) None None)
              (Example.clock 7000) "e3"
              (fun e => inr (WaitingList.position e)) "M4"
              (Example.clock 9000) "e4" 86400005001 Hu) as (_ & _ & Hcount).
  - apply (bool_decide_unpack _). vm_compute. exact I.
  - reflexivity.
  - reflexivity.
  - reflexivity.
  - reflexivity.
  - exists (Member.mk "M4" "Dee"). split; [|reflexivity].
    apply list_elem_of_lookup. exists 3%nat. reflexivity.
  - apply Forall_forall. apply (bool_decide_unpack _). vm_compute. exact I.
  - apply (bool_decide_unpack _). vm_compute. exact I.
  - apply (bool_decide_unpack _). vm_compute. exact I.
  - discriminate.
  - reflexivity.
  - vm_compute. discriminate.
  - apply Nat2Z.inj. exact Hcount.
Defined.

(** ** [detect_high_demand] *)

Section grouping.
Implicit Types (stats : list (string * SessionStats.t)) (k : string).
Implicit Types (rows : list (Z * (ClassSession.t * WaitingList.t))).

Lemma py_max_l a b : (a <= py_max a b)%Q.
Proof.
  unfold py_max. destruct (Qlt_le_dec a b);
    [by apply Qlt_le_weak|apply Qle_refl].
Qed.

Lemma py_max_r a b : (b <= py_max a b)%Q.
Proof. unfold py_max. destruct (Qlt_le_dec a b); [apply Qle_refl|done]. Qed.

Lemma stats_of_None k stats : stats_of k stats = None <-> k ∉ stats.*1.
Proof.
  unfold stats_of. rewrite fmap_None, head_filter_None. split.
  - intros Hno Hin. apply list_elem_of_fmap in Hin as (kv & -> & Hkv).
    by apply (Hno kv).
  - intros Hno kv Hkv Heq. apply Hno. rewrite <- Heq.
    by apply list_elem_of_fmap_2.
Qed.

Lemma stats_of_elem k st stats : stats_of k stats = Some st -> (k, st) ∈ stats.
Proof.
  unfold stats_of. intros H. apply fmap_Some in H as ([k' st'] & Hh & ->).
  apply head_filter_Some in Hh as [Hk Hin]. simpl in *. by subst.
Qed.

Lemma stats_of_found k st stats :
  NoDup stats.*1 -> (k, st) ∈ stats -> stats_of k stats = Some st.
Proof.
  intros Hnd Hin.
  destruct (stats_of k stats) as [st'|] eqn:Hs.
  - apply stats_of_elem in Hs.
    pose proof (NoDup_fmap_elem_inj fst stats (k, st) (k, st') Hnd Hin Hs
                  eq_refl) as Heq.
    congruence.
  - apply stats_of_None in Hs. destruct Hs.
    by apply (list_elem_of_fmap_2 fst stats (k, st)).
Qed.

Lemma stats_of_cons k kv stats :
  stats_of k (kv :: stats)
  = if decide (kv.1 = k) then Some kv.2 else stats_of k stats.
Proof.
  unfold stats_of. destruct (decide (kv.1 = k)).
  - by rewrite filter_cons_True.
  - by rewrite filter_cons_False.
Qed.

Lemma stats_of_counted c hours stats k :
  stats_of k ((fun kv : string * SessionStats.t =>
                 if decide (kv.1 = c) then (kv.1, counted hours kv.2) else kv)
                <$> stats)
  = if decide (k = c) then counted hours <$> stats_of k stats
    else stats_of k stats.
Proof.
  induction stats as [|a l IH].
  - by destruct (decide (k = c)).
  - rewrite fmap_cons, !stats_of_cons, IH.
    destruct (decide (a.1 = c)) as [Ha|Ha]; simpl;
      destruct (decide (a.1 = k)) as [Hk|Hk];
      destruct (decide (k = c)) as [Hc|Hc]; simpl; congruence.
Qed.

Lemma stats_of_app_new k k' st stats :
  stats_of k (stats ++ [(k', st)])
  = match stats_of k stats with
    | Some x => Some x
    | None => if decide (k' = k) then Some st else None
    end.
Proof.
  induction stats as [|a l IH]; simpl.
  - by rewrite stats_of_cons.
  - rewrite !stats_of_cons. by destruct (decide (a.1 = k)).
Qed.

(** One round of the loop, seen from a key. *)
Lemma record_entry_stats_of stats now cs wl k :
  stats_of k (record_entry stats (now, (cs, wl)))
  = if decide (k = ClassSession.id cs)
    then Some (counted (hours_between (WaitingList.created_at wl) now)
                 (default (SessionStats.mk cs 0 0) (stats_of k stats)))
    else stats_of k stats.
Proof.
  unfold record_entry. rewrite stats_of_counted.
  destruct (decide (ClassSession.id cs ∈ stats.*1)) as [Hin|Hnotin].
  - destruct (decide (k = ClassSession.id cs)) as [->|]; [|done].
    destruct (stats_of (ClassSession.id cs) stats) as [st|] eqn:Hs; [done|].
    by apply stats_of_None in Hs.
  - rewrite stats_of_app_new.
    destruct (decide (k = ClassSession.id cs)) as [->|Hne].
    + rewrite (proj2 (stats_of_None _ _) Hnotin). by rewrite decide_True.
    + destruct (stats_of k stats); [done|]. by rewrite decide_False.
Qed.

Lemma record_entry_keys stats now cs wl :
  (record_entry stats (now, (cs, wl))).*1
  = if decide (ClassSession.id cs ∈ stats.*1) then stats.*1
    else stats.*1 ++ [ClassSession.id cs].
Proof.
  unfold record_entry. rewrite <- list_fmap_compose.
  assert (forall l : list (string * SessionStats.t),
            (fst ∘ (fun kv : string * SessionStats.t =>
                      if decide (kv.1 = ClassSession.id cs)
                      then (kv.1, counted
                                    (hours_between (WaitingList.created_at wl) now)
                                    kv.2)
                      else kv)) <$> l = l.*1) as Hkeys.
  { intros l. apply list_fmap_ext. intros i x _. simpl. by case_decide. }
  rewrite Hkeys. case_decide; [done|]. by rewrite fmap_app.
Qed.

Lemma record_entry_NoDup stats row :
  NoDup stats.*1 -> NoDup (record_entry stats row).*1.
Proof.
  destruct row as [now [cs wl]]. intros Hnd. rewrite record_entry_keys.
  case_decide; [done|].
  apply NoDup_app. split_and!; [done| |apply NoDup_singleton].
  intros x Hx Hx'. apply list_elem_of_singleton in Hx'. by subst.
Qed.

Lemma foldl_record_NoDup rows stats :
  NoDup stats.*1 -> NoDup (foldl record_entry stats rows).*1.
Proof.
  revert stats. induction rows as [|row rows IH]; intros stats Hnd; [done|].
  simpl. apply IH. by apply record_entry_NoDup.
Qed.

Lemma foldl_record_cons rows stats row :
  foldl record_entry stats (row :: rows)
  = foldl record_entry (record_entry stats row) rows.
Proof. done. Qed.

(** The number of rows the loop has seen for a key. *)
Lemma foldl_record_count rows stats k :
  from_option SessionStats.waiting_count 0
    (stats_of k (foldl record_entry stats rows))
  = from_option SessionStats.waiting_count 0 (stats_of k stats)
    + Z.of_nat (length (filter (fun r => ClassSession.id r.2.1 = k) rows)).
Proof.
  revert stats. induction rows as [|[now [cs wl]] rows IH]; intros stats.
  - simpl. lia.
  - rewrite foldl_record_cons. rewrite IH, record_entry_stats_of.
    destruct (decide (k = ClassSession.id cs)) as [->|Hne].
    + rewrite filter_cons_True by done. simpl length.
      destruct (stats_of (ClassSession.id cs) stats); simpl; lia.
    + rewrite filter_cons_False by (simpl; congruence). lia.
Qed.

Lemma foldl_record_is_Some rows stats k :
  is_Some (stats_of k (foldl record_entry stats rows))
  <-> is_Some (stats_of k stats)
      ∨ exists r, r ∈ rows ∧ ClassSession.id r.2.1 = k.
Proof.
  revert stats. induction rows as [|[now [cs wl]] rows IH]; intros stats.
  - simpl. split; [by left|]. intros [?|(r & Hr & _)]; [done|].
    by apply elem_of_nil in Hr.
  - rewrite foldl_record_cons. rewrite IH, record_entry_stats_of.
    destruct (decide (k = ClassSession.id cs)) as [->|Hne].
    + split; [|by eauto]. intros _. right.
      exists (now, (cs, wl)). split; [left|done].
    + split.
      * intros [?|(r & Hr & Hk)]; [by left|].
        right. exists r. split; [by right|done].
      * intros [?|(r & Hr & Hk)]; [by left|].
        apply elem_of_cons in Hr as [->|Hr]; [simpl in Hk; congruence|].
        right. by exists r.
Qed.

(** The session kept under a key has that key and is one of the rows'. *)
Lemma foldl_record_session (sessions : list ClassSession.t) rows stats :
  (forall r, r ∈ rows -> r.2.1 ∈ sessions) ->
  (forall k st, stats_of k stats = Some st ->
     ClassSession.id (SessionStats.session st) = k
     ∧ SessionStats.session st ∈ sessions) ->
  forall k st, stats_of k (foldl record_entry stats rows) = Some st ->
    ClassSession.id (SessionStats.session st) = k
    ∧ SessionStats.session st ∈ sessions.
Proof.
  revert stats. induction rows as [|[now [cs wl]] rows IH];
    intros stats Hrows Hstats; [done|].
  rewrite foldl_record_cons. apply IH; [intros r Hr; apply Hrows; by right|].
  intros k st. rewrite record_entry_stats_of.
  destruct (decide (k = ClassSession.id cs)) as [->|Hne]; [|by apply Hstats].
  intros [= <-]. simpl.
  destruct (stats_of (ClassSession.id cs) stats) as [st0|] eqn:Hs; simpl.
  - by apply Hstats.
  - split; [done|]. apply (Hrows (now, (cs, wl))). left.
Qed.

(** The longest wait kept under a key is at least every wait the loop has
    seen for it. *)
Lemma foldl_record_hours_mono rows stats k :
  (from_option SessionStats.max_waiting_hours 0 (stats_of k stats)
   <= from_option SessionStats.max_waiting_hours 0
        (stats_of k (foldl record_entry stats rows)))%Q.
Proof.
  revert stats. induction rows as [|[now [cs wl]] rows IH]; intros stats.
  - apply Qle_refl.
  - rewrite foldl_record_cons. eapply Qle_trans; [|apply IH].
    rewrite record_entry_stats_of.
    destruct (decide (k = ClassSession.id cs)) as [->|Hne]; [|apply Qle_refl].
    destruct (stats_of (ClassSession.id cs) stats); simpl; apply py_max_l.
Qed.

Lemma foldl_record_hours rows stats now cs wl :
  (now, (cs, wl)) ∈ rows ->
  (hours_between (WaitingList.created_at wl) now
   <= from_option SessionStats.max_waiting_hours 0
        (stats_of (ClassSession.id cs) (foldl record_entry stats rows)))%Q.
Proof.
  revert stats. induction rows as [|row rows IH]; intros stats Hin.
  - by apply elem_of_nil in Hin.
  - rewrite foldl_record_cons. apply elem_of_cons in Hin as [<-|Hin]; [|by apply IH].
    eapply Qle_trans; [|apply foldl_record_hours_mono].
    rewrite record_entry_stats_of, decide_True by done. simpl.
    apply py_max_r.
Qed.
End grouping.

(** The rows of the query, with the clock readings of the loop. *)
Lemma timed_rows_untimed {A} (clk : nat -> Z) (rows : list A) :
  snd <$> imap (fun i r => (clk i, r)) rows = rows.
Proof.
  revert clk. induction rows as [|r rows IH]; intros clk; [done|].
  simpl. f_equal. apply (IH (fun i => clk (S i))).
Qed.

Lemma filter_snd_length {A} (P : A -> Prop) `{!forall x, Decision (P x)}
    (l : list (Z * A)) :
  length (filter (fun r => P r.2) l) = length (filter P (snd <$> l)).
Proof.
  induction l as [|a l IH]; [done|]. rewrite fmap_cons.
  destruct (decide (P a.2)).
  - rewrite !filter_cons_True by done. simpl. by rewrite IH.
  - by rewrite !filter_cons_False by done.
Qed.

(** How many rows of the query a session identifier has: one per session
    row with that identifier and [WAITING] entry of that session. *)
Lemma sessions_with_waiting_count db k :
  length (filter (fun r : ClassSession.t * WaitingList.t =>
                    ClassSession.id r.1 = k) (sessions_with_waiting db))
  = (length (filter (fun c => ClassSession.id c = k) (class_session db))
     * length (waiting_entries k db))%nat.
Proof.
  unfold sessions_with_waiting, join, waiting_entries.
  induction (class_session db) as [|c l IH]; [done|].
  rewrite bind_cons, !filter_app, length_app, IH.
  assert (length
            (filter (fun r : ClassSession.t * WaitingList.t =>
                       ClassSession.id r.1 = k)
               (filter (fun r : ClassSession.t * WaitingList.t =>
                          WaitingList.status r.2 = WaitingListStatus.WAITING)
                  ((fun b => (c, b)) <$> filter (waiting_on c) (waiting_list db))))
          = if decide (ClassSession.id c = k)
            then length (filter (is_waiting k) (waiting_list db)) else 0%nat)
    as ->.
  { rewrite list_filter_filter.
    destruct (decide (ClassSession.id c = k)) as [Hk|Hk].
    - rewrite (filter_fmap _ (fun wl => WaitingList.status wl
                                        = WaitingListStatus.WAITING))
        by (intros x _; simpl; tauto).
      rewrite length_fmap, list_filter_filter. f_equal.
      apply list_filter_iff. intros x. unfold waiting_on, is_waiting.
      rewrite Hk. tauto.
    - rewrite filter_none; [done|].
      intros x Hx. apply list_elem_of_fmap in Hx as (b & -> & _). simpl. tauto. }
  destruct (decide (ClassSession.id c = k)).
  - rewrite filter_cons_True by done. simpl. lia.
  - rewrite filter_cons_False by done. lia.
Qed.

Lemma sessions_with_waiting_elem db cs wl :
  (cs, wl) ∈ sessions_with_waiting db
  <-> cs ∈ class_session db ∧ wl ∈ waiting_entries (ClassSession.id cs) db.
Proof.
  unfold sessions_with_waiting, waiting_entries.
  rewrite !list_elem_of_filter, elem_of_join. unfold waiting_on, is_waiting.
  simpl. tauto.
Qed.

Lemma session_with_key (sessions : list ClassSession.t) cs k :
  NoDup (ClassSession.id <$> sessions) -> cs ∈ sessions ->
  ClassSession.id cs = k ->
  filter (fun c => ClassSession.id c = k) sessions = [cs].
Proof.
  intros Hnd Hin Hk. induction sessions as [|a l IH].
  - by apply elem_of_nil in Hin.
  - rewrite fmap_cons in Hnd. apply NoDup_cons in Hnd as [Ha Hnd].
    apply elem_of_cons in Hin as [<-|Hin].
    + rewrite filter_cons_True by done. f_equal.
      apply filter_none. intros x Hx Hxk. apply Ha.
      rewrite Hk, <- Hxk. by apply list_elem_of_fmap_2.
    + rewrite filter_cons_False; [by apply IH|].
      intros Hak. apply Ha. rewrite Hak, <- Hk. by apply list_elem_of_fmap_2.
Qed.

(** What the loop of [detect_high_demand] has stored under a key. *)
Lemma session_stats_of clk db k st :
  NoDup (ClassSession.id <$> class_session db) ->
  (k, st) ∈ session_stats clk (sessions_with_waiting db) ->
  ClassSession.id (SessionStats.session st) = k
  ∧ SessionStats.session st ∈ class_session db
  ∧ SessionStats.waiting_count st
    = Z.of_nat (length (waiting_entries k db))
  ∧ 1 <= SessionStats.waiting_count st.
Proof.
  intros Hnd Hin. unfold session_stats in Hin.
  set (rows := imap (fun i r => (clk i, r)) (sessions_with_waiting db)) in *.
  assert (stats_of k (foldl record_entry [] rows) = Some st) as Hs.
  { apply stats_of_found; [|done]. apply foldl_record_NoDup. constructor. }
  assert (forall r, r ∈ rows -> r.2.1 ∈ class_session db
                                 ∧ r.2 ∈ sessions_with_waiting db) as Hrows.
  { intros r Hr.
    assert (r.2 ∈ sessions_with_waiting db) as Hr2.
    { rewrite <- (timed_rows_untimed clk (sessions_with_waiting db)).
      by apply list_elem_of_fmap_2. }
    split; [|done]. destruct r as [now [cs wl]].
    by apply sessions_with_waiting_elem in Hr2 as [? _]. }
  destruct (foldl_record_session (class_session db) rows [] (fun r Hr =>
              proj1 (Hrows r Hr)) ltac:(done) k st Hs) as [Hk Hcs].
  pose proof (foldl_record_count rows [] k) as Hcount.
  rewrite Hs in Hcount. simpl in Hcount.
  assert (length (filter (fun r : Z * (ClassSession.t * WaitingList.t) =>
                            ClassSession.id r.2.1 = k) rows)
          = length (waiting_entries k db)) as Hlen.
  { pose proof (filter_snd_length
                  (fun r : ClassSession.t * WaitingList.t =>
                     ClassSession.id r.1 = k) rows) as Hsnd.
    simpl in Hsnd. rewrite Hsnd.
    unfold rows. rewrite timed_rows_untimed, sessions_with_waiting_count.
    rewrite (session_with_key (class_session db)
               (SessionStats.session st) k Hnd Hcs Hk).
    simpl. lia. }
  rewrite Hlen in Hcount.
  assert (exists r, r ∈ rows ∧ ClassSession.id r.2.1 = k) as (r & Hr & Hrk).
  { assert (is_Some (stats_of k (foldl record_entry [] rows))) as Hsome
      by (by rewrite Hs).
    apply foldl_record_is_Some in Hsome as [[? Hn]|?]; [done|done]. }
  destruct (Hrows r Hr) as [_ Hr2]. destruct r as [now [cs wl]].
  apply sessions_with_waiting_elem in Hr2 as [_ Hwl]. simpl in Hrk.
  rewrite Hrk in Hwl.
  split_and!; [done..|].
  rewrite Hcount. destruct (waiting_entries k db); [|simpl; lia].
  by apply elem_of_nil in Hwl.
Qed.

Lemma report_session_ids clk min_waiting min_waiting_hours db :
  HighDemand.session_id
    <$> detect_high_demand clk min_waiting min_waiting_hours db
  = (filter (is_high_demand min_waiting min_waiting_hours)
            (session_stats clk (sessions_with_waiting db))).*1.
Proof. unfold detect_high_demand. by rewrite <- list_fmap_compose. Qed.

(** X19. What [detect_high_demand] reports. The session identifiers being
    unique, the report names no session twice, and every record of it
    carries the identifier, the title and the capacity of a session of
    the table, with [waiting_count] the number of [WAITING] entries of
    that session, which is at least one; the session passes one of the two
    thresholds, the count or the longest wait seen; and the two
    recommendations are always the same. *)
Theorem detect_high_demand_report clk min_waiting min_waiting_hours db :
  NoDup (ClassSession.id <$> class_session db) ->
  let report := detect_high_demand clk min_waiting min_waiting_hours db in
  NoDup (HighDemand.session_id <$> report)
  ∧ forall hd, hd ∈ report ->
      (exists cs,
         cs ∈ class_session db
         ∧ ClassSession.id cs = HighDemand.session_id hd
         ∧ ClassSession.title cs = HighDemand.session_title hd
         ∧ ClassSession.capacity cs = HighDemand.current_capacity hd)
      ∧ HighDemand.waiting_count hd
        = Z.of_nat (length (waiting_entries (HighDemand.session_id hd) db))
      ∧ 1 <= HighDemand.waiting_count hd
      ∧ (HighDemand.waiting_count hd >= min_waiting
         ∨ (inject_Z min_waiting_hours <= HighDemand.max_waiting_hours hd)%Q)
      ∧ HighDemand.recommendations hd
        = ["Consider opening an additional session";
           "Consider increasing capacity if possible"].
Proof.
  intros Hnd report. split.
  - unfold report. rewrite report_session_ids.
    eapply sublist_NoDup; [|apply fmap_sublist, sublist_filter].
    unfold session_stats. apply foldl_record_NoDup. constructor.
  - intros hd Hhd. unfold report, detect_high_demand in Hhd.
    apply list_elem_of_fmap in Hhd as ([k st] & -> & Hkv).
    apply list_elem_of_filter in Hkv as [Hhigh Hkv].
    destruct (session_stats_of clk db k st Hnd Hkv) as (Hk & Hcs & Hn & H1).
    simpl. split_and!; try done.
    by exists (SessionStats.session st).
Qed.

Lemma detect_high_demand_report_witness :
  NoDup (ClassSession.id <$> class_session Studio.db)
  ∧ NoDup (HighDemand.session_id
             <$> detect_high_demand (Example.clock 90000000000) 2 24 Studio.db).
Proof.
  assert (NoDup (ClassSession.id <$> class_session Studio.db)) as Hu
    by (apply (bool_decide_unpack _); vm_compute; exact I).
  split; [exact Hu|].
  apply (detect_high_demand_report (Example.clock 90000000000) 2 24
           Studio.db Hu).
Defined.

(** X20. Which sessions [detect_high_demand] reports. A session without
    [WAITING] entry is never reported, whatever the thresholds, zero or
    negative ones included. A session of the table with a [WAITING] entry
    is reported as soon as its [WAITING] entries are [min_waiting] or
    more, or one of them has waited [min_waiting_hours] hours or more at
    every reading of the clock: either threshold is enough. *)
Theorem detect_high_demand_complete clk min_waiting min_waiting_hours db k :
  let report := detect_high_demand clk min_waiting min_waiting_hours db in
  let queue := waiting_entries k db in
  (queue = [] -> k ∉ HighDemand.session_id <$> report)
  ∧ ((exists cs, cs ∈ class_session db ∧ ClassSession.id cs = k) ->
     queue ≠ [] ->
     min_waiting <= Z.of_nat (length queue)
     ∨ (exists e, e ∈ queue
                  ∧ forall i, (inject_Z min_waiting_hours
                               <= hours_between (WaitingList.created_at e)
                                    (clk i))%Q) ->
     k ∈ HighDemand.session_id <$> report).
Proof.
  intros report queue.
  set (rows := imap (fun i r => (clk i, r)) (sessions_with_waiting db)).
  assert (forall r, r ∈ rows -> r.2 ∈ sessions_with_waiting db) as Hrows.
  { intros r Hr. rewrite <- (timed_rows_untimed clk (sessions_with_waiting db)).
    by apply list_elem_of_fmap_2. }
  assert (NoDup (foldl record_entry [] rows).*1) as Hnd
    by (apply foldl_record_NoDup; constructor).
  split.
  - intros Hempty Hin. unfold report in Hin. rewrite report_session_ids in Hin.
    apply list_elem_of_fmap in Hin as ([k' st] & -> & Hkv).
    apply list_elem_of_filter in Hkv as [_ Hkv]. unfold session_stats in Hkv.
    fold rows in Hkv. simpl in *.
    assert (is_Some (stats_of k' (foldl record_entry [] rows))) as Hsome
      by (by rewrite (stats_of_found _ _ _ Hnd Hkv)).
    apply foldl_record_is_Some in Hsome as [[? Hn]|(r & Hr & Hk)]; [done|].
    specialize (Hrows r Hr). destruct r as [now [cs wl]]. simpl in *.
    apply sessions_with_waiting_elem in Hrows as [_ Hwl].
    rewrite Hk in Hwl. unfold queue in Hempty. rewrite Hempty in Hwl.
    by apply elem_of_nil in Hwl.
  - intros (cs & Hcs & Hk) Hne Hthreshold.
    assert (exists e, e ∈ queue) as [e0 He0].
    { destruct queue as [|e0 ?]; [done|]. exists e0. left. }
    assert (forall e, e ∈ queue ->
              exists i, (clk i, (cs, e)) ∈ rows) as Htimed.
    { intros e He.
      assert ((cs, e) ∈ sessions_with_waiting db) as Hrow
        by (apply sessions_with_waiting_elem; by rewrite Hk).
      apply list_elem_of_lookup in Hrow as [i Hi]. exists i.
      by apply (elem_of_lookup_imap_2 (fun i r => (clk i, r))). }
    assert (exists st, stats_of k (foldl record_entry [] rows) = Some st)
      as [st Hst].
    { apply foldl_record_is_Some. right.
      destruct (Htimed e0 He0) as [i Hi]. by exists (clk i, (cs, e0)). }
    assert (is_high_demand min_waiting min_waiting_hours (k, st)) as Hhigh.
    { unfold is_high_demand. simpl.
      destruct Hthreshold as [Hcount|(e & He & Hlong)].
      - left.
        pose proof (foldl_record_count rows [] k) as Hc.
        rewrite Hst in Hc. simpl in Hc.
        pose proof (filter_snd_length
                      (fun r : ClassSession.t * WaitingList.t =>
                         ClassSession.id r.1 = k) rows) as Hsnd.
        simpl in Hsnd. rewrite Hsnd in Hc. unfold rows in Hc.
        rewrite timed_rows_untimed, sessions_with_waiting_count in Hc.
        fold queue in Hc.
        assert (1 <= length (filter (fun c => ClassSession.id c = k)
                               (class_session db)))%nat as Hone.
        { assert (cs ∈ filter (fun c => ClassSession.id c = k)
                          (class_session db)) as Hf
            by (by apply list_elem_of_filter).
          destruct (filter (fun c => ClassSession.id c = k)
                           (class_session db));
            [by apply elem_of_nil in Hf|simpl; lia]. }
        nia.
      - right. destruct (Htimed e He) as [i Hi].
        pose proof (foldl_record_hours rows [] (clk i) cs e Hi) as Hh.
        rewrite Hk, Hst in Hh. simpl in Hh.
        eapply Qle_trans; [apply Hlong|apply Hh]. }
    unfold report. rewrite report_session_ids.
    apply (list_elem_of_fmap_2 fst _ (k, st)).
    apply list_elem_of_filter. split; [done|].
    unfold session_stats. fold rows. by apply stats_of_elem.
Qed.

(** ** Counting the rows of [get_waiting_list] *)

Lemma member_with_key (ms : list Member.t) mb k :
  NoDup (Member.id <$> ms) -> mb ∈ ms -> Member.id mb = k ->
  filter (fun x => Member.id x = k) ms = [mb].
Proof.
  intros Hnd Hin Hk. induction ms as [|a l IH].
  - by apply elem_of_nil in Hin.
  - rewrite fmap_cons in Hnd. apply NoDup_cons in Hnd as [Ha Hnd].
    apply elem_of_cons in Hin as [<-|Hin].
    + rewrite filter_cons_True by done. f_equal.
      apply filter_none. intros x Hx Hxk. apply Ha.
      rewrite Hk, <- Hxk. by apply list_elem_of_fmap_2.
    + rewrite filter_cons_False; [by apply IH|].
      intros Hak. apply Ha. rewrite Hak, <- Hk. by apply list_elem_of_fmap_2.
Qed.

(** With a member row for every entry of the session, and one only, the
    join keeps each entry of the session once. *)
Lemma joined_entries s (wls : list WaitingList.t) (ms : list Member.t) :
  NoDup (Member.id <$> ms) ->
  (forall wl, wl ∈ wls -> WaitingList.class_session_id wl = s ->
              WaitingList.member_id wl ∈ Member.id <$> ms) ->
  fst <$> filter (fun r : WaitingList.t * Member.t =>
                    WaitingList.class_session_id r.1 = s)
                 (join member_on wls ms)
  = filter (fun wl => WaitingList.class_session_id wl = s) wls.
Proof.
  intros Hnd. unfold join. induction wls as [|wl l IH]; intros Hfk; [done|].
  rewrite bind_cons, filter_app, fmap_app, IH
    by (intros x Hx; apply Hfk; by right).
  destruct (decide (WaitingList.class_session_id wl = s)) as [Hs|Hs].
  - rewrite (filter_cons_True _ wl) by done.
    pose proof (Hfk wl ltac:(left) Hs) as Hm.
    apply list_elem_of_fmap in Hm as (mb & Hid & Hmb).
    assert (filter (member_on wl) ms = [mb]) as ->.
    { unfold member_on. by apply member_with_key. }
    simpl. rewrite filter_cons_True by done. done.
  - rewrite (filter_cons_False _ wl) by done.
    rewrite filter_none; [done|].
    intros x Hx. by apply list_elem_of_fmap in Hx as (mb & -> & _).
Qed.

Lemma filter_fmap_length {A B} (P : B -> Prop) `{!forall y, Decision (P y)}
    (f : A -> B) (l : list A) :
  length (filter P (f <$> l)) = length (filter (fun x => P (f x)) l).
Proof.
  induction l as [|a l IH]; [done|]. rewrite fmap_cons.
  destruct (decide (P (f a))).
  - rewrite !filter_cons_True by done. simpl. by rewrite IH.
  - by rewrite !filter_cons_False by done.
Qed.

Lemma get_waiting_list_columns clk s db :
  (fun r => (QueueRow.id r, QueueRow.status r)) <$> get_waiting_list clk s db
  = (fun r : WaitingList.t * Member.t =>
       (WaitingList.id r.1, WaitingList.status r.1)) <$> session_entries s db.
Proof.
  unfold get_waiting_list. rewrite fmap_imap.
  rewrite <- imap_const. apply imap_ext. intros i [wl mb] _. done.
Qed.

Lemma session_entries_Permutation s db :
  NoDup (Member.id <$> members db) ->
  (forall wl, wl ∈ waiting_list db -> WaitingList.class_session_id wl = s ->
              WaitingList.member_id wl ∈ Member.id <$> members db) ->
  fst <$> session_entries s db
  ≡ₚ filter (fun wl => WaitingList.class_session_id wl = s) (waiting_list db).
Proof.
  intros Hnd Hfk. unfold session_entries.
  rewrite order_by_Permutation. by rewrite joined_entries.
Qed.

(** X23. One row per entry. When the member identifiers are unique and
    every waiting-list entry of the session refers to a member of the
    table, [get_waiting_list] returns exactly one row for each entry of
    the session, whatever its status: the rows carry the identifiers and
    statuses of the session's entries, each once, and the number of rows
    with status [WAITING] is the number of [WAITING] entries of the
    session, the count that [detect_high_demand] reports for it. *)
Theorem get_waiting_list_one_row_per_entry clk s db :
  NoDup (Member.id <$> members db) ->
  (forall wl, wl ∈ waiting_list db -> WaitingList.class_session_id wl = s ->
              WaitingList.member_id wl ∈ Member.id <$> members db) ->
  let rows := get_waiting_list clk s db in
  (fun r => (QueueRow.id r, QueueRow.status r)) <$> rows
  ≡ₚ (fun wl => (WaitingList.id wl, WaitingList.status wl))
       <$> filter (fun wl => WaitingList.class_session_id wl = s)
                  (waiting_list db)
  ∧ length rows
    = length (filter (fun wl => WaitingList.class_session_id wl = s)
                     (waiting_list db))
  ∧ length (filter (fun r => QueueRow.status r = WaitingListStatus.WAITING)
                   rows)
    = length (waiting_entries s db).
Proof.
  intros Hnd Hfk rows.
  pose proof (session_entries_Permutation s db Hnd Hfk) as Hperm.
  assert ((fun r => (QueueRow.id r, QueueRow.status r)) <$> rows
          ≡ₚ (fun wl => (WaitingList.id wl, WaitingList.status wl))
               <$> filter (fun wl => WaitingList.class_session_id wl = s)
                          (waiting_list db)) as Hcols.
  { unfold rows. rewrite get_waiting_list_columns.
    rewrite <- Hperm, <- list_fmap_compose. done. }
  split_and!.
  - exact Hcols.
  - apply Permutation_length in Hcols. by rewrite !length_fmap in Hcols.
  - transitivity
      (length (filter (fun c : string * WaitingListStatus.t =>
                         c.2 = WaitingListStatus.WAITING)
                 ((fun r => (QueueRow.id r, QueueRow.status r)) <$> rows))).
    { by rewrite filter_fmap_length. }
    rewrite Hcols, filter_fmap_length. simpl.
    unfold waiting_entries. rewrite list_filter_filter. f_equal.
    apply list_filter_iff. intros x. unfold is_waiting. tauto.
Qed.

Lemma get_waiting_list_one_row_per_entry_witness :
  NoDup (Member.id <$> members Example.held)
  ∧ length (get_waiting_list (Example.clock 4000) "S" Example.held) = 2%nat
  ∧ length (filter (fun r => QueueRow.status r = WaitingListStatus.WAITING)
              (get_waiting_list (Example.clock 4000) "S" Example.held))
    = 1%nat.
Proof.
  assert (NoDup (Member.id <$> members Example.held)) as Hu
    by (apply (bool_decide_unpack _); vm_compute; exact I).
  split; [exact Hu|].
  destruct (get_waiting_list_one_row_per_entry (Example.clock 4000) "S"
              Example.held Hu) as (_ & Hrows & Hwaiting).
  - intros wl Hwl _. revert wl Hwl. apply Forall_forall.
    apply (bool_decide_unpack _). vm_compute. exact I.
  - split; [exact Hrows|exact Hwaiting].
Defined.
